(** * Video_processing.py: a shallow embedding and its checked properties

    The program decodes a video, derives eight views of every frame with
    OpenCV ([process_frame]), burns two lines of text into one of them,
    shows all eight and re-encodes the annotated one ([main]).

    Layout of this file:
    - numpy arrays and the OpenCV image operations [process_frame] calls;
    - the interpreter state (array store, captures, writers, windows,
      trace of calls) and the small state-and-exception monad the
      functions of the program run in;
    - [check_video_file], [initialize_video_writer], [process_frame],
      [main] and the module's top-level [try]/[except];
    - the properties. *)

From Stdlib Require Import ZArith Floats.
From stdpp Require Import gmap strings list pretty.

Open Scope Z_scope.

(** ** numpy arrays *)

(** Element type of an array: [uint8] everywhere but in the intermediate
    result of [cv2.Laplacian(gray, cv2.CV_64F)]. *)
Inductive dtype := U8 | F64.

(** An image as OpenCV's Python binding hands it out: [rows] x [cols]
    pixels of [channels] values each.  A value is kept as an integer:
    the only [float64] array of the program holds sums of five integers. *)
Record ndarray := mk_ndarray {
  rows : nat;
  cols : nat;
  channels : nat;
  depth : dtype;
  data : list (list (list Z))
}.

(** [a[y, x, c]]; 0 outside of the array. *)
Definition px (a : ndarray) (y x c : nat) : Z :=
  nth c (nth x (nth y (data a) []) []) 0.

(** The array of the given shape whose element at [(y, x, c)] is [f y x c]. *)
Definition tabulate (h w ch : nat) (d : dtype) (f : nat → nat → nat → Z) : ndarray :=
  {| rows := h; cols := w; channels := ch; depth := d;
     data := (λ y, (λ x, (λ c, f y x c) <$> seq 0 ch) <$> seq 0 w) <$> seq 0 h |}.

(** The stored shape agrees with the stored elements. *)
Definition well_formed (a : ndarray) : Prop :=
  length (data a) = rows a ∧
  Forall (λ row, length row = cols a ∧ Forall (λ p, length p = channels a) row) (data a).

Definition is_empty (a : ndarray) : bool :=
  (Nat.eqb (rows a) 0 || Nat.eqb (cols a) 0)%bool.

(** Every element of the array is [v]. *)
Definition all_px (v : Z) (a : ndarray) : Prop :=
  ∀ y x c, (y < rows a)%nat → (x < cols a)%nat → (c < channels a)%nat → px a y x c = v.

(** ** Exceptions *)

Inductive exn :=
| Cv2Error (what : string)
| KeyError (key : string)
| ZeroDivisionError
| OverflowError.

(** str(e) of line 217. *)
Definition exn_str (e : exn) : string :=
  match e with
  | Cv2Error what => what
  | KeyError key => "'" +:+ key +:+ "'"
  | ZeroDivisionError => "float division by zero"
  | OverflowError => "int too large to convert to float"
  end.

(** ** The numeric tables of the library

    OpenCV is not part of the repository.  The calls of [process_frame]
    are modelled after the library's documented behaviour; what the
    library derives from single-precision arithmetic or from built-in
    tables is taken as a parameter, so every result below holds for all
    values of these tables. *)
Record Numerics := {
  (** bicubic taps for destination index [d] when a line of [src] samples
      is resized to [dst] samples: the source index of the second tap and
      the four fixed-point weights (scale 2^11). *)
  cubic_taps : nat → nat → nat → Z * (Z * Z * Z * Z);
  (** one pixel of COLOR_BGR2HLS and of COLOR_BGR2HSV. *)
  bgr2hls_px : Z → Z → Z → Z * Z * Z;
  bgr2hsv_px : Z → Z → Z → Z * Z * Z;
  (** the rounded product [sum * (255 / denom)] of equalizeHist's
      look-up table. *)
  equalize_scaled : Z → Z → Z;
  (** the pixels covered by the strokes of a text drawn at [org]
      (x, y) in FONT_HERSHEY_SIMPLEX with the given scale and thickness. *)
  text_covers : string → nat * nat → Z → Z → nat → nat → bool;
  (** Python's format of a float: [str] and the format spec [.2f]. *)
  float_str : float → string;
  float_2f : float → string
}.

Module cv2.

(** saturate_cast<uchar>. *)
Definition saturate_u8 (v : Z) : Z := Z.max 0 (Z.min 255 v).

(** *** Border extrapolation (borderInterpolate) *)

(** BORDER_REPLICATE: aaaaaa|abcdefgh|hhhhhhh *)
Definition replicate (len : nat) (p : Z) : nat :=
  Z.to_nat (Z.max 0 (Z.min (Z.of_nat len - 1) p)).

(** BORDER_REFLECT_101 (BORDER_DEFAULT): gfedcb|abcdefgh|gfedcba *)
Definition reflect101 (len : nat) (p : Z) : nat :=
  if (len <=? 1)%nat then 0%nat
  else
    let period := 2 * (Z.of_nat len - 1) in
    let q := p `mod` period in
    Z.to_nat (if q <? Z.of_nat len then q else period - q).

(** The element at integer coordinates, extrapolated by [border]. *)
Definition px_at (border : nat → Z → nat) (a : ndarray) (y x : Z) (c : nat) : Z :=
  px a (border (rows a) y) (border (cols a) x) c.

(** Sum of [f] over the window [-r .. r]. *)
Definition sum_window (r : nat) (f : Z → Z) : Z :=
  foldr Z.add 0 ((λ i, f (Z.of_nat i - Z.of_nat r)) <$> seq 0 (2 * r + 1)).

(** *** cv2.resize(src, dsize, fx=0, fy=0, interpolation=cv2.INTER_CUBIC) *)

Definition tap4 (w : Z * Z * Z * Z) (s0 s1 s2 s3 : Z) : Z :=
  let '(w0, w1, w2, w3) := w in w0 * s0 + w1 * s1 + w2 * s2 + w3 * s3.

(** Horizontal pass: a row of the source, resampled to the
    destination width (32-bit intermediate, not yet descaled). *)
Definition hresize (N : Numerics) (a : ndarray) (w : nat) (sy : Z) (dx c : nat) : Z :=
  let '(sx, wx) := cubic_taps N (cols a) w dx in
  let s i := px_at replicate a sy (sx + i) c in
  tap4 wx (s (-1)) (s 0) (s 1) (s 2).

(** Vertical pass, then the fixed-point cast back to 8 bits. *)
Definition resize_px (N : Numerics) (a : ndarray) (w h : nat) (dy dx c : nat) : Z :=
  let '(sy, wy) := cubic_taps N (rows a) h dy in
  let s j := hresize N a w (sy + j) dx c in
  saturate_u8 (Z.shiftr (tap4 wy (s (-1)) (s 0) (s 1) (s 2) + Z.shiftl 1 21) 22).

Definition resize (N : Numerics) (src : ndarray) (dsize : nat * nat) : exn + ndarray :=
  let '(w, h) := dsize in
  if is_empty src then inl (Cv2Error "resize: !ssize.empty()")
  else if (Nat.eqb w 0 || Nat.eqb h 0)%bool then inl (Cv2Error "resize: !dsize.empty()")
  else if (Nat.eqb w (cols src) && Nat.eqb h (rows src))%bool then
    (* same size: a plain copy into a new array *)
    inr (tabulate h w (channels src) (depth src) (px src))
  else inr (tabulate h w (channels src) (depth src) (resize_px N src w h)).

(** *** cv2.cvtColor(src, code) *)

Inductive color_code := COLOR_BGR2GRAY | COLOR_BGR2HLS | COLOR_BGR2HSV.

(** 8-bit luma in 15-bit fixed point:
    0.114 B + 0.587 G + 0.299 R, rounded. *)
Definition bgr2gray_px (b g r : Z) : Z :=
  Z.shiftr (b * 3735 + g * 19235 + r * 9798 + Z.shiftl 1 14) 15.

Definition pick3 (t : Z * Z * Z) (c : nat) : Z :=
  let '(t0, t1, t2) := t in
  match c with 0%nat => t0 | 1%nat => t1 | _ => t2 end.

(** All three codes take a 3- or 4-channel source (B, G, R first) and
    reject anything else. *)
Definition cvtColor (N : Numerics) (src : ndarray) (code : color_code) : exn + ndarray :=
  if is_empty src then inl (Cv2Error "cvtColor: !_src.empty()")
  else if negb (Nat.eqb (channels src) 3 || Nat.eqb (channels src) 4)%bool then
    inl (Cv2Error "cvtColor: Invalid number of channels in input image")
  else
    let b y x := px src y x 0 in
    let g y x := px src y x 1 in
    let r y x := px src y x 2 in
    inr match code with
        | COLOR_BGR2GRAY =>
            tabulate (rows src) (cols src) 1 (depth src)
              (λ y x _, bgr2gray_px (b y x) (g y x) (r y x))
        | COLOR_BGR2HLS =>
            tabulate (rows src) (cols src) 3 (depth src)
              (λ y x c, pick3 (bgr2hls_px N (b y x) (g y x) (r y x)) c)
        | COLOR_BGR2HSV =>
            tabulate (rows src) (cols src) 3 (depth src)
              (λ y x c, pick3 (bgr2hsv_px N (b y x) (g y x) (r y x)) c)
        end.

(** *** cv2.adaptiveThreshold(src, maxValue, method, type, blockSize, C) *)

Inductive adaptive_method := ADAPTIVE_THRESH_MEAN_C.
Inductive thresh_type := THRESH_BINARY | THRESH_BINARY_INV.

Definition is_8UC1 (a : ndarray) : bool :=
  match depth a with U8 => Nat.eqb (channels a) 1 | F64 => false end.

(** Normalised box filter of side [bs], BORDER_REPLICATE, rounded to
    the nearest integer ([bs] is odd, so there are no ties). *)
Definition box_mean (a : ndarray) (bs : nat) (y x : nat) : Z :=
  let r := (bs / 2)%nat in
  let s := sum_window r (λ dy, sum_window r (λ dx,
             px_at replicate a (Z.of_nat y + dy) (Z.of_nat x + dx) 0)) in
  let area := Z.of_nat (bs * bs) in
  (2 * s + area) `div` (2 * area).

(** The comparison table of the library: a pixel is compared with the
    mean of its neighbourhood less [C]. *)
Definition thresh_px (type : thresh_type) (maxval C s m : Z) : Z :=
  match type with
  | THRESH_BINARY => if - C <? s - m then maxval else 0
  | THRESH_BINARY_INV => if s - m <=? - C then maxval else 0
  end.

Definition adaptiveThreshold (src : ndarray) (maxValue : Z) (method : adaptive_method)
    (type : thresh_type) (blockSize : nat) (C : Z) : exn + ndarray :=
  if negb (is_8UC1 src) then inl (Cv2Error "adaptiveThreshold: src.type() == CV_8UC1")
  else if negb (Nat.odd blockSize && (1 <? blockSize)%nat)%bool then
    inl (Cv2Error "adaptiveThreshold: blockSize % 2 == 1 && blockSize > 1")
  else if maxValue <? 0 then
    inr (tabulate (rows src) (cols src) 1 U8 (λ _ _ _, 0))
  else
    inr (tabulate (rows src) (cols src) 1 U8
           (λ y x _, thresh_px type (saturate_u8 maxValue) C
                       (px src y x 0) (box_mean src blockSize y x))).

(** *** cv2.Laplacian(src, cv2.CV_64F) and cv2.convertScaleAbs(src) *)

(** Aperture 1: the kernel [[0 1 0] [1 -4 1] [0 1 0]], BORDER_DEFAULT. *)
Definition laplacian_px (a : ndarray) (y x c : nat) : Z :=
  let s dy dx := px_at reflect101 a (Z.of_nat y + dy) (Z.of_nat x + dx) c in
  s (-1) 0 + s 1 0 + s 0 (-1) + s 0 1 - 4 * s 0 0.

Definition Laplacian (src : ndarray) (ddepth : dtype) : exn + ndarray :=
  if is_empty src then inl (Cv2Error "Laplacian: !_src.empty()")
  else inr (tabulate (rows src) (cols src) (channels src) ddepth (laplacian_px src)).

(** alpha = 1, beta = 0: the absolute value, saturated to 8 bits. *)
Definition convertScaleAbs (src : ndarray) : exn + ndarray :=
  inr (tabulate (rows src) (cols src) (channels src) U8
         (λ y x c, saturate_u8 (Z.abs (px src y x c)))).

(** *** cv2.GaussianBlur(src, (5, 5), 0) *)

(** sigma = 0 with a 5-tap aperture selects the fixed kernel
    [1 4 6 4 1] / 16. *)
Definition gauss5 (d : Z) : Z :=
  match Z.abs d with 0 => 6 | 1 => 4 | 2 => 1 | _ => 0 end.

Definition gaussian5_px (a : ndarray) (y x c : nat) : Z :=
  let s := sum_window 2 (λ dy, gauss5 dy * sum_window 2 (λ dx,
             gauss5 dx * px_at reflect101 a (Z.of_nat y + dy) (Z.of_nat x + dx) c)) in
  saturate_u8 (Z.shiftr (s + 128) 8).

Definition GaussianBlur (src : ndarray) (ksize : nat * nat) (sigmaX : Z) : exn + ndarray :=
  if is_empty src then inl (Cv2Error "GaussianBlur: !_src.empty()")
  else
    match ksize, sigmaX with
    | (5%nat, 5%nat), 0 =>
        inr (tabulate (rows src) (cols src) (channels src) (depth src) (gaussian5_px src))
    | _, _ => inl (Cv2Error "GaussianBlur: aperture outside of the model")
    end.

(** *** cv2.equalizeHist(src) *)

Definition all_pixels (a : ndarray) : list Z :=
  concat ((λ row, concat row) <$> data a).

(** hist[v]: the number of pixels of value [v]. *)
Definition hist (a : ndarray) (v : Z) : Z :=
  Z.of_nat (length (filter (λ p, p = v) (all_pixels a))).

(** The first bin that is not empty (256 when there is none). *)
Definition first_bin (a : ndarray) : Z :=
  default 256 (head (filter (λ v, hist a v ≠ 0) (Z.of_nat <$> seq 0 256))).

(** Cumulated histogram above the first non-empty bin [i0]. *)
Definition cum_hist (a : ndarray) (i0 v : Z) : Z :=
  foldr Z.add 0 ((λ k, hist a (i0 + 1 + Z.of_nat k)) <$> seq 0 (Z.to_nat (v - i0))).

Definition equalizeHist (N : Numerics) (src : ndarray) : exn + ndarray :=
  if negb (is_8UC1 src) then inl (Cv2Error "equalizeHist: _src.type() == CV_8UC1")
  else if is_empty src then inr (tabulate (rows src) (cols src) 1 U8 (λ _ _ _, 0))
  else
    let i0 := first_bin src in
    let total := Z.of_nat (rows src * cols src) in
    if hist src i0 =? total then
      (* a constant image: dst.setTo(i0) *)
      inr (tabulate (rows src) (cols src) 1 U8 (λ _ _ _, i0))
    else
      let lut v :=
        if v <=? i0 then 0
        else saturate_u8 (equalize_scaled N (cum_hist src i0 v) (total - hist src i0)) in
      inr (tabulate (rows src) (cols src) 1 U8 (λ y x _, lut (px src y x 0))).

(** *** cv2.putText(img, text, org, font, fontScale, color, thickness)

    The array the call leaves behind: the color on the strokes of the
    text, the old value elsewhere.  A color has four components (B, G,
    R, alpha); channel [c] takes component [c]. *)
Definition putText (N : Numerics) (img : ndarray) (text : string) (org : nat * nat)
    (fontScale : Z) (color : list Z) (thickness : Z) : ndarray :=
  tabulate (rows img) (cols img) (channels img) (depth img)
    (λ y x c, if text_covers N text org fontScale thickness y x
              then nth c color 0 else px img y x c).

End cv2.

(** ** Python numbers of line 160 *)

(** The conditional expression of line 160 yields a float on one
    branch and the int 0 on the other. *)
Inductive pynum := PyInt (z : Z) | PyFloat (f : float).

(** The conversion of an int operand to a float: the nearest double,
    ties to even; an int that rounds beyond the largest double raises
    OverflowError. *)
Definition int_to_float (n : Z) : exn + float :=
  match binary_normalize prec emax n 0 false with
  | S754_infinity _ => inl OverflowError
  | x => inr (SF2Prim x)
  end.

(** [a / b] for an int [a] and a float [b]: [a] is converted first, then
    the divisor is tested. *)
Definition truediv (a : Z) (b : float) : exn + float :=
  match int_to_float a with
  | inl e => inl e
  | inr x => if (b =? 0)%float then inl ZeroDivisionError else inr (x / b)%float
  end.

(** Line 160:
    [current_fps = frame_count / elapsed_time if elapsed_time > 0 else 0] *)
Definition current_fps (frame_count : Z) (elapsed_time : float) : exn + pynum :=
  if (0 <? elapsed_time)%float then
    match truediv frame_count elapsed_time with
    | inl e => inl e
    | inr q => inr (PyFloat q)
    end
  else inr (PyInt 0).

(** f'{current_fps:.2f}' *)
Definition format_2f (N : Numerics) (v : pynum) : string :=
  match v with
  | PyInt z => pretty z +:+ ".00"
  | PyFloat f => float_2f N f
  end.

(** ** The world the program runs in *)

(** What a video file decodes to.  The integer properties are kept as
    the integers [int(cap.get(...))] makes of them. *)
Record Video := {
  v_width : Z;
  v_height : Z;
  v_fps : float;
  v_total_frames : Z;
  v_frames : list ndarray
}.

(** The calls of the loop, and the one after it, that reach outside of
    the process and can fail there. *)
Inductive call_site :=
| AtRead
| AtPutText (org : nat * nat)
| AtImshow (winname : string)
| AtWrite
| AtWaitKey
| AtDestroyAllWindows.

(** Everything [main] does not decide itself.  The last three fields
    are indexed by the value of [frame_count] at the time of the call
    (0 before the first frame is counted). *)
Record Env := {
  (** os.path.exists *)
  path_exists : string → bool;
  (** the video cv2.VideoCapture finds at a path, if it can open one *)
  video_at : string → option Video;
  (** the reading of time.time() *)
  clock : nat → float;
  (** the key code cv2.waitKey returns (-1: no key) *)
  key : nat → Z;
  (** the exception an OpenCV call raises, if it does *)
  fault : nat → call_site → option exn
}.

(** A reference to an object of the store: its index. *)
Abbreviation ref := nat (only parsing).

Inductive level := INFO | ERROR.

(** The calls and assignments a run performs, in order of completion. *)
Inductive event :=
| Exists (path : string) (found : bool)
| CaptureNew (cap : ref) (path : string)
| CaptureRelease (cap : ref)
| CaptureRead (cap : ref) (ret : bool)
| WriterNew (out : ref) (path fourcc : string) (fps : float) (size : nat * nat)
| WriterWrite (out : ref) (img : ref)
| WriterRelease (out : ref)
| Cv2Call (name : string) (src dst : ref)
| PutText (img : ref) (text : string) (org : nat * nat)
| Imshow (winname : string) (img : ref)
| WaitKey (delay : Z) (code : Z)
| DestroyAllWindows
| TimeTime (t : float)
| TimeSleep (secs : Z)
| FrameCount (n : nat)
| Log (lvl : level) (msg : string)
| Print (msg : string).

Record Capture := {
  cap_path : string;
  cap_video : option Video;
  cap_released : bool
}.

Record Writer := {
  out_path : string;
  out_fourcc : string;
  out_fps : float;
  out_size : nat * nat;
  (** the frames handed to the encoder so far *)
  out_frames : list ndarray;
  out_released : bool
}.

(** The interpreter state: numpy arrays by reference, the capture and
    writer objects, the windows on screen with what they show, the
    counter of [main] and the trace. *)
Record State := {
  heap : list ndarray;
  captures : list Capture;
  writers : list Writer;
  windows : gmap string ndarray;
  frame_count : nat;
  trace : list event
}.

Definition initial_state : State :=
  {| heap := []; captures := []; writers := []; windows := ∅;
     frame_count := 0; trace := [] |}.

Definition with_heap (f : list ndarray → list ndarray) (s : State) : State :=
  {| heap := f (heap s); captures := captures s; writers := writers s;
     windows := windows s; frame_count := frame_count s; trace := trace s |}.
Definition with_captures (f : list Capture → list Capture) (s : State) : State :=
  {| heap := heap s; captures := f (captures s); writers := writers s;
     windows := windows s; frame_count := frame_count s; trace := trace s |}.
Definition with_writers (f : list Writer → list Writer) (s : State) : State :=
  {| heap := heap s; captures := captures s; writers := f (writers s);
     windows := windows s; frame_count := frame_count s; trace := trace s |}.
Definition with_windows (f : gmap string ndarray → gmap string ndarray) (s : State) : State :=
  {| heap := heap s; captures := captures s; writers := writers s;
     windows := f (windows s); frame_count := frame_count s; trace := trace s |}.
Definition with_frame_count (f : nat → nat) (s : State) : State :=
  {| heap := heap s; captures := captures s; writers := writers s;
     windows := windows s; frame_count := f (frame_count s); trace := trace s |}.
Definition with_trace (f : list event → list event) (s : State) : State :=
  {| heap := heap s; captures := captures s; writers := writers s;
     windows := windows s; frame_count := frame_count s; trace := f (trace s) |}.

(** ** State and exceptions *)

Definition M (A : Type) : Type := State → (exn + A) * State.

Definition ret {A} (a : A) : M A := λ s, (inr a, s).
Definition raise {A} (e : exn) : M A := λ s, (inl e, s).
Definition bind {A B} (m : M A) (k : A → M B) : M B :=
  λ s, match m s with
       | (inr a, s') => k a s'
       | (inl e, s') => (inl e, s')
       end.

#[global] Instance M_ret : MRet M := @ret.
#[global] Instance M_bind : MBind M := λ A B k m, bind m k.

Definition lift {A} (r : exn + A) : M A :=
  match r with inl e => raise e | inr a => ret a end.
Definition gets {A} (f : State → A) : M A := λ s, (inr (f s), s).
Definition modify (f : State → State) : M unit := λ s, (inr tt, f s).
Definition emit (ev : event) : M unit := modify (with_trace (λ t, t ++ [ev])).

(** try: m / except Exception as e: h e *)
Definition try_except {A} (m : M A) (h : exn → M A) : M A :=
  λ s, match m s with
       | (inr a, s') => (inr a, s')
       | (inl e, s') => h e s'
       end.

(** The exception the environment injects at a call of the frame in
    progress. *)
Definition may_raise (E : Env) (site : call_site) : M unit :=
  n ← gets frame_count;
  match fault E n site with
  | Some e => raise e
  | None => ret tt
  end.

(** *** Arrays *)

Definition alloc (a : ndarray) : M ref :=
  r ← gets (λ s, length (heap s));
  modify (with_heap (λ h, h ++ [a]));;
  ret r.

Definition load (r : ref) : M ndarray :=
  h ← gets heap;
  match h !! r with
  | Some a => ret a
  | None => raise (Cv2Error "not an array")
  end.

Definition store (r : ref) (a : ndarray) : M unit :=
  modify (with_heap (λ h, <[r := a]> h)).

(** An OpenCV function from an array to a new array. *)
Definition cv2_call (name : string) (f : ndarray → exn + ndarray) (src : ref) : M ref :=
  a ← load src;
  b ← lift (f a);
  dst ← alloc b;
  emit (Cv2Call name src dst);;
  ret dst.

(** d[k] on a dict *)
Definition getitem (d : gmap string ref) (k : string) : M ref :=
  match d !! k with
  | Some r => ret r
  | None => raise (KeyError k)
  end.

(** *** logging, print, time *)

Definition logger_info (msg : string) : M unit := emit (Log INFO msg).
Definition logger_error (msg : string) : M unit := emit (Log ERROR msg).
Definition print (msg : string) : M unit := emit (Print msg).
Definition time_sleep (secs : Z) : M unit := emit (TimeSleep secs).
Definition time_time (E : Env) : M float :=
  n ← gets frame_count;
  emit (TimeTime (clock E n));;
  ret (clock E n).

(** *** cv2.VideoCapture *)

Definition VideoCapture (E : Env) (path : string) : M ref :=
  cap ← gets (λ s, length (captures s));
  modify (with_captures (λ cs, cs ++
    [{| cap_path := path; cap_video := video_at E path; cap_released := false |}]));;
  emit (CaptureNew cap path);;
  ret cap.

Definition opened (c : Capture) : bool :=
  (bool_decide (is_Some (cap_video c)) && negb (cap_released c))%bool.

Definition cap_isOpened (cap : ref) : M bool :=
  cs ← gets captures;
  ret (from_option opened false (cs !! cap)).

(** cap.get(prop): 0 on a capture that is not open. *)
Definition cap_get {A} (cap : ref) (prop : Video → A) (zero : A) : M A :=
  cs ← gets captures;
  ret match cs !! cap with
      | Some c => if opened c then from_option prop zero (cap_video c) else zero
      | None => zero
      end.

Definition cap_release (cap : ref) : M unit :=
  modify (with_captures (alter (λ c,
    {| cap_path := cap_path c; cap_video := cap_video c; cap_released := true |}) cap));;
  emit (CaptureRelease cap).

(** ret, frame = cap.read(): the next frame in a new array, or no frame. *)
Definition cap_read (E : Env) (cap : ref) (next : option ndarray) : M (option ref) :=
  may_raise E AtRead;;
  match next with
  | Some a =>
      frame ← alloc a;
      emit (CaptureRead cap true);;
      ret (Some frame)
  | None =>
      emit (CaptureRead cap false);;
      ret None
  end.

(** *** cv2.VideoWriter *)

Definition VideoWriter (path fourcc : string) (fps : float) (size : nat * nat) : M ref :=
  out ← gets (λ s, length (writers s));
  modify (with_writers (λ ws, ws ++
    [{| out_path := path; out_fourcc := fourcc; out_fps := fps; out_size := size;
        out_frames := []; out_released := false |}]));;
  emit (WriterNew out path fourcc fps size);;
  ret out.

Definition write_frame (a : ndarray) (w : Writer) : Writer :=
  if out_released w then w else
  {| out_path := out_path w; out_fourcc := out_fourcc w; out_fps := out_fps w;
     out_size := out_size w; out_frames := out_frames w ++ [a];
     out_released := false |}.

(** out.write(img): the encoder receives the present contents of the
    array; a released writer ignores the call. *)
Definition out_write (E : Env) (out : ref) (img : ref) : M unit :=
  may_raise E AtWrite;;
  a ← load img;
  modify (with_writers (alter (write_frame a) out));;
  emit (WriterWrite out img).

Definition out_release (out : ref) : M unit :=
  modify (with_writers (alter (λ w,
    {| out_path := out_path w; out_fourcc := out_fourcc w; out_fps := out_fps w;
       out_size := out_size w; out_frames := out_frames w;
       out_released := true |}) out));;
  emit (WriterRelease out).

(** *** Drawing and display *)

(** cv2.putText draws into the array it is given. *)
Definition cv2_putText (E : Env) (N : Numerics) (img : ref) (text : string)
    (org : nat * nat) (fontScale : Z) (color : list Z) (thickness : Z) : M unit :=
  may_raise E (AtPutText org);;
  a ← load img;
  store img (cv2.putText N a text org fontScale color thickness);;
  emit (PutText img text org).

Definition cv2_imshow (E : Env) (winname : string) (img : ref) : M unit :=
  may_raise E (AtImshow winname);;
  a ← load img;
  modify (with_windows (λ ws, <[winname := a]> ws));;
  emit (Imshow winname img).

Definition cv2_waitKey (E : Env) (delay : Z) : M Z :=
  may_raise E AtWaitKey;;
  n ← gets frame_count;
  emit (WaitKey delay (key E n));;
  ret (key E n).

Definition cv2_destroyAllWindows (E : Env) : M unit :=
  may_raise E AtDestroyAllWindows;;
  modify (with_windows (λ _, ∅));;
  emit DestroyAllWindows.

(** ** The program *)

(** Lines 17-34. *)
Definition check_video_file (E : Env) (video_path : string) : M bool :=
  found ← (emit (Exists video_path (path_exists E video_path));;
           ret (path_exists E video_path));
  if negb found then
    logger_error ("Video file " +:+ video_path +:+ " does not exist");;
    ret false
  else
    cap ← VideoCapture E video_path;
    is_open ← cap_isOpened cap;
    if negb is_open then
      logger_error ("Failed to open video file " +:+ video_path);;
      ret false
    else
      cap_release cap;;
      ret true.

(** Lines 37-51. *)
Definition initialize_video_writer (cap : ref) (output_path : string) (width height : nat)
    : M ref :=
  let fourcc := "mp4v" in
  fps ← cap_get cap v_fps 0%float;
  VideoWriter output_path fourcc fps (width, height).

(** The default of [target_size] (line 54). *)
Definition default_target_size : nat * nat := (540%nat, 380%nat).

(** Lines 54-100. *)
Definition process_frame (N : Numerics) (frame : ref) (target_size : nat * nat)
    : M (gmap string ref) :=
  resized_frame ← cv2_call "resize" (λ a, cv2.resize N a target_size) frame;
  gray ← cv2_call "cvtColor" (λ a, cv2.cvtColor N a cv2.COLOR_BGR2GRAY) resized_frame;
  hls ← cv2_call "cvtColor" (λ a, cv2.cvtColor N a cv2.COLOR_BGR2HLS) resized_frame;
  hsv ← cv2_call "cvtColor" (λ a, cv2.cvtColor N a cv2.COLOR_BGR2HSV) resized_frame;
  thresh ← cv2_call "adaptiveThreshold"
             (λ a, cv2.adaptiveThreshold a 255 cv2.ADAPTIVE_THRESH_MEAN_C
                     cv2.THRESH_BINARY_INV 11 2) gray;
  lap ← cv2_call "Laplacian" (λ a, cv2.Laplacian a F64) gray;
  lap ← cv2_call "convertScaleAbs" cv2.convertScaleAbs lap;
  blur ← cv2_call "GaussianBlur" (λ a, cv2.GaussianBlur a (5%nat, 5%nat) 0) gray;
  equalized ← cv2_call "equalizeHist" (cv2.equalizeHist N) gray;
  ret (list_to_map [
    ("original", resized_frame);
    ("gray", gray);
    ("hls", hls);
    ("hsv", hsv);
    ("thresh", thresh);
    ("laplacian", lap);
    ("blur", blur);
    ("equalized", equalized)
  ]).

(** The windows of lines 183-190 with the entry each one shows. *)
Definition views : list (string * string) := [
  ("Original Frame", "original");
  ("Grayscale", "gray");
  ("HLS Color Space", "hls");
  ("HSV Color Space", "hsv");
  ("Adaptive Threshold", "thresh");
  ("Laplacian Edge", "laplacian");
  ("Gaussian Blur", "blur");
  ("Histogram Equalized", "equalized")
].

(** Lines 183-190, one call after the other. *)
Fixpoint show_all (E : Env) (processed : gmap string ref) (vs : list (string * string))
    : M unit :=
  match vs with
  | [] => ret tt
  | (winname, k) :: vs' =>
      img ← getitem processed k;
      cv2_imshow E winname img;;
      show_all E processed vs'
  end.

(** Lines 163-180: the two overlays, both drawn into
    [processed['original']]. *)
Definition annotate (E : Env) (N : Numerics) (processed : gmap string ref)
    (frame_count : nat) (total_frames : Z) (current_fps : pynum)
    (org : nat * nat) (font_scale : Z) (color : list Z) (thickness : Z) : M unit :=
  img ← getitem processed "original";
  cv2_putText E N img
    ("Frame: " +:+ pretty frame_count +:+ "/" +:+ pretty total_frames)
    org font_scale color thickness;;
  img ← getitem processed "original";
  cv2_putText E N img
    ("FPS: " +:+ format_2f N current_fps)
    (50%nat, 100%nat) font_scale color thickness.

(** Lines 153-201: what one turn of the loop does with the frame it
    has read.  The result tells whether the loop is left ([break]). *)
Definition loop_body (E : Env) (N : Numerics) (out : ref) (total_frames : Z)
    (start_time : float) (org : nat * nat) (font_scale : Z) (color : list Z) (thickness : Z)
    (frame : ref) : M bool :=
  modify (with_frame_count S);;
  n ← gets frame_count;
  emit (FrameCount n);;
  processed ← process_frame N frame default_target_size;
  now ← time_time E;
  let elapsed_time := (now - start_time)%float in
  fps ← lift (current_fps (Z.of_nat n) elapsed_time);
  annotate E N processed n total_frames fps org font_scale color thickness;;
  show_all E processed views;;
  img ← getitem processed "original";
  out_write E out img;;
  logger_info ("Processed frame " +:+ pretty n);;
  code ← cv2_waitKey E 25;
  if Z.land code 255 =? 113 (* ord('q') *) then
    logger_info "User interrupted video processing";;
    ret true
  else ret false.

(** Lines 146-201: the loop, with the frames the capture has not yet
    delivered. *)
Fixpoint loop (E : Env) (N : Numerics) (cap out : ref) (total_frames : Z)
    (start_time : float) (org : nat * nat) (font_scale : Z) (color : list Z) (thickness : Z)
    (frames : list ndarray) : M unit :=
  is_open ← cap_isOpened cap;
  if negb is_open then ret tt
  else
    match frames with
    | [] =>
        _ ← cap_read E cap None;
        logger_info "End of video reached"
    | next :: rest =>
        r ← cap_read E cap (Some next);
        match r with
        | None => logger_info "End of video reached"
        | Some frame =>
            stop ← loop_body E N out total_frames start_time org font_scale color
                     thickness frame;
            if stop : bool then ret tt
            else loop E N cap out total_frames start_time org font_scale color thickness rest
        end
    end.

(** Lines 103-210, for the two paths [main] fixes in lines 105-106. *)
Definition main_with (video_path output_path : string) (E : Env) (N : Numerics) : M unit :=
  ok ← check_video_file E video_path;
  if negb ok then
    print "Error: Cannot access video file. Exiting..."
  else
    cap ← VideoCapture E video_path;
    width ← cap_get cap v_width 0;
    height ← cap_get cap v_height 0;
    fps ← cap_get cap v_fps 0%float;
    total_frames ← cap_get cap v_total_frames 0;
    logger_info ("Video loaded: " +:+ pretty width +:+ "x" +:+ pretty height +:+ ", "
                 +:+ float_str N fps +:+ " FPS, " +:+ pretty total_frames +:+ " frames");;
    out ← initialize_video_writer cap output_path 540 380;
    print "Downloading video . . .";;
    time_sleep 10;;
    print "Processing Video . . .";;
    time_sleep 15;;
    modify (with_frame_count (λ _, 0%nat));;
    start_time ← time_time E;
    let org := (50%nat, 50%nat) in
    let font_scale := 1 in
    let color := [0; 255; 0] in
    let thickness := 2 in
    (* the frames [cap.read()] is going to deliver *)
    frames ← cap_get cap v_frames [];
    loop E N cap out total_frames start_time org font_scale color thickness frames;;
    cap_release cap;;
    out_release out;;
    cv2_destroyAllWindows E;;
    logger_info "Video processing completed";;
    print ("Processed video saved as " +:+ output_path).

Definition main : Env → Numerics → M unit :=
  main_with "Demo.mp4" "processed_video.mp4".

(** Lines 213-218: the module run as a script. *)
Definition script_with (video_path output_path : string) (E : Env) (N : Numerics) : M unit :=
  try_except (main_with video_path output_path E N)
    (λ e, logger_error ("An error occurred: " +:+ exn_str e);;
          print ("An error occurred: " +:+ exn_str e)).

Definition script : Env → Numerics → M unit :=
  script_with "Demo.mp4" "processed_video.mp4".

(** * Properties *)

(** ** Arrays built by [tabulate] *)

Section Tabulate.
Context (h w ch : nat) (d : dtype) (f : nat → nat → nat → Z).

Lemma tabulate_well_formed : well_formed (tabulate h w ch d f).
Proof.
  split; simpl.
  - by rewrite length_fmap, length_seq.
  - apply Forall_fmap, Forall_forall. intros y _. simpl. split.
    + by rewrite length_fmap, length_seq.
    + apply Forall_fmap, Forall_forall. intros x _. simpl.
      by rewrite length_fmap, length_seq.
Qed.

Lemma px_tabulate y x c :
  (y < h)%nat → (x < w)%nat → (c < ch)%nat → px (tabulate h w ch d f) y x c = f y x c.
Proof.
  intros Hy Hx Hc. unfold px, tabulate. simpl.
  rewrite (nth_lookup_Some _ _ _ ((λ x0, (λ c0, f y x0 c0) <$> seq 0 ch) <$> seq 0 w)).
  2:{ rewrite list_lookup_fmap, lookup_seq_lt by done. done. }
  rewrite (nth_lookup_Some _ _ _ ((λ c0, f y x c0) <$> seq 0 ch)).
  2:{ rewrite list_lookup_fmap, lookup_seq_lt by done. done. }
  apply nth_lookup_Some.
  rewrite list_lookup_fmap, lookup_seq_lt by done. done.
Qed.

Lemma all_px_tabulate v :
  (∀ y x c, (y < h)%nat → (x < w)%nat → (c < ch)%nat → f y x c = v) →
  all_px v (tabulate h w ch d f).
Proof.
  intros Hf y x c Hy Hx Hc. simpl in *. rewrite px_tabulate by done. auto.
Qed.
End Tabulate.

(** Outside of its shape a well-formed array reads as 0, so a black
    array is black at every index. *)
Lemma px_zero_everywhere a :
  well_formed a → all_px 0 a → ∀ y x c, px a y x c = 0.
Proof.
  intros [Hlen Hrows] Hz y x c.
  destruct (decide (y < rows a)%nat) as [Hy|Hy].
  2:{ unfold px. rewrite (nth_overflow (data a)) by (rewrite Hlen; lia). by destruct x, c. }
  destruct (data a !! y) as [row|] eqn:Hrow.
  2:{ apply lookup_ge_None in Hrow. lia. }
  pose proof (proj1 (Forall_lookup _ _) Hrows y row Hrow) as [Hc Hpx].
  destruct (decide (x < cols a)%nat) as [Hx|Hx].
  2:{ unfold px. rewrite (nth_lookup_Some _ _ _ row Hrow).
      rewrite (nth_overflow row) by (rewrite Hc; lia). by destruct c. }
  destruct (row !! x) as [p|] eqn:Hp.
  2:{ apply lookup_ge_None in Hp. lia. }
  pose proof (proj1 (Forall_lookup _ _) Hpx x p Hp) as Hch.
  destruct (decide (c < channels a)%nat) as [Hcc|Hcc]; [by apply Hz|].
  unfold px. rewrite (nth_lookup_Some _ _ _ row Hrow), (nth_lookup_Some _ _ _ p Hp).
  apply nth_overflow. rewrite Hch. lia.
Qed.

Lemma rows_tabulate h w ch d f : rows (tabulate h w ch d f) = h.
Proof. reflexivity. Qed.
Lemma cols_tabulate h w ch d f : cols (tabulate h w ch d f) = w.
Proof. reflexivity. Qed.
Lemma channels_tabulate h w ch d f : channels (tabulate h w ch d f) = ch.
Proof. reflexivity. Qed.
Lemma depth_tabulate h w ch d f : depth (tabulate h w ch d f) = d.
Proof. reflexivity. Qed.

(** Two tables of one shape with the same entries are the same array. *)
Lemma tabulate_ext h w ch d f g :
  (∀ y x c, (y < h)%nat → (x < w)%nat → (c < ch)%nat → f y x c = g y x c) →
  tabulate h w ch d f = tabulate h w ch d g.
Proof.
  intros Hfg. unfold tabulate. f_equal.
  apply list_fmap_ext. intros i y Hy. apply lookup_seq in Hy as [-> Hy].
  apply list_fmap_ext. intros j x Hx. apply lookup_seq in Hx as [-> Hx].
  apply list_fmap_ext. intros k c Hc. apply lookup_seq in Hc as [-> Hc].
  apply Hfg; lia.
Qed.

Global Opaque tabulate.

(** ** The image operations, one by one *)

(** The frames the decoder delivers: 8-bit B, G, R. *)
Definition bgr_frame (a : ndarray) : Prop :=
  well_formed a ∧ (0 < rows a)%nat ∧ (0 < cols a)%nat ∧ channels a = 3%nat ∧ depth a = U8.

Lemma is_empty_false a : (0 < rows a)%nat → (0 < cols a)%nat → is_empty a = false.
Proof.
  intros Hr Hc. unfold is_empty.
  destruct (rows a); [lia|]. destruct (cols a); [lia|]. done.
Qed.

Section Operations.
Context (N : Numerics).

Lemma resize_shape a w h :
  (0 < rows a)%nat → (0 < cols a)%nat → (0 < w)%nat → (0 < h)%nat →
  ∃ f, cv2.resize N a (w, h) = inr (tabulate h w (channels a) (depth a) f).
Proof.
  intros Hr Hc Hw Hh. unfold cv2.resize.
  rewrite is_empty_false by done.
  destruct w as [|w]; [lia|]. destruct h as [|h]; [lia|].
  change (Nat.eqb (S w) 0 || Nat.eqb (S h) 0)%bool with false. cbv iota.
  destruct (_ && _)%bool; eauto.
Qed.

Lemma cvtColor_shape a code :
  (0 < rows a)%nat → (0 < cols a)%nat → channels a = 3%nat →
  ∃ f, cv2.cvtColor N a code = inr (tabulate (rows a) (cols a)
         (match code with cv2.COLOR_BGR2GRAY => 1 | _ => 3 end)%nat (depth a) f).
Proof.
  intros Hr Hc Hch. unfold cv2.cvtColor.
  rewrite is_empty_false, Hch by done. simpl.
  destruct code; eauto.
Qed.

Lemma adaptiveThreshold_shape a type :
  channels a = 1%nat → depth a = U8 →
  ∃ f, cv2.adaptiveThreshold a 255 cv2.ADAPTIVE_THRESH_MEAN_C type 11 2
       = inr (tabulate (rows a) (cols a) 1 U8 f).
Proof.
  intros Hch Hd. unfold cv2.adaptiveThreshold, cv2.is_8UC1.
  rewrite Hch, Hd. simpl. eauto.
Qed.

Lemma Laplacian_shape a d :
  (0 < rows a)%nat → (0 < cols a)%nat →
  cv2.Laplacian a d = inr (tabulate (rows a) (cols a) (channels a) d (cv2.laplacian_px a)).
Proof. intros Hr Hc. unfold cv2.Laplacian. by rewrite is_empty_false. Qed.

Lemma GaussianBlur_shape a :
  (0 < rows a)%nat → (0 < cols a)%nat →
  cv2.GaussianBlur a (5%nat, 5%nat) 0
  = inr (tabulate (rows a) (cols a) (channels a) (depth a) (cv2.gaussian5_px a)).
Proof. intros Hr Hc. unfold cv2.GaussianBlur. by rewrite is_empty_false. Qed.

Lemma equalizeHist_shape a :
  channels a = 1%nat → depth a = U8 →
  ∃ f, cv2.equalizeHist N a = inr (tabulate (rows a) (cols a) 1 U8 f).
Proof.
  intros Hch Hd. unfold cv2.equalizeHist, cv2.is_8UC1.
  rewrite Hch, Hd. simpl.
  destruct (is_empty a); [eauto|].
  destruct (_ =? _); eauto.
Qed.
End Operations.

(** ** The data flow of [process_frame]

    [derived N ts a out]: [out] lists the nine arrays lines 65-89 compute
    from the frame [a], in the order they are created. *)
Inductive derived (N : Numerics) (ts : nat * nat) (a : ndarray) : list ndarray → Prop :=
| derived_intro resized gray hls hsv thresh lap64 lap blur equalized :
    cv2.resize N a ts = inr resized →
    cv2.cvtColor N resized cv2.COLOR_BGR2GRAY = inr gray →
    cv2.cvtColor N resized cv2.COLOR_BGR2HLS = inr hls →
    cv2.cvtColor N resized cv2.COLOR_BGR2HSV = inr hsv →
    cv2.adaptiveThreshold gray 255 cv2.ADAPTIVE_THRESH_MEAN_C cv2.THRESH_BINARY_INV 11 2
      = inr thresh →
    cv2.Laplacian gray F64 = inr lap64 →
    cv2.convertScaleAbs lap64 = inr lap →
    cv2.GaussianBlur gray (5%nat, 5%nat) 0 = inr blur →
    cv2.equalizeHist N gray = inr equalized →
    derived N ts a [resized; gray; hls; hsv; thresh; lap64; lap; blur; equalized].

Lemma derived_functional N ts a out1 out2 :
  derived N ts a out1 → derived N ts a out2 → out1 = out2.
Proof.
  intros H1 H2. destruct H1, H2.
  repeat match goal with
         | H1 : ?x = inr ?u, H2 : ?x = inr ?v |- _ =>
             assert (u = v) by congruence; subst v; clear H2
         end.
  reflexivity.
Qed.

(** An 8-bit array of the target size with [ch] channels. *)
Definition view_of (ch : nat) (img : ndarray) : Prop :=
  cols img = 540%nat ∧ rows img = 380%nat ∧ channels img = ch ∧ depth img = U8 ∧
  well_formed img.

Lemma view_of_tabulate ch f : view_of ch (tabulate 380 540 ch U8 f).
Proof. repeat split; apply tabulate_well_formed. Qed.

(** Every 3-channel frame goes through, and the nine arrays have the
    shapes the pipeline promises. *)
Lemma derived_views N a out :
  bgr_frame a → derived N default_target_size a out →
  ∃ resized gray hls hsv thresh lap64 lap blur equalized,
    out = [resized; gray; hls; hsv; thresh; lap64; lap; blur; equalized] ∧
    view_of 3 resized ∧ view_of 1 gray ∧ view_of 3 hls ∧ view_of 3 hsv ∧
    view_of 1 thresh ∧ view_of 1 lap ∧ view_of 1 blur ∧ view_of 1 equalized.
Proof.
  intros (Hwf & Hr & Hc & Hch & Hd) H. destruct H as [r g hl hv t l64 l b e Hr' Hg Hhl Hhv Ht Hl64 Hl Hb He].
  unfold default_target_size in Hr'.
  destruct (resize_shape N a 540 380) as [fr Er]; [lia..|].
  rewrite Er, Hch, Hd in Hr'. injection Hr' as <-.
  destruct (cvtColor_shape N (tabulate 380 540 3 U8 fr) cv2.COLOR_BGR2GRAY) as [fg Eg];
    [rewrite ?rows_tabulate, ?cols_tabulate; lia..|done|].
  rewrite Eg in Hg. injection Hg as <-.
  destruct (cvtColor_shape N (tabulate 380 540 3 U8 fr) cv2.COLOR_BGR2HLS) as [fhl Ehl];
    [rewrite ?rows_tabulate, ?cols_tabulate; lia..|done|].
  rewrite Ehl in Hhl. injection Hhl as <-.
  destruct (cvtColor_shape N (tabulate 380 540 3 U8 fr) cv2.COLOR_BGR2HSV) as [fhv Ehv];
    [rewrite ?rows_tabulate, ?cols_tabulate; lia..|done|].
  rewrite Ehv in Hhv. injection Hhv as <-.
  rewrite !rows_tabulate, !cols_tabulate, !depth_tabulate in *.
  destruct (adaptiveThreshold_shape (tabulate 380 540 1 U8 fg) cv2.THRESH_BINARY_INV)
    as [ft Et]; [done..|].
  rewrite Et in Ht. injection Ht as <-.
  rewrite Laplacian_shape in Hl64 by (rewrite ?rows_tabulate, ?cols_tabulate; lia).
  injection Hl64 as <-.
  unfold cv2.convertScaleAbs in Hl. injection Hl as <-.
  rewrite GaussianBlur_shape in Hb by (rewrite ?rows_tabulate, ?cols_tabulate; lia).
  injection Hb as <-.
  destruct (equalizeHist_shape N (tabulate 380 540 1 U8 fg)) as [fe Ee]; [done..|].
  rewrite Ee in He. injection He as <-.
  rewrite !rows_tabulate, !cols_tabulate, !channels_tabulate, !depth_tabulate.
  do 9 eexists. split; [reflexivity|].
  repeat split; apply tabulate_well_formed.
Qed.

Lemma derived_total N a :
  bgr_frame a → ∃ out, derived N default_target_size a out.
Proof.
  intros (Hwf & Hr & Hc & Hch & Hd). unfold default_target_size.
  destruct (resize_shape N a 540 380) as [fr Er]; [lia..|].
  rewrite Hch, Hd in Er.
  destruct (cvtColor_shape N (tabulate 380 540 3 U8 fr) cv2.COLOR_BGR2GRAY) as [fg Eg];
    [rewrite ?rows_tabulate, ?cols_tabulate; lia..|done|].
  destruct (cvtColor_shape N (tabulate 380 540 3 U8 fr) cv2.COLOR_BGR2HLS) as [fhl Ehl];
    [rewrite ?rows_tabulate, ?cols_tabulate; lia..|done|].
  destruct (cvtColor_shape N (tabulate 380 540 3 U8 fr) cv2.COLOR_BGR2HSV) as [fhv Ehv];
    [rewrite ?rows_tabulate, ?cols_tabulate; lia..|done|].
  rewrite !rows_tabulate, !cols_tabulate, !depth_tabulate in *.
  destruct (adaptiveThreshold_shape (tabulate 380 540 1 U8 fg) cv2.THRESH_BINARY_INV)
    as [ft Et]; [done..|].
  destruct (equalizeHist_shape N (tabulate 380 540 1 U8 fg)) as [fe Ee]; [done..|].
  eexists. econstructor; try eassumption.
  - apply Laplacian_shape; rewrite ?rows_tabulate, ?cols_tabulate; lia.
  - reflexivity.
  - apply GaussianBlur_shape; rewrite ?rows_tabulate, ?cols_tabulate; lia.
Qed.

(** ** A black frame *)

Lemma sum_window_zero r f : (∀ i, f i = 0) → cv2.sum_window r f = 0.
Proof.
  intros Hf. unfold cv2.sum_window.
  induction (seq 0 (2 * r + 1)) as [|i l IH]; [done|].
  rewrite fmap_cons. cbn [foldr]. rewrite Hf, IH. done.
Qed.

Lemma concat_replicate_singleton {A} n (v : A) :
  concat (replicate n [v]) = replicate n v.
Proof. induction n as [|n IH]; simpl; [done|]. by rewrite IH. Qed.

Lemma concat_replicate_replicate {A} n m (v : A) :
  concat (replicate n (replicate m v)) = replicate (n * m) v.
Proof.
  induction n as [|n IH]; simpl; [done|].
  by rewrite IH, replicate_add.
Qed.

Lemma filter_eq_replicate n (v : Z) :
  filter (λ p, p = v) (replicate n v) = replicate n v.
Proof.
  induction n as [|n IH]; simpl; [done|].
  rewrite filter_cons_True by done. by rewrite IH.
Qed.

(** The pixels of a one-channel array of constant value. *)
Lemma all_pixels_const a v :
  well_formed a → channels a = 1%nat → all_px v a →
  cv2.all_pixels a = replicate (rows a * cols a) v.
Proof.
  intros [Hlen Hrows] Hch Hv.
  assert (data a = replicate (rows a) (replicate (cols a) [v])) as Hdata.
  { symmetry. apply replicate_as_Forall. split; [done|].
    apply Forall_lookup. intros y row Hrow.
    pose proof (proj1 (Forall_lookup _ _) Hrows y row Hrow) as [Hc Hpx].
    apply replicate_as_Forall. split; [done|].
    apply Forall_lookup. intros x p Hp.
    pose proof (proj1 (Forall_lookup _ _) Hpx x p Hp) as Hp1.
    assert (px a y x 0 = v) as Hval.
    { apply Hv.
      - apply lookup_lt_Some in Hrow. by rewrite <- Hlen.
      - apply lookup_lt_Some in Hp. by rewrite <- Hc.
      - rewrite Hch. lia. }
    unfold px in Hval.
    rewrite (nth_lookup_Some _ _ _ row Hrow), (nth_lookup_Some _ _ _ p Hp) in Hval.
    rewrite Hch in Hp1.
    destruct p as [|p0 [|p1 p]]; simpl in *; try discriminate. by subst. }
  unfold cv2.all_pixels. rewrite Hdata, fmap_replicate, concat_replicate_singleton.
  apply concat_replicate_replicate.
Qed.

Section Black.
Context (N : Numerics).

Lemma tap4_zero w : cv2.tap4 w 0 0 0 0 = 0.
Proof. destruct w as [[[w0 w1] w2] w3]. unfold cv2.tap4. lia. Qed.

Lemma resize_black a ts r :
  well_formed a → all_px 0 a → cv2.resize N a ts = inr r → all_px 0 r.
Proof.
  intros Hwf Hz. pose proof (px_zero_everywhere a Hwf Hz) as Hpx.
  unfold cv2.resize. destruct ts as [w h].
  destruct (is_empty a); [done|]. destruct (_ || _)%bool; [done|].
  destruct (_ && _)%bool; intros [= <-]; apply all_px_tabulate; intros y x c _ _ _.
  - apply Hpx.
  - unfold cv2.resize_px. destruct (cubic_taps N (rows a) h y) as [sy wy].
    assert (∀ j, cv2.hresize N a w j x c = 0) as Hh.
    { intros j. unfold cv2.hresize. destruct (cubic_taps N (cols a) w x) as [sx wx].
      unfold cv2.px_at. rewrite !Hpx. apply tap4_zero. }
    rewrite !Hh, tap4_zero. reflexivity.
Qed.

Lemma cvtColor_gray_black a g :
  well_formed a → all_px 0 a → cv2.cvtColor N a cv2.COLOR_BGR2GRAY = inr g → all_px 0 g.
Proof.
  intros Hwf Hz. pose proof (px_zero_everywhere a Hwf Hz) as Hpx.
  unfold cv2.cvtColor. destruct (is_empty a); [done|]. destruct (negb _); [done|].
  intros [= <-]. apply all_px_tabulate. intros y x c _ _ _.
  rewrite !Hpx. reflexivity.
Qed.

(** Inverted mean threshold of a black image: every pixel equals the
    mean of its neighbourhood, which is not "darker than the mean less
    2", so nothing is foreground. *)
Lemma adaptiveThreshold_black g t :
  well_formed g → all_px 0 g →
  cv2.adaptiveThreshold g 255 cv2.ADAPTIVE_THRESH_MEAN_C cv2.THRESH_BINARY_INV 11 2 = inr t →
  all_px 0 t.
Proof.
  intros Hwf Hz. pose proof (px_zero_everywhere g Hwf Hz) as Hpx.
  unfold cv2.adaptiveThreshold. destruct (negb (cv2.is_8UC1 g)); [done|].
  change (negb (Nat.odd 11 && (1 <? 11)%nat)) with false.
  change (255 <? 0) with false. cbv iota.
  intros [= <-]. apply all_px_tabulate. intros y x c _ _ _.
  assert (cv2.box_mean g 11 y x = 0) as ->.
  { unfold cv2.box_mean.
    rewrite sum_window_zero; [reflexivity|]. intros dy.
    apply sum_window_zero. intros dx. apply Hpx. }
  rewrite Hpx. reflexivity.
Qed.

Lemma hist_const a v :
  well_formed a → channels a = 1%nat → all_px v a →
  cv2.hist a v = Z.of_nat (rows a * cols a).
Proof.
  intros Hwf Hch Hv. unfold cv2.hist.
  by rewrite (all_pixels_const a v), filter_eq_replicate, length_replicate.
Qed.

(** Histogram equalization leaves a constant image as it is. *)
Lemma equalizeHist_black g e :
  well_formed g → all_px 0 g → cv2.equalizeHist N g = inr e → all_px 0 e.
Proof.
  intros Hwf Hz. unfold cv2.equalizeHist, cv2.is_8UC1.
  destruct (depth g); [|done].
  destruct (Nat.eqb_spec (channels g) 1) as [Hch|]; [|done]. simpl.
  destruct (is_empty g) eqn:Hemp.
  { intros [= <-]. by apply all_px_tabulate. }
  pose proof (hist_const g 0 Hwf Hch Hz) as Hh.
  assert (Z.of_nat (rows g * cols g) ≠ 0) as Hpos.
  { unfold is_empty in Hemp. destruct (rows g), (cols g); simpl in Hemp; done || lia. }
  assert (cv2.first_bin g = 0) as ->.
  { unfold cv2.first_bin.
    change (seq 0 256) with (0%nat :: seq 1 255). rewrite fmap_cons.
    rewrite filter_cons_True; [done|]. change (Z.of_nat 0) with 0. by rewrite Hh. }
  rewrite Hh, Z.eqb_refl.
  intros [= <-]. by apply all_px_tabulate.
Qed.
End Black.

Lemma derived_black N a out :
  bgr_frame a → all_px 0 a → derived N default_target_size a out →
  ∃ thresh equalized,
    out !! 4%nat = Some thresh ∧ out !! 8%nat = Some equalized ∧
    all_px 0 thresh ∧ all_px 0 equalized.
Proof.
  intros Ha Hz H.
  destruct (derived_views N a out Ha H)
    as (r & g & hl & hv & t & l64 & l & b & e & -> & Vr & Vg & _ & _ & Vt & _ & _ & Ve).
  inversion H; subst.
  assert (all_px 0 r) as Hr by (eapply resize_black; [apply Ha|done..]).
  assert (all_px 0 g) as Hg by (eapply cvtColor_gray_black; [apply Vr|done..]).
  exists t, e. repeat split.
  - eapply adaptiveThreshold_black; [apply Vg|done..].
  - eapply equalizeHist_black; [apply Vg|done..].
Qed.

(** ** Running [process_frame] *)

(** The state after some arrays were created and some events recorded. *)
Definition grow (out : list ndarray) (evs : list event) (s : State) : State :=
  with_trace (λ t, t ++ evs) (with_heap (λ h, h ++ out) s).

(** The nine calls of lines 65-89 on the frame [frame], when the next
    free reference is [base]. *)
Definition cv2_events (frame base : ref) : list event := [
  Cv2Call "resize" frame (base + 0);
  Cv2Call "cvtColor" (base + 0) (base + 1);
  Cv2Call "cvtColor" (base + 0) (base + 2);
  Cv2Call "cvtColor" (base + 0) (base + 3);
  Cv2Call "adaptiveThreshold" (base + 1) (base + 4);
  Cv2Call "Laplacian" (base + 1) (base + 5);
  Cv2Call "convertScaleAbs" (base + 5) (base + 6);
  Cv2Call "GaussianBlur" (base + 1) (base + 7);
  Cv2Call "equalizeHist" (base + 1) (base + 8)
]%nat.

(** The dict of lines 91-100. *)
Definition dict_at (base : ref) : gmap string ref :=
  list_to_map [
    ("original", base + 0);
    ("gray", base + 1);
    ("hls", base + 2);
    ("hsv", base + 3);
    ("thresh", base + 4);
    ("laplacian", base + 6);
    ("blur", base + 7);
    ("equalized", base + 8)
  ]%nat.

Lemma grow_nil s : grow [] [] s = s.
Proof. destruct s. unfold grow, with_trace, with_heap. simpl. by rewrite !app_nil_r. Qed.

Lemma heap_grow out evs s : heap (grow out evs s) = heap s ++ out.
Proof. reflexivity. Qed.
Lemma trace_grow out evs s : trace (grow out evs s) = trace s ++ evs.
Proof. reflexivity. Qed.
Lemma captures_grow out evs s : captures (grow out evs s) = captures s.
Proof. reflexivity. Qed.
Lemma writers_grow out evs s : writers (grow out evs s) = writers s.
Proof. reflexivity. Qed.
Lemma windows_grow out evs s : windows (grow out evs s) = windows s.
Proof. reflexivity. Qed.
Lemma frame_count_grow out evs s : frame_count (grow out evs s) = frame_count s.
Proof. reflexivity. Qed.

Lemma lookup_grown (h out : list ndarray) i :
  (h ++ out) !! (length h + i)%nat = out !! i.
Proof. rewrite lookup_app_r by lia. f_equal. lia. Qed.

Lemma lookup_kept (h out : list ndarray) i a :
  h !! i = Some a → (h ++ out) !! i = Some a.
Proof. apply lookup_app_l_Some. Qed.

(** One OpenCV call in a grown state. *)
Lemma bind_cv2_call {B} name f src (k : ref → M B) out evs s :
  bind (cv2_call name f src) k (grow out evs s) =
  match (heap s ++ out) !! src with
  | None => (inl (Cv2Error "not an array"), grow out evs s)
  | Some a =>
      match f a with
      | inl e => (inl e, grow out evs s)
      | inr b =>
          k (length (heap s) + length out)%nat
            (grow (out ++ [b])
               (evs ++ [Cv2Call name src (length (heap s) + length out)%nat]) s)
      end
  end.
Proof.
  cbv [cv2_call mbind M_bind bind load alloc emit modify gets lift raise ret].
  rewrite heap_grow. destruct ((heap s ++ out) !! src) as [a|]; [|done].
  destruct (f a) as [e|b]; [done|]. rewrite heap_grow.
  f_equal.
  - by rewrite length_app.
  - destruct s. unfold grow, with_trace, with_heap. simpl.
    by rewrite length_app, <- !app_assoc.
Qed.

Ltac fails_here :=
  do 3 eexists; split; [reflexivity|]; split; [reflexivity|]; discriminate.

Ltac next_call :=
  rewrite bind_cv2_call; cbn [length app];
  rewrite ?lookup_grown; cbn [lookup list_lookup];
  lazymatch goal with
  | |- context [match ?f ?a with inl _ => _ | inr _ => _ end] =>
      let Hf := fresh "Hf" in
      destruct (f a) eqn:Hf; [fails_here|]
  end.

Ltac same_call H :=
  rewrite bind_cv2_call; cbn [length app];
  rewrite ?lookup_grown; cbn [lookup list_lookup]; rewrite H.

Lemma process_frame_run N frame ts s :
  match process_frame N frame ts s with
  | (inr d, s') =>
      ∃ a out, heap s !! frame = Some a ∧ derived N ts a out ∧
               d = dict_at (length (heap s)) ∧
               s' = grow out (cv2_events frame (length (heap s))) s
  | (inl e, s') =>
      ∃ out evs rest, s' = grow out evs s ∧
                      cv2_events frame (length (heap s)) = evs ++ rest ∧ rest ≠ []
  end.
Proof.
  replace (process_frame N frame ts s) with (process_frame N frame ts (grow [] [] s))
    by (by rewrite grow_nil).
  unfold process_frame, mbind, M_bind.
  rewrite bind_cv2_call. cbn [length app]. rewrite app_nil_r.
  destruct (heap s !! frame) as [a|] eqn:Ha; [|fails_here].
  destruct (cv2.resize N a ts) as [|resized] eqn:Hresize; [fails_here|].
  do 8 next_call.
  unfold ret. do 2 eexists. split; [reflexivity|]. split; [|split; reflexivity].
  by constructor.
Qed.

Lemma process_frame_ok N frame ts s a out :
  heap s !! frame = Some a → derived N ts a out →
  process_frame N frame ts s
  = (inr (dict_at (length (heap s))), grow out (cv2_events frame (length (heap s))) s).
Proof.
  intros Ha Hout.
  destruct Hout as [r g hl hv t l64 l b e Hr Hg Hhl Hhv Ht Hl64 Hl Hb He].
  replace (process_frame N frame ts s) with (process_frame N frame ts (grow [] [] s))
    by (by rewrite grow_nil).
  unfold process_frame, mbind, M_bind.
  rewrite bind_cv2_call. cbn [length app]. rewrite app_nil_r, Ha, Hr.
  same_call Hg. same_call Hhl. same_call Hhv. same_call Ht. same_call Hl64.
  same_call Hl. same_call Hb. same_call He.
  reflexivity.
Qed.

(** ** Concrete inputs for the closed statements *)

(** One value of the library tables: nearest-sample taps, grey-level
    colour conversions, a block per character.  Every theorem below is
    proved for all values of the tables; this one only closes examples. *)
Definition sample_numerics : Numerics := {|
  cubic_taps := λ src dst d, (Z.of_nat (d * src / dst), (0, 2048, 0, 0));
  bgr2hls_px := λ b g r, (0, (Z.max b (Z.max g r) + Z.min b (Z.min g r) + 1) `div` 2, 0);
  bgr2hsv_px := λ b g r, (0, 0, Z.max b (Z.max g r));
  equalize_scaled := λ sum denom, (2 * 255 * sum + denom) `div` (2 * denom);
  text_covers := λ text org scale thickness y x,
    ((org.1 <=? x)%nat && (x <? org.1 + 20 * String.length text)%nat &&
     (org.2 - 22 <=? y)%nat && (y <=? org.2)%nat)%bool;
  float_str := λ _, "0.0";
  float_2f := λ _, "0.00"
|}.

(** A 2 x 2 colour frame, a black one and a single-channel one. *)
Definition colour_2x2 : ndarray :=
  {| rows := 2; cols := 2; channels := 3; depth := U8;
     data := [[[10; 20; 30]; [40; 50; 60]]; [[70; 80; 90]; [250; 128; 0]]] |}.

Definition black_2x2 : ndarray :=
  {| rows := 2; cols := 2; channels := 3; depth := U8;
     data := [[[0; 0; 0]; [0; 0; 0]]; [[0; 0; 0]; [0; 0; 0]]] |}.

Definition grey_2x2 : ndarray :=
  {| rows := 2; cols := 2; channels := 1; depth := U8;
     data := [[[10]; [40]]; [[70]; [250]]] |}.

(** A state that holds the given arrays and nothing else. *)
Definition state_of (arrays : list ndarray) : State :=
  with_heap (λ _, arrays) initial_state.

Lemma colour_2x2_bgr : bgr_frame colour_2x2.
Proof. unfold bgr_frame, well_formed. simpl. repeat constructor. Qed.

Lemma black_2x2_bgr : bgr_frame black_2x2.
Proof. unfold bgr_frame, well_formed. simpl. repeat constructor. Qed.

Lemma black_2x2_black : all_px 0 black_2x2.
Proof.
  intros y x c Hy Hx Hc. simpl in *.
  destruct y as [|[|y]], x as [|[|x]], c as [|[|[|c]]]; done || lia.
Qed.

(** ** The eight views *)

(** The keys of the dict, in the order of lines 92-99. *)
Definition output_names : list string :=
  ["original"; "gray"; "hls"; "hsv"; "thresh"; "laplacian"; "blur"; "equalized"].

(** Channels of a view: colour for the resized frame and the two colour
    spaces, one channel for what is derived from [gray]. *)
Definition view_channels (k : string) : nat :=
  if bool_decide (k ∈ ["original"; "hls"; "hsv"]) then 3%nat else 1%nat.

Lemma dom_dict_at base : dom (dict_at base) = list_to_set output_names.
Proof. reflexivity. Qed.

Lemma size_dict_at base : size (dict_at base) = 8%nat.
Proof. reflexivity. Qed.

Lemma output_names_cases (P : string → Prop) :
  P "original" → P "gray" → P "hls" → P "hsv" → P "thresh" → P "laplacian" →
  P "blur" → P "equalized" →
  ∀ k, k ∈ output_names → P k.
Proof.
  intros ? ? ? ? ? ? ? ? k Hk. unfold output_names in Hk.
  repeat (apply elem_of_cons in Hk as [->|Hk]; [assumption|]).
  by apply elem_of_nil in Hk.
Qed.

Lemma dict_at_original b : dict_at b !! "original" = Some (b + 0)%nat.
Proof. reflexivity. Qed.
Lemma dict_at_gray b : dict_at b !! "gray" = Some (b + 1)%nat.
Proof. reflexivity. Qed.
Lemma dict_at_hls b : dict_at b !! "hls" = Some (b + 2)%nat.
Proof. reflexivity. Qed.
Lemma dict_at_hsv b : dict_at b !! "hsv" = Some (b + 3)%nat.
Proof. reflexivity. Qed.
Lemma dict_at_thresh b : dict_at b !! "thresh" = Some (b + 4)%nat.
Proof. reflexivity. Qed.
Lemma dict_at_laplacian b : dict_at b !! "laplacian" = Some (b + 6)%nat.
Proof. reflexivity. Qed.
Lemma dict_at_blur b : dict_at b !! "blur" = Some (b + 7)%nat.
Proof. reflexivity. Qed.
Lemma dict_at_equalized b : dict_at b !! "equalized" = Some (b + 8)%nat.
Proof. reflexivity. Qed.

Ltac dict_lookups H :=
  rewrite ?dict_at_original, ?dict_at_gray, ?dict_at_hls, ?dict_at_hsv, ?dict_at_thresh,
    ?dict_at_laplacian, ?dict_at_blur, ?dict_at_equalized in H.

Lemma dict_at_index b b' k i i' :
  k ∈ output_names →
  dict_at b !! k = Some (b + i)%nat → dict_at b' !! k = Some (b' + i')%nat → i = i'.
Proof.
  intros Hk. revert k Hk i i'.
  apply (output_names_cases (λ k, ∀ i i',
    dict_at b !! k = Some (b + i)%nat → dict_at b' !! k = Some (b' + i')%nat → i = i'));
    intros i i' H1 H2; dict_lookups H1; dict_lookups H2;
    injection H1; injection H2; lia.
Qed.

Lemma dict_at_other b k i :
  k ∈ output_names → k ≠ "original" →
  dict_at b !! k = Some (b + i)%nat → (b + i)%nat ≠ (b + 0)%nat.
Proof.
  intros Hk. revert k Hk.
  apply (output_names_cases (λ k, k ≠ "original" →
    dict_at b !! k = Some (b + i)%nat → (b + i)%nat ≠ (b + 0)%nat));
    intros Hne H1; try done; dict_lookups H1; injection H1; lia.
Qed.

(** What [process_frame] leaves behind for a frame of the decoder. *)
Lemma process_frame_views N s frame a :
  heap s !! frame = Some a → bgr_frame a →
  ∃ out,
    derived N default_target_size a out ∧
    process_frame N frame default_target_size s
    = (inr (dict_at (length (heap s))),
       grow out (cv2_events frame (length (heap s))) s) ∧
    ∀ k, k ∈ output_names →
      ∃ r i img, dict_at (length (heap s)) !! k = Some r ∧
                 r = (length (heap s) + i)%nat ∧ out !! i = Some img ∧
                 view_of (view_channels k) img.
Proof.
  intros Ha Hbgr. destruct (derived_total N a Hbgr) as [out Hout].
  exists out. split; [done|]. split; [by apply (process_frame_ok N frame _ s a)|].
  destruct (derived_views N a out Hbgr Hout)
    as (r & g & hl & hv & t & l64 & l & b & e & -> & Vr & Vg & Vhl & Vhv & Vt & Vl & Vb & Ve).
  apply output_names_cases.
  - exists (length (heap s) + 0)%nat, 0%nat, r. done.
  - exists (length (heap s) + 1)%nat, 1%nat, g. done.
  - exists (length (heap s) + 2)%nat, 2%nat, hl. done.
  - exists (length (heap s) + 3)%nat, 3%nat, hv. done.
  - exists (length (heap s) + 4)%nat, 4%nat, t. done.
  - exists (length (heap s) + 6)%nat, 6%nat, l. done.
  - exists (length (heap s) + 7)%nat, 7%nat, b. done.
  - exists (length (heap s) + 8)%nat, 8%nat, e. done.
Qed.

(** C1.  For every 3-channel frame of the decoder [process_frame]
    returns a dict with exactly the eight keys 'original', 'gray', 'hls',
    'hsv', 'thresh', 'laplacian', 'blur', 'equalized'; each entry is an
    8-bit array 540 wide and 380 high, with three channels for
    'original', 'hls', 'hsv' and one for the rest.  A second call on the
    same frame returns arrays with the same contents, the arrays of the
    first call are still what they were, and a call changes nothing that
    existed before it: it only adds arrays to the store. *)
Theorem process_frame_eight_views N s frame a :
  heap s !! frame = Some a → bgr_frame a →
  ∃ d s1 d' s2,
    process_frame N frame default_target_size s = (inr d, s1) ∧
    process_frame N frame default_target_size s1 = (inr d', s2) ∧
    dom d = list_to_set output_names ∧ size d = 8%nat ∧ dom d' = dom d ∧
    (∀ k, k ∈ output_names →
       ∃ r r' img,
         d !! k = Some r ∧ d' !! k = Some r' ∧
         heap s1 !! r = Some img ∧ heap s2 !! r = Some img ∧ heap s2 !! r' = Some img ∧
         view_of (view_channels k) img) ∧
    heap s `prefix_of` heap s1 ∧ heap s1 `prefix_of` heap s2 ∧
    captures s1 = captures s ∧ writers s1 = writers s ∧
    windows s1 = windows s ∧ frame_count s1 = frame_count s.
Proof.
  intros Ha Hbgr.
  destruct (process_frame_views N s frame a Ha Hbgr) as (out & Hout & Hrun & Hviews).
  set (s1 := grow out (cv2_events frame (length (heap s))) s) in *.
  assert (heap s1 !! frame = Some a) as Ha1
    by (unfold s1; rewrite heap_grow; by apply lookup_kept).
  destruct (process_frame_views N s1 frame a Ha1 Hbgr) as (out' & Hout' & Hrun' & Hviews').
  assert (out' = out) as -> by (by eapply derived_functional).
  do 4 eexists. split; [exact Hrun|]. split; [exact Hrun'|].
  split; [apply dom_dict_at|]. split; [apply size_dict_at|].
  split; [by rewrite !dom_dict_at|].
  split; [|repeat split; try done; by eexists].
  intros k Hk.
  destruct (Hviews k Hk) as (r & i & img & Hr & -> & Hi & Hview).
  destruct (Hviews' k Hk) as (r' & i' & img' & Hr' & -> & Hi' & Hview').
  assert (i' = i) as ->.
  { by eapply (dict_at_index _ _ k). }
  assert (img' = img) as -> by congruence.
  exists (length (heap s) + i)%nat, (length (heap s1) + i)%nat, img.
  split; [done|]. split; [done|].
  assert (heap s1 !! (length (heap s) + i)%nat = Some img) as H1
    by (unfold s1; by rewrite heap_grow, lookup_grown).
  split; [done|]. rewrite heap_grow. split; [by apply lookup_kept|].
  split; [by rewrite lookup_grown|done].
Qed.

Lemma process_frame_eight_views_witness :
  ∃ d s1 d' s2,
    process_frame sample_numerics 0%nat default_target_size (state_of [colour_2x2]) = (inr d, s1) ∧
    process_frame sample_numerics 0%nat default_target_size s1 = (inr d', s2) ∧
    dom d = list_to_set output_names ∧ size d = 8%nat ∧ dom d' = dom d ∧
    (∀ k, k ∈ output_names →
       ∃ r r' img,
         d !! k = Some r ∧ d' !! k = Some r' ∧
         heap s1 !! r = Some img ∧ heap s2 !! r = Some img ∧ heap s2 !! r' = Some img ∧
         view_of (view_channels k) img) ∧
    heap (state_of [colour_2x2]) `prefix_of` heap s1 ∧ heap s1 `prefix_of` heap s2 ∧
    captures s1 = captures (state_of [colour_2x2]) ∧
    writers s1 = writers (state_of [colour_2x2]) ∧
    windows s1 = windows (state_of [colour_2x2]) ∧
    frame_count s1 = frame_count (state_of [colour_2x2]).
Proof.
  apply (process_frame_eight_views sample_numerics (state_of [colour_2x2]) 0%nat colour_2x2).
  - reflexivity.
  - unfold bgr_frame, well_formed. simpl. repeat constructor.
Defined.

(** ** A black frame through the pipeline *)

Lemma black_frame_views N s frame a :
  heap s !! frame = Some a → bgr_frame a → all_px 0 a →
  ∃ d s' rt re thresh equalized,
    process_frame N frame default_target_size s = (inr d, s') ∧
    d !! "thresh" = Some rt ∧ heap s' !! rt = Some thresh ∧
    d !! "equalized" = Some re ∧ heap s' !! re = Some equalized ∧
    view_of 1 thresh ∧ view_of 1 equalized ∧
    all_px 0 thresh ∧ all_px 0 equalized.
Proof.
  intros Ha Hbgr Hz.
  destruct (process_frame_views N s frame a Ha Hbgr) as (out & Hout & Hrun & _).
  destruct (derived_black N a out Hbgr Hz Hout) as (t & e & Ht & He & Hzt & Hze).
  destruct (derived_views N a out Hbgr Hout)
    as (r' & g' & hl' & hv' & t' & l64' & l' & b' & e' & -> & _ & _ & _ & _ & Vt & _ & _ & Ve).
  injection Ht as <-. injection He as <-.
  exists (dict_at (length (heap s))), (grow [r'; g'; hl'; hv'; t'; l64'; l'; b'; e']
            (cv2_events frame (length (heap s))) s),
         (length (heap s) + 4)%nat, (length (heap s) + 8)%nat, t', e'.
  split; [done|]. split; [reflexivity|]. split; [by rewrite heap_grow, lookup_grown|].
  split; [reflexivity|]. split; [by rewrite heap_grow, lookup_grown|done].
Qed.

(** C3 (amended).  For an all-black 3-channel frame the 'thresh' output
    is all 0 (inverted threshold: a pixel is foreground only when it is
    at least 2 below the mean of its neighbourhood, and no pixel of a
    uniform image is), and the 'equalized' output is all 0, the
    constant image unchanged. *)
Theorem black_frame_thresh_and_equalized N s frame a :
  heap s !! frame = Some a → bgr_frame a → all_px 0 a →
  ∃ d s' rt re thresh equalized,
    process_frame N frame default_target_size s = (inr d, s') ∧
    d !! "thresh" = Some rt ∧ heap s' !! rt = Some thresh ∧
    d !! "equalized" = Some re ∧ heap s' !! re = Some equalized ∧
    view_of 1 thresh ∧ view_of 1 equalized ∧
    all_px 0 thresh ∧ all_px 0 equalized.
Proof. apply black_frame_views. Qed.

Lemma black_frame_thresh_and_equalized_witness :
  ∃ d s' rt re thresh equalized,
    process_frame sample_numerics 0%nat default_target_size (state_of [black_2x2])
    = (inr d, s') ∧
    d !! "thresh" = Some rt ∧ heap s' !! rt = Some thresh ∧
    d !! "equalized" = Some re ∧ heap s' !! re = Some equalized ∧
    view_of 1 thresh ∧ view_of 1 equalized ∧
    all_px 0 thresh ∧ all_px 0 equalized.
Proof.
  apply (black_frame_thresh_and_equalized sample_numerics (state_of [black_2x2]) 0%nat
           black_2x2).
  - reflexivity.
  - unfold bgr_frame, well_formed. simpl. repeat constructor.
  - intros y x c Hy Hx Hc. simpl in *.
    destruct y as [|[|y]], x as [|[|x]], c as [|[|[|c]]]; reflexivity || lia.
Defined.

(** C3 as stated fails: the 'thresh' output of the black 2 x 2 frame is
    0 at its first pixel, so it is not all 255. *)
Lemma black_frame_thresh_not_white :
  ∃ d s' rt thresh,
    process_frame sample_numerics 0%nat default_target_size (state_of [black_2x2])
    = (inr d, s') ∧
    d !! "thresh" = Some rt ∧ heap s' !! rt = Some thresh ∧
    px thresh 0 0 0 = 0 ∧ ¬ all_px 255 thresh.
Proof.
  destruct (black_frame_views sample_numerics (state_of [black_2x2]) 0%nat black_2x2
              eq_refl black_2x2_bgr black_2x2_black)
    as (d & s' & rt & re & t & e & Hrun & Hrt & Ht & _ & _ & Vt & _ & Hzt & _).
  destruct Vt as (Hc & Hr & Hch & _).
  assert (px t 0 0 0 = 0) as H0 by (apply Hzt; lia).
  exists d, s', rt, t.
  split; [exact Hrun|]. split; [exact Hrt|]. split; [exact Ht|]. split; [exact H0|].
  intros Hw. specialize (Hw 0%nat 0%nat 0%nat). rewrite H0 in Hw.
  assert (0 = 255) as Habs by (apply Hw; lia). discriminate Habs.
Qed.

(** ** A single-channel frame *)

Lemma one_channel_rejected N s frame a :
  heap s !! frame = Some a → (0 < rows a)%nat → (0 < cols a)%nat → channels a = 1%nat →
  ∃ resized,
    cv2.resize N a default_target_size = inr resized ∧
    process_frame N frame default_target_size s
    = (inl (Cv2Error "cvtColor: Invalid number of channels in input image"),
       grow [resized] [Cv2Call "resize" frame (length (heap s) + 0)%nat] s).
Proof.
  intros Ha Hr Hc Hch. unfold default_target_size.
  destruct (resize_shape N a 540 380) as [f Ef]; [lia..|].
  rewrite Hch in Ef. eexists. split; [exact Ef|].
  replace (process_frame N frame (540%nat, 380%nat) s)
    with (process_frame N frame (540%nat, 380%nat) (grow [] [] s))
    by (by rewrite grow_nil).
  unfold process_frame, mbind, M_bind.
  rewrite bind_cv2_call. cbn [length app]. rewrite app_nil_r, Ha, Ef.
  rewrite bind_cv2_call. cbn [length app]. rewrite lookup_grown. cbn [lookup list_lookup].
  unfold cv2.cvtColor.
  rewrite is_empty_false by (rewrite ?rows_tabulate, ?cols_tabulate; lia).
  rewrite channels_tabulate. reflexivity.
Qed.

(** C5 (amended).  For every frame with a single channel
    [process_frame] resizes it and then raises: the grayscale conversion
    rejects an image that does not have 3 or 4 channels.  No dict is
    returned; the only array created is the resized frame. *)
Theorem process_frame_rejects_one_channel N s frame a :
  heap s !! frame = Some a → (0 < rows a)%nat → (0 < cols a)%nat → channels a = 1%nat →
  ∃ s',
    process_frame N frame default_target_size s
    = (inl (Cv2Error "cvtColor: Invalid number of channels in input image"), s') ∧
    length (heap s') = S (length (heap s)) ∧
    trace s' = trace s ++ [Cv2Call "resize" frame (length (heap s))].
Proof.
  intros Ha Hr Hc Hch.
  destruct (one_channel_rejected N s frame a Ha Hr Hc Hch) as (r & _ & ->).
  eexists. split; [reflexivity|].
  rewrite heap_grow, trace_grow, length_app, Nat.add_0_r. simpl. split; [lia|done].
Qed.

Lemma process_frame_rejects_one_channel_witness :
  ∃ s',
    process_frame sample_numerics 0%nat default_target_size (state_of [grey_2x2])
    = (inl (Cv2Error "cvtColor: Invalid number of channels in input image"), s') ∧
    length (heap s') = S (length (heap (state_of [grey_2x2]))) ∧
    trace s' = trace (state_of [grey_2x2])
               ++ [Cv2Call "resize" 0%nat (length (heap (state_of [grey_2x2])))].
Proof.
  apply (process_frame_rejects_one_channel sample_numerics (state_of [grey_2x2]) 0%nat
           grey_2x2).
  - reflexivity.
  - simpl. lia.
  - simpl. lia.
  - reflexivity.
Defined.

(** C5 as stated fails: on the single-channel 2 x 2 frame the pipeline
    does not succeed, it raises, and there is no 'gray' output. *)
Lemma one_channel_frame_raises :
  (∃ e s', process_frame sample_numerics 0%nat default_target_size (state_of [grey_2x2])
           = (inl e, s')) ∧
  ¬ ∃ d s', process_frame sample_numerics 0%nat default_target_size (state_of [grey_2x2])
            = (inr d, s').
Proof.
  destruct (one_channel_rejected sample_numerics (state_of [grey_2x2]) 0%nat grey_2x2)
    as (r & _ & Hrun); [reflexivity|simpl; lia|simpl; lia|reflexivity|].
  split; [do 2 eexists; exact Hrun|].
  intros (d & s' & Hd). rewrite Hrun in Hd. discriminate Hd.
Qed.

(** ** Annotation *)

(** [cv2.putText] writes to the array it is given and to no other. *)
Lemma cv2_putText_other E N img text org fs col th s r :
  r ≠ img →
  heap (cv2_putText E N img text org fs col th s).2 !! r = heap s !! r.
Proof.
  intros Hne.
  cbv [cv2_putText may_raise mbind M_bind bind gets raise ret load store modify emit].
  destruct (fault E (frame_count s) (AtPutText org)); [done|].
  destruct (heap s !! img); [|done].
  simpl. by apply list_lookup_insert_ne.
Qed.

Lemma annotate_other E N base n total fps org fs col th s r :
  r ≠ (base + 0)%nat →
  heap (annotate E N (dict_at base) n total fps org fs col th s).2 !! r = heap s !! r.
Proof.
  intros Hne. unfold annotate, getitem.
  change (dict_at base !! "original") with (Some (base + 0)%nat).
  cbv [mbind M_bind bind ret].
  pose proof (cv2_putText_other E N (base + 0)%nat
    ("Frame: " +:+ pretty n +:+ "/" +:+ pretty total) org fs col th s r Hne) as H1.
  destruct (cv2_putText E N (base + 0)%nat _ org fs col th s) as [[e|[]] s1]; [done|].
  simpl in H1. etrans; [|exact H1].
  by apply cv2_putText_other.
Qed.

(** C6.  The overlays of lines 163-180 are drawn into the array behind
    [processed['original']] only: whatever the texts, and whether or not
    a [putText] call raises, each of the seven other entries of the dict
    (and the decoded frame itself) holds after the annotation exactly
    what it held before. *)
Theorem annotate_leaves_other_views E N s frame a n total fps org fs col th :
  heap s !! frame = Some a → bgr_frame a →
  ∃ d s1,
    process_frame N frame default_target_size s = (inr d, s1) ∧
    (∀ k r, k ∈ output_names → k ≠ "original" → d !! k = Some r →
       is_Some (heap s1 !! r) ∧
       heap (annotate E N d n total fps org fs col th s1).2 !! r = heap s1 !! r) ∧
    heap (annotate E N d n total fps org fs col th s1).2 !! frame = Some a.
Proof.
  intros Ha Hbgr.
  destruct (process_frame_views N s frame a Ha Hbgr) as (out & Hout & Hrun & Hviews).
  do 2 eexists. split; [exact Hrun|]. split.
  - intros k r Hk Hne Hr.
    destruct (Hviews k Hk) as (r' & i & img & Hr' & -> & Hi & _).
    assert (Some r = Some (length (heap s) + i)%nat) as [= ->]
      by (etrans; [symmetry; exact Hr|exact Hr']).
    split; [rewrite heap_grow, lookup_grown; by eexists|].
    apply annotate_other.
    by apply (dict_at_other _ k).
  - rewrite annotate_other.
    + rewrite heap_grow. by apply lookup_kept.
    + apply lookup_lt_Some in Ha. lia.
Qed.

Lemma annotate_leaves_other_views_witness :
  ∃ d s1,
    process_frame sample_numerics 0%nat default_target_size (state_of [colour_2x2])
    = (inr d, s1) ∧
    (∀ k r, k ∈ output_names → k ≠ "original" → d !! k = Some r →
       is_Some (heap s1 !! r) ∧
       heap (annotate (Build_Env (λ _, true) (λ _, None) (λ _, 0%float) (λ _, -1) (λ _ _, None))
               sample_numerics d 1 1 (PyInt 0) (50%nat, 50%nat) 1 [0; 255; 0] 2 s1).2 !! r
       = heap s1 !! r) ∧
    heap (annotate (Build_Env (λ _, true) (λ _, None) (λ _, 0%float) (λ _, -1) (λ _ _, None))
            sample_numerics d 1 1 (PyInt 0) (50%nat, 50%nat) 1 [0; 255; 0] 2 s1).2 !! 0%nat
    = Some colour_2x2.
Proof.
  apply (annotate_leaves_other_views _ sample_numerics (state_of [colour_2x2]) 0%nat
           colour_2x2).
  - reflexivity.
  - unfold bgr_frame, well_formed. simpl. repeat constructor.
Defined.

(** ** The frame rate of line 160 *)

Lemma Prim2SF_zero : Prim2SF 0%float = S754_zero false.
Proof. reflexivity. Qed.

(** A float above zero is not zero, and a zero is not above zero. *)
Lemma ltb_zero_eqb_zero e :
  (0 <? e)%float = true → (e =? 0)%float = false.
Proof.
  rewrite FloatAxioms.ltb_spec, FloatAxioms.eqb_spec, Prim2SF_zero.
  destruct (Prim2SF e) as [[]|[]| |[] m x]; simpl; done.
Qed.


(** The integer a float equals, when it equals one: [int(f)] where
    [f.is_integer()]. *)
Definition float_as_int (f : float) : option Z :=
  match Prim2SF f with
  | S754_zero _ => Some 0
  | S754_finite s m e =>
      if 0 <=? e then Some ((if s then Z.neg m else Z.pos m) * 2 ^ e)
      else if Z.pos m `mod` 2 ^ (- e) =? 0
           then Some ((if s then Z.neg m else Z.pos m) `div` 2 ^ (- e))
           else None
  | _ => None
  end.

Lemma digits2_size p : digits2_pos p = Pos.size p.
Proof. induction p; simpl; congruence. Qed.

Lemma digits2_small p : Z.pos p < 2 ^ 53 → Z.pos (digits2_pos p) ≤ 53.
Proof.
  intros Hp. rewrite digits2_size.
  pose proof (Pos.size_le p) as Hle.
  apply Pos2Z.pos_le_pos in Hle. rewrite Pos2Z.inj_pow in Hle.
  change (Z.pos p~0) with (2 * Z.pos p) in Hle.
  assert (2 ^ Z.pos (Pos.size p) < 2 ^ 54) as Hlt.
  { change (2 ^ 54) with (2 * 2 ^ 53). lia. }
  apply Z.pow_lt_mono_r_iff in Hlt; lia.
Qed.

Lemma iter_xO_value p k : Z.pos (Pos.iter xO p k) = Z.pos p * 2 ^ Z.pos k.
Proof.
  induction k as [|k IH] using Pos.peano_ind.
  - simpl. lia.
  - rewrite Pos.iter_succ, Pos2Z.inj_succ, Z.pow_succ_r by lia.
    change (Z.pos (Pos.iter xO p k)~0) with (2 * Z.pos (Pos.iter xO p k)). lia.
Qed.

Lemma iter_xO_digits p k :
  Z.pos (digits2_pos (Pos.iter xO p k)) = Z.pos (digits2_pos p) + Z.pos k.
Proof.
  induction k as [|k IH] using Pos.peano_ind.
  - simpl. lia.
  - rewrite Pos.iter_succ. cbn [digits2_pos]. lia.
Qed.

(** A mantissa of 53 digits with an exponent in range goes through the
    rounding unchanged. *)
Lemma binary_round_aux_exact sx m e :
  Z.pos (digits2_pos m) = 53 → -1074 ≤ e ≤ 971 →
  binary_round_aux prec emax sx (Z.pos m) e loc_Exact = S754_finite sx m e.
Proof.
  intros Hd He.
  assert (fexp prec emax (Z.pos (digits2_pos m) + e) - e = 0) as Hf.
  { unfold fexp, emin, prec, emax. lia. }
  unfold binary_round_aux, shr_fexp. cbn [Zdigits2 shr_record_of_loc].
  rewrite Hf. cbn [shr shr_m loc_of_shr_record round_nearest_even Zdigits2 shr_record_of_loc].
  rewrite Hf. cbn [shr shr_m].
  destruct (Z.leb_spec e (emax - prec)) as [|Hgt]; [done|].
  unfold emax, prec in Hgt. lia.
Qed.

(** An int below 2^53 is a double: the rounding shifts it to 53 digits
    and loses nothing. *)
Lemma binary_round_exact sx p :
  Z.pos p < 2 ^ 53 →
  ∃ m e, binary_round prec emax sx p 0 = S754_finite sx m e ∧
         -52 ≤ e ≤ 0 ∧ Z.pos m = Z.pos p * 2 ^ (- e) ∧
         Z.pos (digits2_pos m) = 53.
Proof.
  intros Hp. apply digits2_small in Hp.
  assert (fexp prec emax (Z.pos (digits2_pos p) + 0) = Z.pos (digits2_pos p) - 53) as Hf.
  { unfold fexp, emin, prec, emax. lia. }
  unfold binary_round. rewrite Hf. unfold shl_align.
  destruct (Z.pos (digits2_pos p) - 53 - 0) as [|k|k] eqn:Hk.
  - exists p, 0. rewrite binary_round_aux_exact by lia.
    repeat split; lia.
  - lia.
  - exists (Pos.iter xO p k), (Z.pos (digits2_pos p) - 53).
    rewrite binary_round_aux_exact by (rewrite ?iter_xO_digits; lia).
    split; [done|]. split; [lia|]. split.
    + rewrite iter_xO_value. f_equal. f_equal. lia.
    + rewrite iter_xO_digits. lia.
Qed.

Lemma int_to_float_exact n :
  - 2 ^ 53 < n < 2 ^ 53 →
  ∃ f, int_to_float n = inr f ∧ float_as_int f = Some n.
Proof.
  intros Hn. unfold int_to_float.
  destruct n as [|p|p]; cbn [binary_normalize].
  - exists 0%float. split; reflexivity.
  - destruct (binary_round_exact false p) as (m & e & -> & He & Hm & Hd); [lia|].
    eexists. split; [reflexivity|].
    unfold float_as_int. rewrite Prim2SF_SF2Prim.
    2:{ unfold valid_binary, bounded, canonical_mantissa, fexp, emin, prec, emax.
        rewrite Hd. apply andb_true_intro. split; [apply Z.eqb_eq|apply Z.leb_le]; lia. }
    destruct (Z.leb_spec 0 e) as [H0|H0].
    + assert (e = 0) as -> by lia. f_equal. simpl in Hm. lia.
    + rewrite Hm, Z.mod_mul, Z.eqb_refl by lia. f_equal.
      apply Z.div_mul. lia.
  - destruct (binary_round_exact true p) as (m & e & -> & He & Hm & Hd); [lia|].
    eexists. split; [reflexivity|].
    unfold float_as_int. rewrite Prim2SF_SF2Prim.
    2:{ unfold valid_binary, bounded, canonical_mantissa, fexp, emin, prec, emax.
        rewrite Hd. apply andb_true_intro. split; [apply Z.eqb_eq|apply Z.leb_le]; lia. }
    destruct (Z.leb_spec 0 e) as [H0|H0].
    + assert (e = 0) as -> by lia. f_equal. simpl in Hm. lia.
    + rewrite Hm, Z.mod_mul, Z.eqb_refl by lia. f_equal.
      change (Z.neg m) with (- Z.pos m). rewrite Hm.
      rewrite <- Z.mul_opp_l. change (- Z.pos p) with (Z.neg p).
      apply Z.div_mul. lia.
Qed.

(** The conversion raises nothing but OverflowError. *)
Lemma int_to_float_raises n e : int_to_float n = inl e → e = OverflowError.
Proof.
  unfold int_to_float.
  destruct (binary_normalize prec emax n 0 false); congruence.
Qed.

(** The conversion rejects the ints that round beyond the largest
    double; 2^1024 - 2^970 is the first of them. *)
Lemma int_to_float_overflow :
  int_to_float (2 ^ 1024 - 2 ^ 970) = inl OverflowError ∧
  int_to_float (2 ^ 1024) = inl OverflowError ∧
  ∃ f, int_to_float (2 ^ 1024 - 2 ^ 970 - 1) = inr f.
Proof.
  split; [|split].
  - vm_compute. reflexivity.
  - vm_compute. reflexivity.
  - vm_compute. eexists. reflexivity.
Qed.



(** The value of [current_fps] where it has one, for use in the overlay
    text. *)
Definition fps_value (frame_count : Z) (elapsed_time : float) : pynum :=
  match current_fps frame_count elapsed_time with
  | inr v => v
  | inl _ => PyInt 0
  end.

Lemma current_fps_value frame_count elapsed_time :
  - 2 ^ 53 < frame_count < 2 ^ 53 →
  current_fps frame_count elapsed_time = inr (fps_value frame_count elapsed_time).
Proof.
  intros Hn. unfold fps_value.
  destruct (current_fps frame_count elapsed_time) as [e|v] eqn:Hfps; [|done].
  unfold current_fps, truediv in Hfps.
  destruct (int_to_float_exact frame_count Hn) as (f & Hf & _). rewrite Hf in Hfps.
  destruct (0 <? elapsed_time)%float eqn:Hlt; [|discriminate].
  by rewrite (ltb_zero_eqb_zero _ Hlt) in Hfps.
Qed.

(** Line 160 in a run: the value, or the exception of the conversion. *)
Lemma current_fps_run frame_count elapsed_time :
  current_fps frame_count elapsed_time = inr (fps_value frame_count elapsed_time) ∨
  (current_fps frame_count elapsed_time = inl OverflowError ∧
   2 ^ 53 ≤ Z.abs frame_count).
Proof.
  destruct (Z_lt_le_dec (Z.abs frame_count) (2 ^ 53)) as [Hsmall|Hbig].
  - left. apply current_fps_value. lia.
  - unfold fps_value.
    destruct (current_fps frame_count elapsed_time) as [e|v] eqn:Hfps; [|by left].
    right. split; [|done]. f_equal.
    unfold current_fps, truediv in Hfps.
    destruct (0 <? elapsed_time)%float eqn:Hlt; [|discriminate].
    rewrite (ltb_zero_eqb_zero _ Hlt) in Hfps.
    destruct (int_to_float frame_count) as [e'|f] eqn:Hf; [|discriminate].
    injection Hfps as <-. by eapply int_to_float_raises.
Qed.

(** ** Input validation *)

Lemma lookup_at_length {A} (l : list A) x : (l ++ [x]) !! length l = Some x.
Proof. rewrite lookup_app_r by lia. by rewrite Nat.sub_diag. Qed.

Lemma alter_at_length {A} (f : A → A) (l : list A) x :
  alter f (length l) (l ++ [x]) = l ++ [f x].
Proof.
  replace (length l) with (length l + 0)%nat at 1 by lia.
  by rewrite alter_app_r.
Qed.

(** The three ways through [check_video_file]. *)
Lemma check_video_file_run E p s :
  check_video_file E p s =
  let c := length (captures s) in
  if path_exists E p then
    match video_at E p with
    | Some v =>
        (inr true,
         with_trace (λ t, t ++ [Exists p true; CaptureNew c p; CaptureRelease c])
           (with_captures (λ cs, cs ++
              [{| cap_path := p; cap_video := Some v; cap_released := true |}]) s))
    | None =>
        (inr false,
         with_trace (λ t, t ++ [Exists p true; CaptureNew c p;
                                Log ERROR ("Failed to open video file " +:+ p)])
           (with_captures (λ cs, cs ++
              [{| cap_path := p; cap_video := None; cap_released := false |}]) s))
    end
  else
    (inr false,
     with_trace (λ t, t ++ [Exists p false;
                            Log ERROR ("Video file " +:+ p +:+ " does not exist")]) s).
Proof.
  destruct s as [h cs ws wi n t].
  cbv [check_video_file VideoCapture cap_isOpened cap_release logger_error emit modify gets
       mbind M_bind bind ret with_trace with_captures
       heap captures writers windows frame_count trace].
  destruct (path_exists E p); simpl.
  - rewrite lookup_at_length. simpl. unfold opened. simpl.
    destruct (video_at E p) as [v|]; simpl.
    + rewrite alter_at_length. simpl. by rewrite <- !app_assoc.
    + by rewrite <- !app_assoc.
  - by rewrite <- !app_assoc.
Qed.

(** C10.  [check_video_file] releases the capture it creates for the
    probe on the path that returns True and on no other: when the file
    exists but does not open as a video, it logs the failure and returns
    False with the probe capture created and never released. *)
Theorem check_video_file_probe E p s :
  (path_exists E p = true → video_at E p = None →
     ∃ s', check_video_file E p s = (inr false, s') ∧
           captures s' = captures s ++
             [{| cap_path := p; cap_video := None; cap_released := false |}] ∧
           trace s' = trace s ++
             [Exists p true; CaptureNew (length (captures s)) p;
              Log ERROR ("Failed to open video file " +:+ p)] ∧
           CaptureRelease (length (captures s)) ∉ drop (length (trace s)) (trace s')) ∧
  (∀ v, path_exists E p = true → video_at E p = Some v →
     ∃ s', check_video_file E p s = (inr true, s') ∧
           captures s' = captures s ++
             [{| cap_path := p; cap_video := Some v; cap_released := true |}] ∧
           trace s' = trace s ++
             [Exists p true; CaptureNew (length (captures s)) p;
              CaptureRelease (length (captures s))]) ∧
  (path_exists E p = false →
     ∃ s', check_video_file E p s = (inr false, s') ∧
           captures s' = captures s ∧
           trace s' = trace s ++
             [Exists p false; Log ERROR ("Video file " +:+ p +:+ " does not exist")]).
Proof.
  rewrite check_video_file_run. cbv zeta.
  split; [|split].
  - intros -> ->. eexists. split; [reflexivity|]. split; [reflexivity|].
    split; [reflexivity|]. simpl. rewrite drop_app_length.
    rewrite !not_elem_of_cons. repeat split; try discriminate. apply not_elem_of_nil.
  - intros v -> ->. eexists. split; [reflexivity|]. split; reflexivity.
  - intros ->. eexists. split; [reflexivity|]. split; reflexivity.
Qed.

(** A file that exists and is not a video, one that is a video with no
    frames, and no file at all. *)
Definition env_not_a_video : Env :=
  {| path_exists := λ _, true; video_at := λ _, None;
     clock := λ _, 0%float; key := λ _, -1; fault := λ _ _, None |}.

Definition empty_video : Video :=
  {| v_width := 2; v_height := 2; v_fps := 25%float; v_total_frames := 0; v_frames := [] |}.

Definition env_empty_video : Env :=
  {| path_exists := λ _, true; video_at := λ _, Some empty_video;
     clock := λ _, 0%float; key := λ _, -1; fault := λ _ _, None |}.

Definition env_no_file : Env :=
  {| path_exists := λ _, false; video_at := λ _, None;
     clock := λ _, 0%float; key := λ _, -1; fault := λ _ _, None |}.

Lemma check_video_file_probe_witness :
  (∃ s', check_video_file env_not_a_video "Demo.mp4" initial_state = (inr false, s') ∧
         captures s' = [{| cap_path := "Demo.mp4"; cap_video := None; cap_released := false |}] ∧
         trace s' = [Exists "Demo.mp4" true; CaptureNew 0%nat "Demo.mp4";
                     Log ERROR "Failed to open video file Demo.mp4"] ∧
         CaptureRelease 0%nat ∉ drop 0 (trace s')) ∧
  (∃ s', check_video_file env_empty_video "Demo.mp4" initial_state = (inr true, s') ∧
         captures s' = [{| cap_path := "Demo.mp4"; cap_video := Some empty_video;
                           cap_released := true |}] ∧
         trace s' = [Exists "Demo.mp4" true; CaptureNew 0%nat "Demo.mp4";
                     CaptureRelease 0%nat]) ∧
  (∃ s', check_video_file env_no_file "Demo.mp4" initial_state = (inr false, s') ∧
         captures s' = [] ∧
         trace s' = [Exists "Demo.mp4" false;
                     Log ERROR "Video file Demo.mp4 does not exist"]).
Proof.
  split; [|split].
  - apply (check_video_file_probe env_not_a_video "Demo.mp4" initial_state); reflexivity.
  - apply (check_video_file_probe env_empty_video "Demo.mp4" initial_state); reflexivity.
  - apply (check_video_file_probe env_no_file "Demo.mp4" initial_state); reflexivity.
Defined.

(** ** Inaccessible input *)

(** The events that decode, transform, draw, display or encode. *)
Definition is_work (ev : event) : bool :=
  match ev with
  | WriterNew _ _ _ _ _ | CaptureRead _ _ | WriterWrite _ _ | Cv2Call _ _ _
  | PutText _ _ _ | Imshow _ _ | WaitKey _ _ => true
  | _ => false
  end.

(** C8.  When the input path does not exist or does not open as a
    video, [main] prints its error message and returns: no VideoWriter is
    created, no frame is read, transformed, shown or written, the frame
    counter is not touched, and the top-level handler has nothing to
    report. *)
Theorem main_rejects_inaccessible_input video_path output_path E N s :
  path_exists E video_path = false ∨ video_at E video_path = None →
  ∃ s' evs,
    main_with video_path output_path E N s = (inr tt, s') ∧
    script_with video_path output_path E N s = (inr tt, s') ∧
    trace s' = trace s ++ evs ++ [Print "Error: Cannot access video file. Exiting..."] ∧
    forallb (λ ev, negb (is_work ev)) evs = true ∧
    (∃ msg, Log ERROR msg ∈ evs) ∧
    writers s' = writers s ∧ heap s' = heap s ∧ windows s' = windows s ∧
    frame_count s' = frame_count s.
Proof.
  intros Hbad.
  assert (∃ s1 evs, check_video_file E video_path s = (inr false, s1) ∧
            trace s1 = trace s ++ evs ∧ forallb (λ ev, negb (is_work ev)) evs = true ∧
            (∃ msg, Log ERROR msg ∈ evs) ∧
            writers s1 = writers s ∧ heap s1 = heap s ∧ windows s1 = windows s ∧
            frame_count s1 = frame_count s) as (s1 & evs & Hrun & Htr & Hev & Hlog & Hrest).
  { rewrite check_video_file_run. cbv zeta.
    destruct (path_exists E video_path).
    - destruct Hbad as [Hbad|Hbad]; [done|]. rewrite Hbad.
      do 2 eexists. split; [reflexivity|]. split; [reflexivity|]. split; [reflexivity|].
      split; [|done]. eexists. do 2 apply list_elem_of_further. apply list_elem_of_here.
    - do 2 eexists. split; [reflexivity|]. split; [reflexivity|]. split; [reflexivity|].
      split; [|done]. eexists. apply list_elem_of_further, list_elem_of_here. }
  assert (main_with video_path output_path E N s
          = (inr tt, with_trace
               (λ t, t ++ [Print "Error: Cannot access video file. Exiting..."]) s1)) as Hmain.
  { unfold main_with, mbind, M_bind, bind. rewrite Hrun. reflexivity. }
  exists (with_trace (λ t, t ++ [Print "Error: Cannot access video file. Exiting..."]) s1), evs.
  split; [done|]. split.
  { unfold script_with, try_except. by rewrite Hmain. }
  simpl. rewrite Htr, <- app_assoc. done.
Qed.

Lemma main_rejects_inaccessible_input_witness :
  ∃ s' evs,
    main_with "Demo.mp4" "processed_video.mp4" env_no_file sample_numerics initial_state
    = (inr tt, s') ∧
    script_with "Demo.mp4" "processed_video.mp4" env_no_file sample_numerics initial_state
    = (inr tt, s') ∧
    trace s' = trace initial_state ++ evs
               ++ [Print "Error: Cannot access video file. Exiting..."] ∧
    forallb (λ ev, negb (is_work ev)) evs = true ∧
    (∃ msg, Log ERROR msg ∈ evs) ∧
    writers s' = writers initial_state ∧ heap s' = heap initial_state ∧
    windows s' = windows initial_state ∧
    frame_count s' = frame_count initial_state.
Proof.
  apply (main_rejects_inaccessible_input "Demo.mp4" "processed_video.mp4" env_no_file
           sample_numerics initial_state).
  left. reflexivity.
Defined.

(** ** Reasoning about runs

    [outcome m s Q R]: run from [s], the computation [m] either returns
    [a] in a state with [Q a], or raises [e] in a state with [R e]. *)
Definition outcome {A} (m : M A) (s : State)
    (Q : A → State → Prop) (R : exn → State → Prop) : Prop :=
  match m s with
  | (inr a, s') => Q a s'
  | (inl e, s') => R e s'
  end.

Lemma outcome_bind {A B} (m : M A) (k : A → M B) s Q1 R1 Q R :
  outcome m s Q1 R1 →
  (∀ e s', R1 e s' → R e s') →
  (∀ a s', Q1 a s' → outcome (k a) s' Q R) →
  outcome (m ≫= k) s Q R.
Proof.
  unfold outcome, mbind, M_bind, bind. intros Hm HR Hk.
  destruct (m s) as [[e|a] s']; [by apply HR|by apply Hk].
Qed.

Lemma outcome_ret {A} (a : A) s (Q : A → State → Prop) R :
  Q a s → outcome (ret a) s Q R.
Proof. done. Qed.

Lemma outcome_gets {A} (f : State → A) s (Q : A → State → Prop) R :
  Q (f s) s → outcome (gets f) s Q R.
Proof. done. Qed.

Lemma outcome_equation {A} (m : M A) s r s' (Q : A → State → Prop) R :
  m s = (r, s') →
  match r with inr a => Q a s' | inl e => R e s' end →
  outcome m s Q R.
Proof. unfold outcome. by intros ->. Qed.

(** What holds of the state while the body of the loop runs on a state
    [s0]: the counter was incremented, [grown] arrays were added, the
    writers are [ws] and the events [done] were recorded. *)
Definition during (s0 : State) (grown : nat) (ws : list Writer) (seen : list event)
    (s : State) : Prop :=
  frame_count s = S (frame_count s0) ∧ captures s = captures s0 ∧
  length (heap s) = (length (heap s0) + grown)%nat ∧
  writers s = ws ∧ trace s = trace s0 ++ seen.

Ltac state_simpl :=
  unfold with_trace, with_heap, with_captures, with_writers, with_windows,
    with_frame_count;
  cbn [heap captures writers windows frame_count trace fst snd].

(** Closes the goals [during ...] after one step. *)
Ltac close_during Hn Hc Hh Hw Ht :=
  repeat split; state_simpl;
  rewrite ?length_insert, ?Hn, ?Hc, ?Hh, ?Hw, ?Ht, <- ?app_assoc; reflexivity.

Section Steps.
Context (E : Env) (N : Numerics) (s0 : State) (g : nat) (ws : list Writer).

Lemma run_emit ev seen s :
  during s0 g ws seen s →
  outcome (emit ev) s (λ _ s', during s0 g ws (seen ++ [ev]) s') (λ _ _, False).
Proof.
  intros (Hn & Hc & Hh & Hw & Ht). unfold outcome, emit, modify.
  close_during Hn Hc Hh Hw Ht.
Qed.

Lemma run_time_time seen s :
  during s0 g ws seen s →
  outcome (time_time E) s
    (λ now s', now = clock E (S (frame_count s0)) ∧
               during s0 g ws (seen ++ [TimeTime (clock E (S (frame_count s0)))]) s')
    (λ _ _, False).
Proof.
  intros (Hn & Hc & Hh & Hw & Ht).
  unfold outcome, time_time, emit, modify, gets, mbind, M_bind, bind, ret.
  close_during Hn Hc Hh Hw Ht.
Qed.

Lemma run_putText img text org fs col th seen s :
  during s0 g ws seen s → (img < length (heap s0) + g)%nat →
  outcome (cv2_putText E N img text org fs col th) s
    (λ _ s', during s0 g ws (seen ++ [PutText img text org]) s')
    (λ e s', s' = s ∧ fault E (S (frame_count s0)) (AtPutText org) = Some e).
Proof.
  intros (Hn & Hc & Hh & Hw & Ht) Himg.
  unfold outcome, cv2_putText, may_raise, load, store, emit, modify, gets,
    mbind, M_bind, bind, ret, raise. state_simpl. rewrite Hn.
  destruct (fault E (S (frame_count s0)) (AtPutText org)); [by split|].
  destruct (heap s !! img) as [a|] eqn:Ha.
  2:{ apply lookup_ge_None in Ha. lia. }
  close_during Hn Hc Hh Hw Ht.
Qed.

Lemma run_imshow winname img seen s :
  during s0 g ws seen s → (img < length (heap s0) + g)%nat →
  outcome (cv2_imshow E winname img) s
    (λ _ s', during s0 g ws (seen ++ [Imshow winname img]) s')
    (λ e s', s' = s ∧ fault E (S (frame_count s0)) (AtImshow winname) = Some e).
Proof.
  intros (Hn & Hc & Hh & Hw & Ht) Himg.
  unfold outcome, cv2_imshow, may_raise, load, emit, modify, gets,
    mbind, M_bind, bind, ret, raise. state_simpl. rewrite Hn.
  destruct (fault E (S (frame_count s0)) (AtImshow winname)); [by split|].
  destruct (heap s !! img) as [a|] eqn:Ha.
  2:{ apply lookup_ge_None in Ha. lia. }
  close_during Hn Hc Hh Hw Ht.
Qed.

Lemma run_write out img seen s :
  during s0 g ws seen s → (img < length (heap s0) + g)%nat →
  outcome (out_write E out img) s
    (λ _ s', ∃ a, during s0 g (alter (write_frame a) out ws)
                    (seen ++ [WriterWrite out img]) s')
    (λ e s', s' = s ∧ fault E (S (frame_count s0)) AtWrite = Some e).
Proof.
  intros (Hn & Hc & Hh & Hw & Ht) Himg.
  unfold outcome, out_write, may_raise, load, emit, modify, gets,
    mbind, M_bind, bind, ret, raise. state_simpl. rewrite Hn.
  destruct (fault E (S (frame_count s0)) AtWrite); [by split|].
  destruct (heap s !! img) as [a|] eqn:Ha.
  2:{ apply lookup_ge_None in Ha. lia. }
  exists a. close_during Hn Hc Hh Hw Ht.
Qed.

Lemma run_waitKey delay seen s :
  during s0 g ws seen s →
  outcome (cv2_waitKey E delay) s
    (λ code s', code = key E (S (frame_count s0)) ∧
                during s0 g ws (seen ++ [WaitKey delay (key E (S (frame_count s0)))]) s')
    (λ e s', s' = s ∧ fault E (S (frame_count s0)) AtWaitKey = Some e).
Proof.
  intros (Hn & Hc & Hh & Hw & Ht).
  unfold outcome, cv2_waitKey, may_raise, emit, modify, gets,
    mbind, M_bind, bind, ret, raise. state_simpl. rewrite Hn.
  destruct (fault E (S (frame_count s0)) AtWaitKey); [by split|].
  close_during Hn Hc Hh Hw Ht.
Qed.
End Steps.

(** [process_frame] in the body: nine arrays and nine events more, or
    an exception part of the way. *)
Lemma run_process_frame N frame s0 ws seen s :
  during s0 0 ws seen s →
  outcome (process_frame N frame default_target_size) s
    (λ d s', d = dict_at (length (heap s0)) ∧
             during s0 9 ws (seen ++ cv2_events frame (length (heap s0))) s')
    (λ e s', (process_frame N frame default_target_size s).1 = inl e ∧
             ∃ g evs rest,
               during s0 g ws (seen ++ evs) s' ∧
               cv2_events frame (length (heap s0)) = evs ++ rest ∧ rest ≠ []).
Proof.
  intros (Hn & Hc & Hh & Hw & Ht). unfold outcome.
  pose proof (process_frame_run N frame default_target_size s) as Hrun.
  rewrite Nat.add_0_r in Hh.
  destruct (process_frame N frame default_target_size s) as [[e|d] s'] eqn:Hpf.
  - destruct Hrun as (out & evs & rest & -> & Hev & Hrest).
    split; [reflexivity|].
    exists (length out), evs, rest. rewrite <- Hh.
    split; [|split; [exact Hev|exact Hrest]].
    repeat split;
      rewrite ?frame_count_grow, ?captures_grow, ?heap_grow, ?writers_grow, ?trace_grow,
        ?length_app, ?Ht, ?Hh, <- ?app_assoc; done.
  - destruct Hrun as (a & out & _ & Hder & -> & ->). rewrite <- Hh.
    split; [reflexivity|].
    destruct Hder.
    repeat split;
      rewrite ?frame_count_grow, ?captures_grow, ?heap_grow, ?writers_grow, ?trace_grow,
        ?length_app, ?Ht, ?Hh, <- ?app_assoc; done.
Qed.

(** ** One turn of the loop *)

(** The eight [imshow] calls of lines 183-190 when the dict is
    [dict_at base]. *)
Definition show_events (base : ref) : list event := [
  Imshow "Original Frame" (base + 0);
  Imshow "Grayscale" (base + 1);
  Imshow "HLS Color Space" (base + 2);
  Imshow "HSV Color Space" (base + 3);
  Imshow "Adaptive Threshold" (base + 4);
  Imshow "Laplacian Edge" (base + 6);
  Imshow "Gaussian Blur" (base + 7);
  Imshow "Histogram Equalized" (base + 8)
]%nat.

(** The order of the steps of one iteration, after the frame was read:
    count it, transform it, read the clock, annotate 'original', show the
    eight views, write 'original', log, poll the keyboard.  [n] is the
    number of the frame, [frame] its reference and [base] the first
    reference the transforms get. *)
Definition body_events (E : Env) (N : Numerics) (out : ref) (total_frames : Z)
    (start_time : float) (org : nat * nat) (n : nat) (frame base : ref) : list event :=
  [FrameCount n]
  ++ cv2_events frame base
  ++ [TimeTime (clock E n);
      PutText (base + 0)%nat ("Frame: " +:+ pretty n +:+ "/" +:+ pretty total_frames) org;
      PutText (base + 0)%nat
        ("FPS: " +:+ format_2f N (fps_value (Z.of_nat n) (clock E n - start_time)%float))
        (50%nat, 100%nat)]
  ++ show_events base
  ++ [WriterWrite out (base + 0)%nat;
      Log INFO ("Processed frame " +:+ pretty n);
      WaitKey 25 (key E n)].

(** The key that leaves the loop: [cv2.waitKey(25) & 0xFF == ord('q')]. *)
Definition is_quit (code : Z) : bool := Z.land code 255 =? 113.

Lemma outcome_modify_bind {B} f (k : unit → M B) s Q R :
  outcome (k tt) (f s) Q R → outcome (modify f ≫= k) s Q R.
Proof. done. Qed.

Lemma outcome_gets_bind {A B} (f : State → A) (k : A → M B) s Q R :
  outcome (k (f s)) s Q R → outcome (gets f ≫= k) s Q R.
Proof. done. Qed.

Lemma outcome_ret_bind {A B} (a : A) (k : A → M B) s Q R :
  outcome (k a) s Q R → outcome (ret a ≫= k) s Q R.
Proof. done. Qed.

Lemma outcome_lift_bind {A B} (r : exn + A) v (k : A → M B) s Q R :
  r = inr v → outcome (k v) s Q R → outcome (lift r ≫= k) s Q R.
Proof. by intros ->. Qed.

Lemma outcome_lift_raise {A B} (r : exn + A) e (k : A → M B) s
    (Q : B → State → Prop) (R : exn → State → Prop) :
  r = inl e → R e s → outcome (lift r ≫= k) s Q R.
Proof. by intros ->. Qed.

Lemma outcome_getitem_bind {B} d key r (k : ref → M B) s Q R :
  d !! key = Some r → outcome (k r) s Q R → outcome (getitem d key ≫= k) s Q R.
Proof. unfold getitem. by intros ->. Qed.

Lemma outcome_assoc {A B C} (m : M A) (f : A → M B) (k : B → M C) s Q R :
  outcome (m ≫= (λ a, f a ≫= k)) s Q R → outcome ((m ≫= f) ≫= k) s Q R.
Proof.
  unfold outcome, mbind, M_bind, bind. by destruct (m s) as [[e|a] s'].
Qed.

(** How one turn of the loop ends: returning [stop] after all of
    [body_events], or raising after a proper prefix of them. *)
Definition body_returns (E : Env) (N : Numerics) (out : ref) (total_frames : Z)
    (start_time : float) (org : nat * nat) (frame : ref) (s0 : State)
    (stop : bool) (s' : State) : Prop :=
  stop = is_quit (key E (S (frame_count s0))) ∧
  ∃ a, during s0 9 (alter (write_frame a) out (writers s0))
         (body_events E N out total_frames start_time org (S (frame_count s0)) frame
            (length (heap s0))
          ++ (if stop then [Log INFO "User interrupted video processing"] else [])) s'.

(** The state in which the body calls [process_frame]. *)
Definition counted (s0 : State) : State :=
  with_trace (λ t, t ++ [FrameCount (S (frame_count s0))]) (with_frame_count S s0).

Definition body_raises (E : Env) (N : Numerics) (out : ref) (total_frames : Z)
    (start_time : float) (org : nat * nat) (frame : ref) (s0 : State)
    (e : exn) (s' : State) : Prop :=
  ((∃ site, fault E (S (frame_count s0)) site = Some e) ∨
   (process_frame N frame default_target_size (counted s0)).1 = inl e ∨
   current_fps (Z.of_nat (S (frame_count s0)))
     (clock E (S (frame_count s0)) - start_time)%float = inl e) ∧
  ∃ g ws seen rest,
    during s0 g ws seen s' ∧
    (ws = writers s0 ∨ ∃ a, ws = alter (write_frame a) out (writers s0)) ∧
    body_events E N out total_frames start_time org (S (frame_count s0)) frame
      (length (heap s0)) = seen ++ rest ∧
    rest ≠ [].

Lemma outcome_emit_bind {B} ev (k : unit → M B) s Q R :
  outcome (k tt) (with_trace (λ t, t ++ [ev]) s) Q R → outcome (emit ev ≫= k) s Q R.
Proof. done. Qed.

Ltac raised_here Hd side :=
  intros ? ? [-> ?]; split; [left; eexists; eassumption|];
  eexists _, _, _, _; split; [exact Hd|]; split; [side|];
  split; [reflexivity|discriminate].

Ltac not_written := left; reflexivity.
Ltac written := right; eexists; reflexivity.

Ltac show_step Hd lem :=
  apply outcome_assoc; eapply outcome_getitem_bind; [apply lem|];
  apply outcome_assoc;
  eapply outcome_bind;
    [eapply run_imshow; [exact Hd|lia]|raised_here Hd not_written|].

Lemma loop_body_run E N out total start org fs col th frame s0 :
  outcome (loop_body E N out total start org fs col th frame) s0
    (body_returns E N out total start org frame s0)
    (body_raises E N out total start org frame s0).
Proof.
  unfold loop_body.
  apply outcome_modify_bind, outcome_gets_bind.
  change (frame_count (with_frame_count S s0)) with (S (frame_count s0)).
  apply outcome_emit_bind. fold (counted s0).
  assert (during s0 0 (writers s0) [FrameCount (S (frame_count s0))] (counted s0)) as Hd1.
  { unfold counted. repeat split; state_simpl; rewrite ?Nat.add_0_r; reflexivity. }
  eapply outcome_bind; [apply (run_process_frame N frame s0 (writers s0)), Hd1| |].
  { intros e s' (Hpf & g & evs & rest & Hd' & Hev & Hrest).
    split; [right; by left|].
    eexists _, _, _, _. split; [exact Hd'|]. split; [not_written|].
    unfold body_events. rewrite Hev. split.
    - rewrite <- !app_assoc. reflexivity.
    - destruct rest; [done|discriminate]. }
  intros d s2 [-> Hd2]. clear Hd1.
  eapply outcome_bind; [apply (run_time_time E s0 9 (writers s0)), Hd2|intros ? ? []|].
  intros now s3 [-> Hd3]. clear Hd2. cbv zeta.
  destruct (current_fps_run (Z.of_nat (S (frame_count s0)))
              (clock E (S (frame_count s0)) - start)%float) as [Hfps|[Hfps _]].
  2:{ eapply outcome_lift_raise; [exact Hfps|].
      split; [right; by right|].
      eexists _, _, _, _. split; [exact Hd3|]. split; [not_written|].
      split; [reflexivity|discriminate]. }
  eapply outcome_lift_bind; [exact Hfps|].
  unfold annotate.
  apply outcome_assoc. eapply outcome_getitem_bind; [apply dict_at_original|].
  apply outcome_assoc.
  eapply outcome_bind;
    [apply (run_putText E N s0 9 (writers s0)); [exact Hd3|lia]
    |raised_here Hd3 not_written|].
  intros [] s4 Hd4. clear Hd3.
  apply outcome_assoc. eapply outcome_getitem_bind; [apply dict_at_original|].
  eapply outcome_bind;
    [apply (run_putText E N s0 9 (writers s0)); [exact Hd4|lia]
    |raised_here Hd4 not_written|].
  intros [] s5 Hd5. clear Hd4.
  unfold views. cbn [show_all].
  show_step Hd5 dict_at_original. intros [] s6 Hd6. clear Hd5.
  show_step Hd6 dict_at_gray. intros [] s7 Hd7. clear Hd6.
  show_step Hd7 dict_at_hls. intros [] s8 Hd8. clear Hd7.
  show_step Hd8 dict_at_hsv. intros [] s9 Hd9. clear Hd8.
  show_step Hd9 dict_at_thresh. intros [] s10 Hd10. clear Hd9.
  show_step Hd10 dict_at_laplacian. intros [] s11 Hd11. clear Hd10.
  show_step Hd11 dict_at_blur. intros [] s12 Hd12. clear Hd11.
  show_step Hd12 dict_at_equalized. intros [] s13 Hd13. clear Hd12.
  apply outcome_ret_bind.
  eapply outcome_getitem_bind; [apply dict_at_original|].
  eapply outcome_bind;
    [eapply run_write; [exact Hd13|lia]|raised_here Hd13 not_written|].
  intros [] s14 [a Hd14]. clear Hd13.
  eapply outcome_bind; [eapply run_emit, Hd14|intros ? ? []|].
  intros [] s15 Hd15. clear Hd14.
  eapply outcome_bind; [eapply run_waitKey, Hd15|raised_here Hd15 written|].
  intros code s16 [-> Hd16]. clear Hd15.
  unfold body_returns, is_quit.
  destruct (Z.land (key E (S (frame_count s0))) 255 =? 113).
  - eapply outcome_bind; [eapply run_emit, Hd16|intros ? ? []|].
    intros [] s17 Hd17. apply outcome_ret. split; [reflexivity|].
    exists a. exact Hd17.
  - apply outcome_ret. split; [reflexivity|].
    exists a. rewrite app_nil_r. exact Hd16.
Qed.

(** ** The loop *)

(** One full iteration: the read, then the body.  [n] is the number of
    the frame and [h] the size of the store before the read. *)
Definition iteration_events (E : Env) (N : Numerics) (cap out : ref) (total_frames : Z)
    (start_time : float) (org : nat * nat) (n h : nat) : list event :=
  CaptureRead cap true
  :: body_events E N out total_frames start_time org n h (S h).

(** [k] full iterations after [n] frames, from a store of size [h]; an
    iteration adds the frame and nine arrays to the store. *)
Fixpoint iterations (E : Env) (N : Numerics) (cap out : ref) (total_frames : Z)
    (start_time : float) (org : nat * nat) (k n h : nat) : list event :=
  match k with
  | 0%nat => []
  | S k' =>
      iteration_events E N cap out total_frames start_time org (S n) h
      ++ iterations E N cap out total_frames start_time org k' (S n) (h + 10)
  end.

(** The writer after the frames [imgs] were written to it. *)
Definition write_frames (imgs : list ndarray) (w : Writer) : Writer :=
  foldl (λ w a, write_frame a w) w imgs.

(** No key pressed during frames [n+1 .. n+k] is the quit key. *)
Definition no_quit (E : Env) (n k : nat) : Prop :=
  ∀ i, (0 < i ≤ k)%nat → is_quit (key E (n + i)%nat) = false.

(** The loop returns: [k] full iterations, then either the failed read
    of the end of the stream or the report of the quit key. *)
Definition loop_returns (E : Env) (N : Numerics) (cap out : ref) (total_frames : Z)
    (start_time : float) (org : nat * nat) (frames : list ndarray) (s s' : State) : Prop :=
  ∃ k imgs ending,
    (k ≤ length frames)%nat ∧ length imgs = k ∧
    captures s' = captures s ∧
    writers s' = alter (write_frames imgs) out (writers s) ∧
    frame_count s' = (frame_count s + k)%nat ∧
    trace s' = trace s
               ++ iterations E N cap out total_frames start_time org k
                    (frame_count s) (length (heap s))
               ++ ending ∧
    ((k = length frames ∧ no_quit E (frame_count s) k ∧
      ending = [CaptureRead cap false; Log INFO "End of video reached"]) ∨
     (∃ k', k = S k' ∧ no_quit E (frame_count s) k' ∧
            is_quit (key E (frame_count s + k)%nat) = true ∧
            ending = [Log INFO "User interrupted video processing"])).

(** The loop raises: [k] full iterations, then a proper prefix of the
    next one.  What raises is a call the environment lets fail, a
    transform that rejects its frame, or the conversion of the counter
    in line 160.  The counter is ahead of the frames written by one from
    the moment the frame is counted until it is written. *)
Definition loop_raises (E : Env) (N : Numerics) (cap out : ref) (total_frames : Z)
    (start_time : float) (org : nat * nat) (frames : list ndarray) (s : State)
    (e : exn) (s' : State) : Prop :=
  ((∃ n site, fault E n site = Some e) ∨
   (∃ next frame sx, next ∈ frames ∧ heap sx !! frame = Some next ∧
      (process_frame N frame default_target_size sx).1 = inl e) ∨
   (∃ n, (frame_count s < n ≤ frame_count s + length frames)%nat ∧
         current_fps (Z.of_nat n) (clock E n - start_time)%float = inl e)) ∧
  ∃ k imgs seen rest,
    (k ≤ length frames)%nat ∧
    captures s' = captures s ∧
    writers s' = alter (write_frames imgs) out (writers s) ∧
    no_quit E (frame_count s) k ∧
    trace s' = trace s
               ++ iterations E N cap out total_frames start_time org k
                    (frame_count s) (length (heap s))
               ++ seen ∧
    iteration_events E N cap out total_frames start_time org
      (S (frame_count s + k)) (length (heap s) + 10 * k) = seen ++ rest ∧
    rest ≠ [] ∧
    ((seen = [] ∧ frame_count s' = (frame_count s + k)%nat ∧ length imgs = k) ∨
     (frame_count s' = S (frame_count s + k) ∧
      (length imgs = k ∨ length imgs = S k))).

Lemma cap_isOpened_run cap s :
  cap_isOpened cap s = (inr (from_option opened false (captures s !! cap)), s).
Proof. reflexivity. Qed.

Lemma cap_read_run E cap next s :
  cap_read E cap next s =
  match fault E (frame_count s) AtRead with
  | Some e => (inl e, s)
  | None =>
      match next with
      | Some a =>
          (inr (Some (length (heap s))),
           with_trace (λ t, t ++ [CaptureRead cap true]) (with_heap (λ h, h ++ [a]) s))
      | None => (inr None, with_trace (λ t, t ++ [CaptureRead cap false]) s)
      end
  end.
Proof.
  unfold cap_read, may_raise, alloc, emit, modify, gets, mbind, M_bind, bind, ret, raise.
  destruct (fault E (frame_count s) AtRead); [reflexivity|].
  destruct next; reflexivity.
Qed.

Lemma outcome_run_bind {A B} (m : M A) (k : A → M B) s x Q R :
  m s = x →
  match x with
  | (inr a, s') => outcome (k a) s' Q R
  | (inl e, s') => R e s'
  end →
  outcome (m ≫= k) s Q R.
Proof.
  unfold outcome, mbind, M_bind, bind. intros ->. by destruct x as [[e|a] s'].
Qed.

Lemma write_frames_cons a imgs w :
  write_frames (a :: imgs) w = write_frames imgs (write_frame a w).
Proof. reflexivity. Qed.

Lemma alter_write_frames a imgs out (ws : list Writer) :
  alter (write_frames imgs) out (alter (write_frame a) out ws)
  = alter (write_frames (a :: imgs)) out ws.
Proof.
  revert out. induction ws as [|w ws IH]; intros [|out]; simpl; [done..|].
  f_equal. apply IH.
Qed.

Lemma no_quit_0 E n : no_quit E n 0.
Proof. intros i Hi. lia. Qed.

Lemma no_quit_S E n k :
  is_quit (key E (S n)) = false → no_quit E (S n) k → no_quit E n (S k).
Proof.
  intros H1 Hk i Hi. destruct (decide (i = 1%nat)) as [->|].
  - by rewrite Nat.add_1_r.
  - replace (n + i)%nat with (S n + (i - 1))%nat by lia. apply Hk. lia.
Qed.

Section LoopSteps.
Context (E : Env) (N : Numerics) (cap out : ref) (total : Z) (start : float)
  (org : nat * nat).
Context (next : ndarray) (rest : list ndarray) (a : ndarray) (s s' : State).
Context (Hcap : captures s' = captures s)
  (Hwr : writers s' = alter (write_frame a) out (writers s))
  (Hcount : frame_count s' = S (frame_count s))
  (Hheap : length (heap s') = (length (heap s) + 10)%nat)
  (Htrace : trace s' = trace s ++ iteration_events E N cap out total start org
                                    (S (frame_count s)) (length (heap s)))
  (Hkey : is_quit (key E (S (frame_count s))) = false).

(** After a full iteration that did not stop, what the rest of the
    loop does is what the loop does. *)
Lemma loop_returns_step s'' :
  loop_returns E N cap out total start org rest s' s'' →
  loop_returns E N cap out total start org (next :: rest) s s''.
Proof.
  intros (k & imgs & ending & Hk & Hlen & Hc & Hw & Hn & Ht & Hend).
  exists (S k), (a :: imgs), ending.
  split; [simpl; lia|]. split; [simpl; lia|].
  split; [by rewrite Hc|].
  split; [by rewrite Hw, Hwr, alter_write_frames|].
  split; [rewrite Hn, Hcount; lia|].
  split.
  { rewrite Ht, Htrace, Hcount, Hheap. cbn [iterations].
    by rewrite <- !app_assoc. }
  rewrite Hcount in Hend.
  destruct Hend as [(-> & Hq & ->)|(k' & -> & Hq & Hquit & ->)].
  - left. split; [done|]. split; [by apply no_quit_S|done].
  - right. exists (S k'). split; [done|]. split; [by apply no_quit_S|].
    split; [|done]. by replace (frame_count s + S (S k'))%nat
      with (S (frame_count s) + S k')%nat by lia.
Qed.

Lemma loop_raises_step e s'' :
  loop_raises E N cap out total start org rest s' e s'' →
  loop_raises E N cap out total start org (next :: rest) s e s''.
Proof.
  intros (Hcause & k & imgs & seen & rst & Hk & Hc & Hw & Hq & Ht & Hev & Hrst & Hcnt).
  split.
  { destruct Hcause as [?|[(nx & fr & sx & Hin & ? & ?)|(n & Hn & ?)]]; [by left| |].
    - right; left. exists nx, fr, sx. split; [by apply list_elem_of_further|done].
    - right; right. exists n. split; [|done]. rewrite Hcount in Hn. simpl. lia. }
  exists (S k), (a :: imgs), seen, rst.
  split; [simpl; lia|].
  split; [by rewrite Hc|].
  split; [by rewrite Hw, Hwr, alter_write_frames|].
  rewrite Hcount in Hq. split; [by apply no_quit_S|].
  split.
  { rewrite Ht, Htrace, Hcount, Hheap. cbn [iterations].
    by rewrite <- !app_assoc. }
  rewrite Hcount, Hheap in Hev.
  split.
  { rewrite <- Hev. f_equal; lia. }
  split; [done|].
  rewrite Hcount in Hcnt.
  destruct Hcnt as [(-> & Hn & Hl)|(Hn & Hl)].
  - left. split; [done|]. split; [lia|simpl; lia].
  - right. split; [lia|]. simpl. lia.
Qed.
End LoopSteps.

Lemma outcome_weaken {A} (m : M A) s (Q Q' : A → State → Prop) (R R' : exn → State → Prop) :
  outcome m s Q R →
  (∀ a s', Q a s' → Q' a s') → (∀ e s', R e s' → R' e s') →
  outcome m s Q' R'.
Proof.
  unfold outcome. destruct (m s) as [[e|a] s']; auto.
Qed.

(** The state right after a frame was read. *)
Definition after_read (cap : ref) (next : ndarray) (s : State) : State :=
  with_trace (λ t, t ++ [CaptureRead cap true]) (with_heap (λ h, h ++ [next]) s).

(** Every run of the loop, with or without exceptions, is a sequence of
    full iterations followed by its ending. *)
Lemma loop_run E N cap out total start org fs col th frames :
  ∀ s c, captures s !! cap = Some c → opened c = true →
  outcome (loop E N cap out total start org fs col th frames) s
    (λ _ s', loop_returns E N cap out total start org frames s s')
    (loop_raises E N cap out total start org frames s).
Proof.
  induction frames as [|next rest IH]; intros s c Hc Hopen; cbn [loop].
  - eapply outcome_run_bind; [apply cap_isOpened_run|].
    rewrite Hc. cbn [from_option]. rewrite Hopen. cbn [negb].
    eapply outcome_run_bind; [apply cap_read_run|].
    destruct (fault E (frame_count s) AtRead) as [e|] eqn:Hf; cbn iota.
    + split; [left; by exists (frame_count s), AtRead|].
      exists 0%nat, [], [], (iteration_events E N cap out total start org
        (S (frame_count s + 0)) (length (heap s) + 10 * 0)).
      split; [done|]. split; [done|].
      split; [by rewrite list_alter_id|].
      split; [apply no_quit_0|].
      split; [by rewrite !app_nil_r|].
      split; [done|]. split; [discriminate|].
      left. split; [done|]. split; [lia|done].
    + unfold outcome, logger_info, emit, modify.
      exists 0%nat, [], [CaptureRead cap false; Log INFO "End of video reached"].
      split; [done|]. split; [done|]. split; [done|].
      split; [state_simpl; by rewrite list_alter_id|].
      split; [state_simpl; lia|].
      split; [state_simpl; by rewrite <- app_assoc|].
      left. split; [done|]. split; [apply no_quit_0|done].
  - eapply outcome_run_bind; [apply cap_isOpened_run|].
    rewrite Hc. cbn [from_option]. rewrite Hopen. cbn [negb].
    eapply outcome_run_bind; [apply cap_read_run|].
    destruct (fault E (frame_count s) AtRead) as [e|] eqn:Hf; cbn iota.
    + split; [left; by exists (frame_count s), AtRead|].
      exists 0%nat, [], [], (iteration_events E N cap out total start org
        (S (frame_count s + 0)) (length (heap s) + 10 * 0)).
      split; [simpl; lia|]. split; [done|].
      split; [by rewrite list_alter_id|].
      split; [apply no_quit_0|].
      split; [by rewrite !app_nil_r|].
      split; [done|]. split; [discriminate|].
      left. split; [done|]. split; [lia|done].
    + fold (after_read cap next s).
      assert (frame_count (after_read cap next s) = frame_count s) as Hn1 by reflexivity.
      assert (captures (after_read cap next s) = captures s) as Hc1 by reflexivity.
      assert (writers (after_read cap next s) = writers s) as Hw1 by reflexivity.
      assert (trace (after_read cap next s) = trace s ++ [CaptureRead cap true]) as Ht1
        by reflexivity.
      assert (heap (after_read cap next s) = heap s ++ [next]) as Hh1 by reflexivity.
      assert (length (heap (after_read cap next s)) = S (length (heap s))) as Hl1.
      { rewrite Hh1, length_app. simpl. lia. }
      eapply outcome_bind; [apply loop_body_run| |].
      * intros e s' (Hcause & g & ws & seen & rst & Hd & Hws & Hev & Hrst).
        destruct Hd as (Hn & Hcc & Hh & <- & Ht).
        rewrite Hn1 in Hn. rewrite Hc1 in Hcc. rewrite Ht1 in Ht.
        rewrite Hn1, Hl1 in Hev. rewrite Hw1 in Hws.
        split.
        { destruct Hcause as [[site Hsite]|[Hpf|Hfps]].
          - left. rewrite Hn1 in Hsite. by exists (S (frame_count s)), site.
          - right; left.
            exists next, (length (heap s)), (counted (after_read cap next s)).
            split; [apply list_elem_of_here|]. split; [|exact Hpf].
            change (heap (counted (after_read cap next s))) with (heap s ++ [next]).
            apply lookup_at_length.
          - right; right. rewrite Hn1 in Hfps. exists (S (frame_count s)).
            split; [simpl; lia|exact Hfps]. }
        assert (iteration_events E N cap out total start org
                  (S (frame_count s + 0)) (length (heap s) + 10 * 0)
                = (CaptureRead cap true :: seen) ++ rst) as Hit.
        { rewrite Nat.add_0_r, Nat.mul_0_r, Nat.add_0_r. unfold iteration_events.
          cbn [app]. f_equal. exact Hev. }
        assert (trace s' = trace s
                  ++ iterations E N cap out total start org 0 (frame_count s)
                       (length (heap s))
                  ++ CaptureRead cap true :: seen) as Htr.
        { cbn [iterations app]. rewrite Ht, <- app_assoc. reflexivity. }
        destruct Hws as [Hws|[a Hws]].
        -- exists 0%nat, [], (CaptureRead cap true :: seen), rst.
           split; [simpl; lia|]. split; [exact Hcc|].
           split; [by rewrite Hws, list_alter_id|].
           split; [apply no_quit_0|]. split; [exact Htr|]. split; [exact Hit|].
           split; [exact Hrst|]. right. split; [lia|]. by left.
        -- exists 0%nat, [a], (CaptureRead cap true :: seen), rst.
           split; [simpl; lia|]. split; [exact Hcc|].
           split; [exact Hws|].
           split; [apply no_quit_0|]. split; [exact Htr|]. split; [exact Hit|].
           split; [exact Hrst|]. right. split; [lia|]. by right.
      * intros stop s' (Hstop & a & Hd).
        destruct Hd as (Hn & Hcc & Hh & Hw & Ht).
        rewrite Hn1 in Hn, Hstop. rewrite Hc1 in Hcc. rewrite Hw1 in Hw.
        rewrite Hl1 in Hh. rewrite Ht1, Hn1, Hl1 in Ht.
        assert (trace s' = trace s
                  ++ iteration_events E N cap out total start org (S (frame_count s))
                       (length (heap s))
                  ++ (if stop then [Log INFO "User interrupted video processing"]
                      else [])) as Htr.
        { unfold iteration_events. rewrite Ht, <- !app_assoc. reflexivity. }
        destruct stop.
        -- apply outcome_ret.
           exists 1%nat, [a], [Log INFO "User interrupted video processing"].
           split; [simpl; lia|]. split; [done|]. split; [exact Hcc|].
           split; [exact Hw|]. split; [lia|].
           split; [cbn [iterations]; rewrite app_nil_r; exact Htr|].
           right. exists 0%nat. split; [done|]. split; [apply no_quit_0|].
           split; [|done]. by rewrite Nat.add_1_r.
        -- rewrite app_nil_r in Htr.
           assert (length (heap s') = (length (heap s) + 10)%nat) as Hh' by lia.
           eapply outcome_weaken.
           ++ eapply (IH s' c); [by rewrite Hcc|exact Hopen].
           ++ intros [] s''. by apply (loop_returns_step E N cap out total start org
                next rest a s s').
           ++ intros e s''. by apply (loop_raises_step E N cap out total start org
                next rest a s s').
Qed.

(** ** From the start of [main] to the loop, and from the loop to the end *)

(** The events of lines 109-136 for an input that opens. *)
Definition ready_events (video_path output_path : string) (E : Env) (N : Numerics)
    (v : Video) : list event := [
  Exists video_path true;
  CaptureNew 0 video_path;
  CaptureRelease 0;
  CaptureNew 1 video_path;
  Log INFO ("Video loaded: " +:+ pretty (v_width v) +:+ "x" +:+ pretty (v_height v)
            +:+ ", " +:+ float_str N (v_fps v) +:+ " FPS, "
            +:+ pretty (v_total_frames v) +:+ " frames");
  WriterNew 0 output_path "mp4v" (v_fps v) (540%nat, 380%nat);
  Print "Downloading video . . .";
  TimeSleep 10;
  Print "Processing Video . . .";
  TimeSleep 15;
  TimeTime (clock E 0)
].

(** The state in which the loop starts: the probe capture (0) released,
    the capture (1) and the writer (0) of [main] open, nothing counted. *)
Definition ready (video_path output_path : string) (E : Env) (N : Numerics)
    (v : Video) : State :=
  {| heap := [];
     captures := [
       {| cap_path := video_path; cap_video := Some v; cap_released := true |};
       {| cap_path := video_path; cap_video := Some v; cap_released := false |}];
     writers := [
       {| out_path := output_path; out_fourcc := "mp4v"; out_fps := v_fps v;
          out_size := (540%nat, 380%nat); out_frames := []; out_released := false |}];
     windows := ∅;
     frame_count := 0;
     trace := ready_events video_path output_path E N v |}.

(** Lines 203-210. *)
Definition closing (E : Env) (cap out : ref) (output_path : string) : M unit :=
  cap_release cap;;
  out_release out;;
  cv2_destroyAllWindows E;;
  logger_info "Video processing completed";;
  print ("Processed video saved as " +:+ output_path).

Definition closing_events (cap out : ref) (output_path : string) : list event := [
  CaptureRelease cap;
  WriterRelease out;
  DestroyAllWindows;
  Log INFO "Video processing completed";
  Print ("Processed video saved as " +:+ output_path)
].

Lemma main_with_run video_path output_path E N v :
  path_exists E video_path = true → video_at E video_path = Some v →
  main_with video_path output_path E N initial_state
  = (loop E N 1 0 (v_total_frames v) (clock E 0) (50%nat, 50%nat) 1 [0; 255; 0] 2
       (v_frames v)
     ≫= λ _, closing E 1 0 output_path) (ready video_path output_path E N v).
Proof.
  intros Hex Hv. unfold main_with, mbind, M_bind. unfold bind at 1.
  rewrite check_video_file_run, Hex, Hv. cbv zeta iota beta.
  unfold VideoCapture, cap_get, logger_info, initialize_video_writer, VideoWriter,
    print, time_sleep, time_time, emit, modify, gets, mbind, M_bind, bind, ret.
  state_simpl. rewrite Hv. reflexivity.
Qed.

(** The state after [cap.release()] and [out.release()], lines 204 and
    205. *)
Definition released (cap out : ref) (s : State) : State :=
  {| heap := heap s;
     captures := alter (λ c, {| cap_path := cap_path c; cap_video := cap_video c;
                                cap_released := true |}) cap (captures s);
     writers := alter (λ w, {| out_path := out_path w; out_fourcc := out_fourcc w;
                               out_fps := out_fps w; out_size := out_size w;
                               out_frames := out_frames w; out_released := true |})
                  out (writers s);
     windows := windows s;
     frame_count := frame_count s;
     trace := trace s ++ [CaptureRelease cap; WriterRelease out] |}.

(** The state [closing] leaves behind when it returns. *)
Definition closed (cap out : ref) (output_path : string) (s : State) : State :=
  {| heap := heap s;
     captures := alter (λ c, {| cap_path := cap_path c; cap_video := cap_video c;
                                cap_released := true |}) cap (captures s);
     writers := alter (λ w, {| out_path := out_path w; out_fourcc := out_fourcc w;
                               out_fps := out_fps w; out_size := out_size w;
                               out_frames := out_frames w; out_released := true |})
                  out (writers s);
     windows := ∅;
     frame_count := frame_count s;
     trace := trace s ++ closing_events cap out output_path |}.

(** [closing] returns, or [cv2.destroyAllWindows()] raises after the
    capture and the writer were released. *)
Lemma closing_run E cap out output_path s :
  closing E cap out output_path s
  = match fault E (frame_count s) AtDestroyAllWindows with
    | Some e => (inl e, released cap out s)
    | None => (inr tt, closed cap out output_path s)
    end.
Proof.
  unfold closing, cap_release, out_release, cv2_destroyAllWindows, may_raise, logger_info,
    print, emit, modify, gets, raise, ret, mbind, M_bind, bind.
  state_simpl.
  destruct (fault E (frame_count s) AtDestroyAllWindows);
    unfold released, closed, closing_events; state_simpl;
    rewrite <- !app_assoc; reflexivity.
Qed.

(** What can be observed of the resources. *)
Definition written (out : ref) (s : State) : nat :=
  from_option (λ w, length (out_frames w)) 0%nat (writers s !! out).
Definition capture_released (cap : ref) (s : State) : bool :=
  from_option cap_released false (captures s !! cap).
Definition writer_released (out : ref) (s : State) : bool :=
  from_option out_released false (writers s !! out).

Definition is_release (ev : event) : bool :=
  match ev with
  | CaptureRelease _ | WriterRelease _ | DestroyAllWindows => true
  | _ => false
  end.

(** [main] on an input that opens: the loop from [ready], then
    [closing] unless the loop raised.  [main] raises when the loop does,
    or when [cv2.destroyAllWindows()] does after it. *)
Lemma main_outcome video_path output_path E N v :
  path_exists E video_path = true → video_at E video_path = Some v →
  outcome (main_with video_path output_path E N) initial_state
    (λ _ s', ∃ s2,
       loop_returns E N 1 0 (v_total_frames v) (clock E 0) (50%nat, 50%nat) (v_frames v)
         (ready video_path output_path E N v) s2 ∧
       fault E (frame_count s2) AtDestroyAllWindows = None ∧
       s' = closed 1 0 output_path s2)
    (λ e s',
       loop_raises E N 1 0 (v_total_frames v) (clock E 0) (50%nat, 50%nat) (v_frames v)
         (ready video_path output_path E N v) e s' ∨
       ∃ s2,
         loop_returns E N 1 0 (v_total_frames v) (clock E 0) (50%nat, 50%nat) (v_frames v)
           (ready video_path output_path E N v) s2 ∧
         fault E (frame_count s2) AtDestroyAllWindows = Some e ∧
         s' = released 1 0 s2).
Proof.
  intros Hex Hv. unfold outcome. rewrite (main_with_run _ _ _ _ v Hex Hv).
  pose proof (loop_run E N 1 0 (v_total_frames v) (clock E 0) (50%nat, 50%nat) 1
                [0; 255; 0] 2 (v_frames v) (ready video_path output_path E N v)
                {| cap_path := video_path; cap_video := Some v; cap_released := false |}
                eq_refl eq_refl) as Hloop.
  unfold outcome in Hloop. unfold mbind, M_bind, bind.
  destruct (loop _ _ _ _ _ _ _ _ _ _ _ _) as [[e|[]] s2]; [by left|].
  rewrite closing_run.
  destruct (fault E (frame_count s2) AtDestroyAllWindows) as [e|] eqn:Hf.
  - right. by exists s2.
  - by exists s2.
Qed.

Lemma write_frames_open imgs : ∀ w,
  out_released w = false →
  out_frames (write_frames imgs w) = out_frames w ++ imgs ∧
  out_released (write_frames imgs w) = false.
Proof.
  induction imgs as [|a imgs IH]; intros w Hw.
  - simpl. by rewrite app_nil_r.
  - rewrite write_frames_cons.
    destruct (IH (write_frame a w)) as [Hf Hr].
    { unfold write_frame. by rewrite Hw. }
    rewrite Hf, Hr. split; [|done].
    unfold write_frame. rewrite Hw. simpl. by rewrite <- app_assoc.
Qed.

(** The writer of [main] after the loop wrote [imgs]. *)
Lemma ready_writer video_path output_path E N v imgs s :
  writers s = alter (write_frames imgs) 0%nat (writers (ready video_path output_path E N v)) →
  written 0 s = length imgs ∧ writer_released 0 s = false ∧
  written 0 (closed 1 0 output_path s) = length imgs ∧
  writer_released 0 (closed 1 0 output_path s) = true.
Proof.
  intros Hw. unfold written, writer_released, closed. cbn [writers]. rewrite Hw.
  cbn [ready writers alter list_alter lookup list_lookup from_option
       out_frames out_released].
  destruct (write_frames_open imgs
    {| out_path := output_path; out_fourcc := "mp4v"; out_fps := v_fps v;
       out_size := (540%nat, 380%nat); out_frames := []; out_released := false |} eq_refl)
    as [Hf Hr].
  rewrite Hf, Hr. done.
Qed.

Lemma ready_capture video_path output_path E N v s :
  captures s = captures (ready video_path output_path E N v) →
  capture_released 1 s = false ∧ capture_released 1 (closed 1 0 output_path s) = true.
Proof.
  intros Hc. unfold capture_released, closed. cbn [captures]. rewrite Hc. done.
Qed.

(** Without exceptions from the environment, with decoder frames only
    and a counter that stays below 2^53, nothing in the loop raises. *)
Lemma loop_raises_cause E N cap out total start org frames s e s' :
  loop_raises E N cap out total start org frames s e s' →
  (∀ n site, fault E n site = None) → Forall bgr_frame frames →
  Z.of_nat (frame_count s + length frames) < 2 ^ 53 → False.
Proof.
  intros ([(n & site & Hf)|[(next & frame & sx & Hin & Hx & Hpf)|(n & Hn & Hfps)]] & _)
    Hnone Hbgr Hsmall.
  - by rewrite Hnone in Hf.
  - assert (bgr_frame next) as Hnext by (by eapply Forall_forall in Hbgr).
    destruct (derived_total N next Hnext) as [out' Hout].
    rewrite (process_frame_ok N frame _ sx next out' Hx Hout) in Hpf. discriminate Hpf.
  - rewrite current_fps_value in Hfps by lia. discriminate Hfps.
Qed.

Lemma iteration_events_no_release E N cap out total start org n h :
  Forall (λ ev, is_release ev = false)
    (iteration_events E N cap out total start org n h).
Proof. repeat constructor. Qed.

Lemma iterations_no_release E N cap out total start org k : ∀ n h,
  Forall (λ ev, is_release ev = false) (iterations E N cap out total start org k n h).
Proof.
  induction k as [|k IH]; intros n h; cbn [iterations]; [constructor|].
  apply Forall_app. split; [apply iteration_events_no_release|apply IH].
Qed.

Lemma no_release_not_in (l : list event) ev :
  Forall (λ ev, is_release ev = false) l → is_release ev = true → ev ∉ l.
Proof.
  intros Hl Hev Hin. eapply Forall_forall in Hl; [|exact Hin]. congruence.
Qed.

(** ** The order of the steps of an iteration *)











(** ** Release of the resources *)

Lemma handler_run e s :
  (logger_error ("An error occurred: " +:+ exn_str e);;
   print ("An error occurred: " +:+ exn_str e)) s
  = (inr tt,
     with_trace (λ t, t ++ [Log ERROR ("An error occurred: " +:+ exn_str e);
                            Print ("An error occurred: " +:+ exn_str e)]) s).
Proof.
  unfold logger_error, print, emit, modify, mbind, M_bind, bind. state_simpl.
  by rewrite <- app_assoc.
Qed.

Lemma ready_events_releases video_path output_path E N v ev :
  ev ∈ ready_events video_path output_path E N v → is_release ev = true →
  ev = CaptureRelease 0.
Proof.
  unfold ready_events. intros Hin Hrel.
  repeat (apply elem_of_cons in Hin as [->|Hin]; [done || discriminate Hrel|]).
  by apply elem_of_nil in Hin.
Qed.

(** [main] on an input that opens, by the result of its loop. *)
Lemma main_with_loop video_path output_path E N v :
  path_exists E video_path = true → video_at E video_path = Some v →
  main_with video_path output_path E N initial_state
  = match loop E N 1 0 (v_total_frames v) (clock E 0) (50%nat, 50%nat) 1 [0; 255; 0] 2
            (v_frames v) (ready video_path output_path E N v) with
    | (inl e, s2) => (inl e, s2)
    | (inr _, s2) => closing E 1 0 output_path s2
    end.
Proof.
  intros Hex Hv. rewrite (main_with_run _ _ _ _ v Hex Hv).
  unfold mbind, M_bind, bind. by destruct (loop _ _ _ _ _ _ _ _ _ _ _ _) as [[e|[]] s2].
Qed.

(** A loop of [main] that raises has released nothing: the only
    release in the trace is that of the probe capture. *)
Lemma raised_loop_keeps_resources video_path output_path E N v e s1 :
  loop_raises E N 1 0 (v_total_frames v) (clock E 0) (50%nat, 50%nat) (v_frames v)
    (ready video_path output_path E N v) e s1 →
  capture_released 1 s1 = false ∧ writer_released 0 s1 = false ∧
  ∀ ev, is_release ev = true → ev ≠ CaptureRelease 0 → ev ∉ trace s1.
Proof.
  intros (_ & k & imgs & seen & rest & Hk & Hc & Hw & _ & Ht & Hev & Hrest & _).
  destruct (ready_writer video_path output_path E N v imgs s1 Hw) as (_ & Hwr & _).
  destruct (ready_capture video_path output_path E N v s1 Hc) as (Hcr & _).
  split; [exact Hcr|]. split; [exact Hwr|].
  intros ev Hrel Hne. rewrite Ht. cbn [trace ready].
  rewrite !elem_of_app. intros [Hin|[Hin|Hin]].
  - by apply ready_events_releases in Hin.
  - by apply (no_release_not_in _ ev (iterations_no_release _ _ _ _ _ _ _ _ _ _)) in Hin.
  - pose proof (iteration_events_no_release E N 1 0 (v_total_frames v) (clock E 0)
                  (50%nat, 50%nat) (S (0 + k)) (0 + 10 * k)) as Hall.
    cbn [heap ready frame_count length] in Hev. rewrite Hev in Hall.
    apply Forall_app in Hall as [Hall _].
    by apply (no_release_not_in _ ev Hall) in Hin.
Qed.

(** Neither has a loop of [main] that returns: the releases follow it. *)
Lemma returned_loop_keeps_resources video_path output_path E N v s2 :
  loop_returns E N 1 0 (v_total_frames v) (clock E 0) (50%nat, 50%nat) (v_frames v)
    (ready video_path output_path E N v) s2 →
  ∀ ev, is_release ev = true → ev ≠ CaptureRelease 0 → ev ∉ trace s2.
Proof.
  intros (k & imgs & ending & _ & _ & _ & _ & _ & Ht & Hend) ev Hrel Hne.
  rewrite Ht. cbn [trace ready].
  rewrite !elem_of_app. intros [Hin|[Hin|Hin]].
  - by apply ready_events_releases in Hin.
  - by apply (no_release_not_in _ ev (iterations_no_release _ _ _ _ _ _ _ _ _ _)) in Hin.
  - destruct Hend as [(_ & _ & ->)|(k' & _ & _ & _ & ->)];
      repeat (apply elem_of_cons in Hin as [->|Hin]; [discriminate Hrel|]);
      by apply elem_of_nil in Hin.
Qed.

(** A run of [main] that raises in an environment where
    [cv2.destroyAllWindows()] does not, raised in the loop. *)
Lemma raised_run_keeps_resources video_path output_path E N v e s1 :
  path_exists E video_path = true → video_at E video_path = Some v →
  (∀ n, fault E n AtDestroyAllWindows = None) →
  main_with video_path output_path E N initial_state = (inl e, s1) →
  capture_released 1 s1 = false ∧ writer_released 0 s1 = false ∧
  ∀ ev, is_release ev = true → ev ≠ CaptureRelease 0 → ev ∉ trace s1.
Proof.
  intros Hex Hv Hnone Hrun.
  pose proof (main_outcome video_path output_path E N v Hex Hv) as Hm.
  unfold outcome in Hm. rewrite Hrun in Hm.
  destruct Hm as [Hloop|(s2 & _ & Hf & _)].
  - by eapply raised_loop_keeps_resources.
  - by rewrite Hnone in Hf.
Qed.

Lemma not_in_with_handler (ev : event) (l : list event) e :
  is_release ev = true → ev ∉ l →
  ev ∉ l ++ [Log ERROR ("An error occurred: " +:+ exn_str e);
             Print ("An error occurred: " +:+ exn_str e)].
Proof.
  intros Hrel Hl. rewrite elem_of_app. intros [Hin|Hin]; [done|].
  repeat (apply elem_of_cons in Hin as [->|Hin]; [discriminate Hrel|]).
  by apply elem_of_nil in Hin.
Qed.

(** C2 (amended).  A run that passed input validation releases the
    capture, the writer and the windows when the loop ends with the end
    of the stream or with the quit key and the three calls
    [cap.release()], [out.release()] and [cv2.destroyAllWindows()] that
    follow it return.  When a call in the loop raises, [main] is left at
    once and the top level only logs and prints the error: the capture
    and the writer of [main] stay unreleased and none of the three calls
    is made.  When the loop returns and [cv2.destroyAllWindows()] itself
    raises, the capture and the writer have been released before it, the
    windows have not, and the error is logged and printed in the same
    way. *)
Theorem resources_after_run video_path output_path E N v :
  path_exists E video_path = true → video_at E video_path = Some v →
  ∃ r s1 s',
    main_with video_path output_path E N initial_state = (r, s1) ∧
    script_with video_path output_path E N initial_state = (inr tt, s') ∧
    match r with
    | inr _ =>
        s' = s1 ∧
        capture_released 1 s' = true ∧ writer_released 0 s' = true ∧ windows s' = ∅ ∧
        ∃ before, trace s' = before ++ closing_events 1 0 output_path
    | inl e =>
        (DestroyAllWindows ∉ trace s') ∧
        (∃ before, trace s' = before
                     ++ [Log ERROR ("An error occurred: " +:+ exn_str e);
                         Print ("An error occurred: " +:+ exn_str e)]) ∧
        (((loop E N 1 0 (v_total_frames v) (clock E 0) (50%nat, 50%nat) 1 [0; 255; 0] 2
             (v_frames v) (ready video_path output_path E N v)).1 = inl e ∧
          capture_released 1 s' = false ∧ writer_released 0 s' = false ∧
          (CaptureRelease 1 ∉ trace s') ∧ (WriterRelease 0 ∉ trace s')) ∨
         ((loop E N 1 0 (v_total_frames v) (clock E 0) (50%nat, 50%nat) 1 [0; 255; 0] 2
             (v_frames v) (ready video_path output_path E N v)).1 = inr tt ∧
          fault E (frame_count s') AtDestroyAllWindows = Some e ∧
          capture_released 1 s' = true ∧ writer_released 0 s' = true ∧
          ∃ before, trace s' = before
                      ++ [CaptureRelease 1; WriterRelease 0;
                          Log ERROR ("An error occurred: " +:+ exn_str e);
                          Print ("An error occurred: " +:+ exn_str e)]))
    end.
Proof.
  intros Hex Hv.
  unfold script_with, try_except. rewrite (main_with_loop _ _ _ _ v Hex Hv).
  pose proof (loop_run E N 1 0 (v_total_frames v) (clock E 0) (50%nat, 50%nat) 1
                [0; 255; 0] 2 (v_frames v) (ready video_path output_path E N v)
                {| cap_path := video_path; cap_video := Some v; cap_released := false |}
                eq_refl eq_refl) as Hloop.
  pose proof (raised_loop_keeps_resources video_path output_path E N v) as Hraised.
  pose proof (returned_loop_keeps_resources video_path output_path E N v) as Hreturned.
  unfold outcome in Hloop.
  destruct (loop _ _ _ _ _ _ _ _ _ _ _ _) as [[e|[]] s2].
  - destruct (Hraised e s2 Hloop) as (Hcr & Hwr & Hno).
    rewrite handler_run.
    eexists (inl e), s2, _. split; [reflexivity|]. split; [reflexivity|]. state_simpl.
    split; [apply not_in_with_handler; [done|by apply Hno]|].
    split; [by eexists|].
    left. split; [reflexivity|]. split; [exact Hcr|]. split; [exact Hwr|].
    split; apply not_in_with_handler; [done|by apply Hno|done|by apply Hno].
  - rewrite closing_run.
    destruct Hloop as (k & imgs & ending & Hk & Hlen & Hc & Hw & Hn & Ht & Hend).
    assert (loop_returns E N 1 0 (v_total_frames v) (clock E 0) (50%nat, 50%nat)
              (v_frames v) (ready video_path output_path E N v) s2) as Hret
      by (by exists k, imgs, ending).
    destruct (ready_writer video_path output_path E N v imgs s2 Hw) as (_ & _ & _ & Hwr).
    destruct (ready_capture video_path output_path E N v s2 Hc) as (_ & Hcr).
    destruct (fault E (frame_count s2) AtDestroyAllWindows) as [e|] eqn:Hf.
    + rewrite handler_run.
      eexists (inl e), _, _. split; [reflexivity|]. split; [reflexivity|].
      unfold released. state_simpl.
      split.
      { apply not_in_with_handler; [done|].
        rewrite elem_of_app. intros [Hin|Hin].
        - by apply (Hreturned s2 Hret DestroyAllWindows) in Hin.
        - repeat (apply elem_of_cons in Hin as [Hin|Hin]; [discriminate Hin|]).
          by apply elem_of_nil in Hin. }
      split; [by eexists|].
      right. split; [reflexivity|].
      split; [exact Hf|]. split; [exact Hcr|]. split; [exact Hwr|].
      exists (trace s2). by rewrite <- app_assoc.
    + eexists (inr ()), _, _. split; [reflexivity|]. split; [reflexivity|].
      split; [reflexivity|].
      split; [exact Hcr|]. split; [exact Hwr|]. split; [reflexivity|].
      by eexists.
Qed.

(** ** Frames written and frames counted *)

(** C4 (amended).  When a run that passed input validation ends with the
    end of the stream or with the quit key, the number of frames written
    to the writer equals the frame counter: without exceptions, with
    decoder frames and without the quit key a source of N frames gives N
    written frames, and the quit key at frame k gives k (for a source of
    fewer than 2^53 frames, whose counter line 160 converts without
    exception).  When a call in the loop raises, the counter equals the
    number of frames written or is one ahead of it: the frame is counted
    before it is transformed, shown and written. *)
Theorem frames_written_and_counted video_path output_path E N v :
  path_exists E video_path = true → video_at E video_path = Some v →
  ∃ r s',
    main_with video_path output_path E N initial_state = (r, s') ∧
    match r with
    | inr _ => written 0 s' = frame_count s' ∧ (written 0 s' ≤ length (v_frames v))%nat
    | inl _ => (written 0 s' ≤ frame_count s' ≤ S (written 0 s'))%nat
    end ∧
    ((∀ n site, fault E n site = None) → Forall bgr_frame (v_frames v) →
     Z.of_nat (length (v_frames v)) < 2 ^ 53 →
       r = inr tt ∧
       (no_quit E 0 (length (v_frames v)) →
          written 0 s' = length (v_frames v) ∧ frame_count s' = length (v_frames v)) ∧
       (∀ k, no_quit E 0 k → is_quit (key E (S k)) = true →
             (S k ≤ length (v_frames v))%nat →
             written 0 s' = S k ∧ frame_count s' = S k)).
Proof.
  intros Hex Hv.
  pose proof (main_outcome video_path output_path E N v Hex Hv) as Hm.
  unfold outcome in Hm.
  destruct (main_with video_path output_path E N initial_state) as [[e|[]] s1].
  - exists (inl e), s1. split; [reflexivity|].
    destruct Hm as [Hm|(s2 & Hret & Hf & ->)].
    + pose proof Hm as
        (_ & k & imgs & seen & rest & Hk & Hc & Hw & _ & Ht & Hev & Hrest & Hcnt).
      destruct (ready_writer video_path output_path E N v imgs s1 Hw) as (Hwr & _).
      rewrite Hwr. cbn [frame_count ready] in Hcnt. split.
      * destruct Hcnt as [(_ & Hn & Hl)|(Hn & [Hl|Hl])]; rewrite Hn, Hl; lia.
      * intros Hnone Hbgr Hsmall. exfalso. by eapply loop_raises_cause.
    + destruct Hret as (k & imgs & ending & Hk & Hlen & Hc & Hw & Hn & Ht & Hend).
      destruct (ready_writer video_path output_path E N v imgs s2 Hw) as (_ & _ & Hwr & _).
      change (written 0 (released 1 0 s2)) with (written 0 (closed 1 0 output_path s2)).
      rewrite Hwr. cbn [frame_count released]. rewrite Hn, Hlen. cbn [frame_count ready].
      split; [lia|].
      intros Hnone _ _. by rewrite Hnone in Hf.
  - destruct Hm as
      (s2 & (k & imgs & ending & Hk & Hlen & Hc & Hw & Hn & Ht & Hend) & _ & ->).
    exists (inr ()), (closed 1 0 output_path s2). split; [reflexivity|].
    destruct (ready_writer video_path output_path E N v imgs s2 Hw) as (_ & _ & Hwr & _).
    rewrite Hwr. cbn [frame_count closed]. rewrite Hn, Hlen. cbn [frame_count ready].
    cbn [frame_count ready] in Hend.
    split; [split; [reflexivity|exact Hk]|].
    intros _ _ _. split; [reflexivity|].
    destruct Hend as [(-> & Hq & _)|(k' & -> & Hq & Hquit & _)].
    + split; [done|].
      intros k0 _ Hquit0 Hle. exfalso.
      specialize (Hq (S k0) ltac:(lia)). cbn [Nat.add] in Hq. congruence.
    + cbn [Nat.add] in Hquit. split.
      * intros Hq0. exfalso.
        specialize (Hq0 (S k') ltac:(lia)). cbn [Nat.add] in Hq0. congruence.
      * intros k0 Hq0 Hquit0 _.
        destruct (lt_eq_lt_dec k' k0) as [[Hlt| ->]|Hgt].
        -- exfalso. specialize (Hq0 (S k') ltac:(lia)). cbn [Nat.add] in Hq0. congruence.
        -- done.
        -- exfalso. specialize (Hq (S k0) ltac:(lia)). cbn [Nat.add] in Hq. congruence.
Qed.

(** ** Two concrete runs *)

(** A video of two frames; an environment in which nothing raises and no
    key is pressed, and one without display support, where every
    [cv2.imshow] raises. *)
Definition two_frames : Video :=
  {| v_width := 2; v_height := 2; v_fps := 25%float; v_total_frames := 2;
     v_frames := [colour_2x2; black_2x2] |}.

Definition env_two_frames : Env :=
  {| path_exists := λ _, true; video_at := λ _, Some two_frames;
     clock := λ _, 0%float; key := λ _, -1; fault := λ _ _, None |}.

Definition no_display : exn := Cv2Error "imshow: The function is not implemented".

Definition env_headless : Env :=
  {| path_exists := λ _, true; video_at := λ _, Some two_frames;
     clock := λ _, 0%float; key := λ _, -1;
     fault := λ _ site, match site with AtImshow _ => Some no_display | _ => None end |}.

Lemma imshow_raises E winname img s e :
  fault E (frame_count s) (AtImshow winname) = Some e →
  cv2_imshow E winname img s = (inl e, s).
Proof.
  intros Hf. unfold cv2_imshow, may_raise, gets, mbind, M_bind, bind, raise.
  by rewrite Hf.
Qed.

(** The body of the loop when the first [imshow] raises: the frame is
    counted, transformed and annotated, and nothing is written. *)
Lemma loop_body_without_display E N out total start org fs col th frame s0 a e :
  heap s0 !! frame = Some a → bgr_frame a →
  fault E (S (frame_count s0)) (AtPutText org) = None →
  fault E (S (frame_count s0)) (AtPutText (50%nat, 100%nat)) = None →
  fault E (S (frame_count s0)) (AtImshow "Original Frame") = Some e →
  Z.of_nat (S (frame_count s0)) < 2 ^ 53 →
  outcome (loop_body E N out total start org fs col th frame) s0
    (λ _ _, False)
    (λ e' s', e' = e ∧ frame_count s' = S (frame_count s0) ∧
              writers s' = writers s0 ∧ captures s' = captures s0).
Proof.
  intros Ha Hbgr Hp1 Hp2 Hshow Hsmall.
  unfold loop_body.
  apply outcome_modify_bind, outcome_gets_bind.
  change (frame_count (with_frame_count S s0)) with (S (frame_count s0)).
  apply outcome_emit_bind. fold (counted s0).
  assert (during s0 0 (writers s0) [FrameCount (S (frame_count s0))] (counted s0)) as Hd1.
  { unfold counted. repeat split; state_simpl; rewrite ?Nat.add_0_r; reflexivity. }
  eapply outcome_bind; [apply (run_process_frame N frame s0 (writers s0)), Hd1| |].
  { intros e' s' (Hpf & _). exfalso.
    destruct (derived_total N a Hbgr) as [out' Hout].
    rewrite (process_frame_ok N frame _ (counted s0) a out' Ha Hout) in Hpf.
    discriminate Hpf. }
  intros d s2 [-> Hd2]. clear Hd1.
  eapply outcome_bind; [apply (run_time_time E s0 9 (writers s0)), Hd2|intros ? ? []|].
  intros now s3 [-> Hd3]. clear Hd2. cbv zeta.
  eapply outcome_lift_bind; [apply current_fps_value; lia|].
  unfold annotate.
  apply outcome_assoc. eapply outcome_getitem_bind; [apply dict_at_original|].
  apply outcome_assoc.
  eapply outcome_bind; [apply (run_putText E N s0 9 (writers s0)); [exact Hd3|lia]| |].
  { intros e' s' [_ Hf]. rewrite Hp1 in Hf. discriminate Hf. }
  intros [] s4 Hd4. clear Hd3.
  apply outcome_assoc. eapply outcome_getitem_bind; [apply dict_at_original|].
  eapply outcome_bind; [apply (run_putText E N s0 9 (writers s0)); [exact Hd4|lia]| |].
  { intros e' s' [_ Hf]. rewrite Hp2 in Hf. discriminate Hf. }
  intros [] s5 Hd5. clear Hd4.
  unfold views. cbn [show_all].
  apply outcome_assoc. eapply outcome_getitem_bind; [apply dict_at_original|].
  apply outcome_assoc.
  destruct Hd5 as (Hn & Hc & _ & Hw & _).
  eapply outcome_run_bind; [apply imshow_raises; rewrite Hn; exact Hshow|].
  cbn iota. done.
Qed.

(** The run of [main] without display support, on the two-frame video:
    it raises in the first iteration, after the first frame was counted
    and before anything was written. *)
Lemma headless_run :
  ∃ s1,
    main_with "Demo.mp4" "processed_video.mp4" env_headless sample_numerics initial_state
    = (inl no_display, s1) ∧
    frame_count s1 = 1%nat ∧
    writers s1 = writers (ready "Demo.mp4" "processed_video.mp4" env_headless
                            sample_numerics two_frames) ∧
    captures s1 = captures (ready "Demo.mp4" "processed_video.mp4" env_headless
                              sample_numerics two_frames).
Proof.
  rewrite (main_with_run "Demo.mp4" "processed_video.mp4" env_headless sample_numerics
             two_frames eq_refl eq_refl).
  set (s0 := ready "Demo.mp4" "processed_video.mp4" env_headless sample_numerics two_frames).
  assert (outcome
            (loop env_headless sample_numerics 1 0 (v_total_frames two_frames)
               (clock env_headless 0) (50%nat, 50%nat) 1 [0; 255; 0] 2
               (v_frames two_frames)) s0
            (λ _ _, False)
            (λ e' s', e' = no_display ∧ frame_count s' = 1%nat ∧
                      writers s' = writers s0 ∧ captures s' = captures s0)) as Hloop.
  { cbn [v_frames two_frames loop].
    eapply outcome_run_bind; [apply cap_isOpened_run|]. cbn iota.
    change (from_option opened false (captures s0 !! 1%nat)) with true. cbn [negb].
    eapply outcome_run_bind; [apply cap_read_run|].
    change (fault env_headless (frame_count s0) AtRead) with (@None exn). cbn iota.
    fold (after_read 1 colour_2x2 s0).
    eapply outcome_bind.
    - apply (loop_body_without_display env_headless sample_numerics 0 2 (clock env_headless 0)
               (50%nat, 50%nat) 1 [0; 255; 0] 2 (length (heap s0))
               (after_read 1 colour_2x2 s0) colour_2x2 no_display);
        [reflexivity|exact colour_2x2_bgr|reflexivity..].
    - intros e' s' H. exact H.
    - intros ? ? []. }
  unfold outcome in Hloop. unfold mbind, M_bind, bind.
  destruct (loop _ _ _ _ _ _ _ _ _ _ _ _) as [[e'|[]] s1]; [|done].
  destruct Hloop as (-> & Hn & Hw & Hc). by exists s1.
Qed.

(** C2 as stated fails: without display support the script ends after
    the exception of the first [imshow] with the capture and the writer
    of [main] unreleased, and [cv2.destroyAllWindows()] was not called. *)
Lemma headless_run_releases_nothing :
  ∃ s',
    script_with "Demo.mp4" "processed_video.mp4" env_headless sample_numerics initial_state
    = (inr tt, s') ∧
    capture_released 1 s' = false ∧ writer_released 0 s' = false ∧
    (CaptureRelease 1 ∉ trace s') ∧ (WriterRelease 0 ∉ trace s') ∧
    (DestroyAllWindows ∉ trace s').
Proof.
  destruct headless_run as (s1 & Hrun & _).
  destruct (raised_run_keeps_resources "Demo.mp4" "processed_video.mp4" env_headless
              sample_numerics two_frames no_display s1 eq_refl eq_refl (λ _, eq_refl) Hrun)
    as (Hcr & Hwr & Hno).
  unfold script_with, try_except. rewrite Hrun, handler_run.
  eexists. split; [reflexivity|].
  split; [exact Hcr|]. split; [exact Hwr|]. state_simpl.
  split; [apply not_in_with_handler; [done|by apply Hno]|].
  split; [apply not_in_with_handler; [done|by apply Hno]|].
  apply not_in_with_handler; [done|by apply Hno].
Qed.

(** C4 as stated fails: the same run ends with the frame counter at 1
    and no frame written. *)
Lemma headless_run_counts_unwritten_frame :
  ∃ s',
    main_with "Demo.mp4" "processed_video.mp4" env_headless sample_numerics initial_state
    = (inl no_display, s') ∧
    frame_count s' = 1%nat ∧ written 0 s' = 0%nat.
Proof.
  destruct headless_run as (s1 & Hrun & Hn & Hw & _).
  exists s1. split; [exact Hrun|]. split; [exact Hn|].
  unfold written. rewrite Hw. reflexivity.
Qed.

Lemma resources_after_run_witness :
  ∃ r s1 s',
    main_with "Demo.mp4" "processed_video.mp4" env_two_frames sample_numerics initial_state
    = (r, s1) ∧
    script_with "Demo.mp4" "processed_video.mp4" env_two_frames sample_numerics initial_state
    = (inr tt, s') ∧
    match r with
    | inr _ =>
        s' = s1 ∧
        capture_released 1 s' = true ∧ writer_released 0 s' = true ∧ windows s' = ∅ ∧
        ∃ before, trace s' = before ++ closing_events 1 0 "processed_video.mp4"
    | inl e =>
        (DestroyAllWindows ∉ trace s') ∧
        (∃ before, trace s' = before
                     ++ [Log ERROR ("An error occurred: " +:+ exn_str e);
                         Print ("An error occurred: " +:+ exn_str e)]) ∧
        (((loop env_two_frames sample_numerics 1 0 (v_total_frames two_frames)
             (clock env_two_frames 0) (50%nat, 50%nat) 1 [0; 255; 0] 2 (v_frames two_frames)
             (ready "Demo.mp4" "processed_video.mp4" env_two_frames sample_numerics
                two_frames)).1 = inl e ∧
          capture_released 1 s' = false ∧ writer_released 0 s' = false ∧
          (CaptureRelease 1 ∉ trace s') ∧ (WriterRelease 0 ∉ trace s')) ∨
         ((loop env_two_frames sample_numerics 1 0 (v_total_frames two_frames)
             (clock env_two_frames 0) (50%nat, 50%nat) 1 [0; 255; 0] 2 (v_frames two_frames)
             (ready "Demo.mp4" "processed_video.mp4" env_two_frames sample_numerics
                two_frames)).1 = inr tt ∧
          fault env_two_frames (frame_count s') AtDestroyAllWindows = Some e ∧
          capture_released 1 s' = true ∧ writer_released 0 s' = true ∧
          ∃ before, trace s' = before
                      ++ [CaptureRelease 1; WriterRelease 0;
                          Log ERROR ("An error occurred: " +:+ exn_str e);
                          Print ("An error occurred: " +:+ exn_str e)]))
    end.
Proof.
  apply (resources_after_run "Demo.mp4" "processed_video.mp4" env_two_frames
           sample_numerics two_frames).
  - reflexivity.
  - reflexivity.
Defined.

Lemma frames_written_and_counted_witness :
  ∃ r s',
    main_with "Demo.mp4" "processed_video.mp4" env_two_frames sample_numerics initial_state
    = (r, s') ∧
    r = inr tt ∧ written 0 s' = 2%nat ∧ frame_count s' = 2%nat.
Proof.
  destruct (frames_written_and_counted "Demo.mp4" "processed_video.mp4" env_two_frames
              sample_numerics two_frames eq_refl eq_refl)
    as (r & s' & Hrun & _ & Hok).
  destruct Hok as (Hr & Hall & _).
  - intros n site. reflexivity.
  - repeat constructor; unfold well_formed; simpl; repeat constructor.
  - reflexivity.
  - destruct Hall as [Hw Hn].
    + intros i Hi. reflexivity.
    + exists r, s'. split; [exact Hrun|]. split; [exact Hr|]. split; [exact Hw|exact Hn].
Defined.

(** The same build on a video without frames: the loop ends at once, and
    [cv2.destroyAllWindows()] raises after the capture and the writer
    were released. *)
Definition no_windows : exn :=
  Cv2Error "destroyAllWindows: The function is not implemented".

Definition env_headless_empty : Env :=
  {| path_exists := λ _, true; video_at := λ _, Some empty_video;
     clock := λ _, 0%float; key := λ _, -1;
     fault := λ _ site, match site with
                        | AtImshow _ => Some no_display
                        | AtDestroyAllWindows => Some no_windows
                        | _ => None
                        end |}.

Lemma headless_empty_run :
  ∃ s1 s',
    main_with "Demo.mp4" "processed_video.mp4" env_headless_empty sample_numerics initial_state
    = (inl no_windows, s1) ∧
    script_with "Demo.mp4" "processed_video.mp4" env_headless_empty sample_numerics
      initial_state
    = (inr tt, s') ∧
    capture_released 1 s' = true ∧ writer_released 0 s' = true ∧
    trace s' = ready_events "Demo.mp4" "processed_video.mp4" env_headless_empty
                 sample_numerics empty_video
               ++ [CaptureRead 1 false; Log INFO "End of video reached";
                   CaptureRelease 1; WriterRelease 0;
                   Log ERROR ("An error occurred: " +:+ exn_str no_windows);
                   Print ("An error occurred: " +:+ exn_str no_windows)].
Proof.
  eexists _, _. split; [|split].
  - vm_compute. reflexivity.
  - vm_compute. reflexivity.
  - split; [reflexivity|]. split; reflexivity.
Qed.

(** * Further properties of the program *)

(** ** [process_frame] on any input *)

(** X1.  Whatever the frame and the target size, and whether or not it
    raises, [process_frame] only adds arrays to the store and OpenCV
    calls to the trace: every array that existed before is unchanged,
    and so are the captures, the writers, the windows and the counter.
    When it returns, the calls are the fixed sequence in which 'gray',
    'hls' and 'hsv' are computed from the resized frame and 'thresh',
    'laplacian', 'blur' and 'equalized' from 'gray'; when it raises,
    they are a proper prefix of that sequence. *)
Theorem process_frame_only_appends N frame ts s :
  ∃ r s' out evs,
    process_frame N frame ts s = (r, s') ∧
    heap s' = heap s ++ out ∧ trace s' = trace s ++ evs ∧
    captures s' = captures s ∧ writers s' = writers s ∧
    windows s' = windows s ∧ frame_count s' = frame_count s ∧
    match r with
    | inr d =>
        evs = cv2_events frame (length (heap s)) ∧ d = dict_at (length (heap s)) ∧
        ∃ a, heap s !! frame = Some a ∧ derived N ts a out
    | inl _ =>
        ∃ rest, rest ≠ [] ∧ cv2_events frame (length (heap s)) = evs ++ rest
    end.
Proof.
  pose proof (process_frame_run N frame ts s) as Hrun.
  destruct (process_frame N frame ts s) as [[e|d] s'].
  - destruct Hrun as (out & evs & rest & -> & Hev & Hrest).
    exists (inl e), (grow out evs s), out, evs.
    repeat (split; [reflexivity|]). by exists rest.
  - destruct Hrun as (a & out & Ha & Hder & -> & ->).
    exists (inr (dict_at (length (heap s)))),
      (grow out (cv2_events frame (length (heap s))) s), out,
      (cv2_events frame (length (heap s))).
    repeat (split; [reflexivity|]). by exists a.
Qed.

(** An array without pixels, as a failed decode could leave one. *)
Definition empty_array : ndarray :=
  {| rows := 0; cols := 0; channels := 3; depth := U8; data := [] |}.

(** X2.  An empty frame and an empty target size are rejected by the
    first call, [cv2.resize]: [process_frame] raises before any array is
    created, and leaves the state exactly as it found it. *)
Theorem process_frame_rejects_empty N frame ts s a :
  heap s !! frame = Some a →
  (is_empty a = true →
     process_frame N frame ts s = (inl (Cv2Error "resize: !ssize.empty()"), s)) ∧
  (is_empty a = false → ts.1 = 0%nat ∨ ts.2 = 0%nat →
     process_frame N frame ts s = (inl (Cv2Error "resize: !dsize.empty()"), s)).
Proof.
  intros Ha.
  assert (∀ e, cv2.resize N a ts = inl e → process_frame N frame ts s = (inl e, s)) as Hfail.
  { intros e He.
    replace (process_frame N frame ts s) with (process_frame N frame ts (grow [] [] s))
      by (by rewrite grow_nil).
    unfold process_frame, mbind, M_bind.
    rewrite bind_cv2_call. cbn [length app]. rewrite app_nil_r, Ha, He.
    by rewrite grow_nil. }
  split.
  - intros Hemp. apply Hfail. unfold cv2.resize. destruct ts as [w h]. by rewrite Hemp.
  - intros Hemp Hts. apply Hfail. unfold cv2.resize. destruct ts as [w h].
    rewrite Hemp. simpl in Hts.
    destruct Hts as [-> | ->]; [reflexivity|].
    by rewrite orb_true_r.
Qed.

Lemma process_frame_rejects_empty_witness :
  process_frame sample_numerics 0%nat default_target_size (state_of [empty_array])
  = (inl (Cv2Error "resize: !ssize.empty()"), state_of [empty_array]) ∧
  process_frame sample_numerics 0%nat (0%nat, 380%nat) (state_of [colour_2x2])
  = (inl (Cv2Error "resize: !dsize.empty()"), state_of [colour_2x2]).
Proof.
  split.
  - apply (process_frame_rejects_empty sample_numerics 0%nat default_target_size
             (state_of [empty_array]) empty_array); reflexivity.
  - apply (process_frame_rejects_empty sample_numerics 0%nat (0%nat, 380%nat)
             (state_of [colour_2x2]) colour_2x2); [reflexivity..|].
    left. reflexivity.
Defined.

(** ** The ranges of the outputs *)

(** Outside of its shape a well-formed array reads as 0. *)
Lemma px_outside a y x c :
  well_formed a → ¬ ((y < rows a)%nat ∧ (x < cols a)%nat ∧ (c < channels a)%nat) →
  px a y x c = 0.
Proof.
  intros [Hlen Hrows] Hout.
  destruct (decide (y < rows a)%nat) as [Hy|Hy].
  2:{ unfold px. rewrite (nth_overflow (data a)) by (rewrite Hlen; lia). by destruct x, c. }
  destruct (data a !! y) as [row|] eqn:Hrow.
  2:{ apply lookup_ge_None in Hrow. lia. }
  pose proof (proj1 (Forall_lookup _ _) Hrows y row Hrow) as [Hc Hpx].
  destruct (decide (x < cols a)%nat) as [Hx|Hx].
  2:{ unfold px. rewrite (nth_lookup_Some _ _ _ row Hrow).
      rewrite (nth_overflow row) by (rewrite Hc; lia). by destruct c. }
  destruct (row !! x) as [p|] eqn:Hp.
  2:{ apply lookup_ge_None in Hp. lia. }
  pose proof (proj1 (Forall_lookup _ _) Hpx x p Hp) as Hch.
  unfold px. rewrite (nth_lookup_Some _ _ _ row Hrow), (nth_lookup_Some _ _ _ p Hp).
  apply nth_overflow. rewrite Hch. lia.
Qed.

(** A table whose entries satisfy [P], as 0 does, reads everywhere as a
    value that satisfies [P]. *)
Lemma px_tabulate_all (P : Z → Prop) h w ch d f :
  P 0 → (∀ y x c, P (f y x c)) → ∀ y x c, P (px (tabulate h w ch d f) y x c).
Proof.
  intros H0 Hf y x c.
  destruct (decide ((y < h)%nat ∧ (x < w)%nat ∧ (c < ch)%nat)) as [(Hy & Hx & Hc)|Hout].
  - by rewrite px_tabulate.
  - rewrite px_outside; [done|apply tabulate_well_formed|done].
Qed.

Lemma saturate_u8_range v : 0 ≤ cv2.saturate_u8 v ≤ 255.
Proof. unfold cv2.saturate_u8. lia. Qed.

(** The array a dict entry refers to. *)
Definition entry (d : gmap string ref) (s : State) (k : string) : option ndarray :=
  d !! k ≫= λ r, heap s !! r.

(** X3.  For every frame of the decoder, the 'thresh' output is a binary
    mask: each of its elements is 0 or 255.  The elements of 'laplacian'
    and of 'blur' lie between 0 and 255. *)
Theorem thresh_is_binary N s frame a :
  heap s !! frame = Some a → bgr_frame a →
  ∃ d s' thresh lap blur,
    process_frame N frame default_target_size s = (inr d, s') ∧
    entry d s' "thresh" = Some thresh ∧
    entry d s' "laplacian" = Some lap ∧
    entry d s' "blur" = Some blur ∧
    ∀ y x c,
      (px thresh y x c = 0 ∨ px thresh y x c = 255) ∧
      0 ≤ px lap y x c ≤ 255 ∧
      0 ≤ px blur y x c ≤ 255.
Proof.
  intros Ha Hbgr.
  destruct (process_frame_views N s frame a Ha Hbgr) as (out & Hder & Hrun & _).
  destruct Hder as [r g hl hv t l64 l b e Hr Hg Hhl Hhv Ht Hl64 Hl Hb He].
  eexists _, _, t, l, b. split; [exact Hrun|].
  unfold entry.
  rewrite dict_at_thresh, dict_at_laplacian, dict_at_blur. cbn [mbind option_bind].
  unfold grow, with_trace, with_heap. cbn [heap].
  rewrite !lookup_grown. do 3 (split; [reflexivity|]).
  intros y x c. split; [|split].
  - revert Ht. unfold cv2.adaptiveThreshold.
    destruct (negb (cv2.is_8UC1 g)); [discriminate|].
    cbn [Nat.odd negb andb Nat.ltb Nat.leb]. change (255 <? 0) with false. cbv iota.
    intros [= <-].
    apply (px_tabulate_all (λ v, v = 0 ∨ v = 255)); [by left|].
    intros y' x' c'. unfold cv2.thresh_px.
    destruct (_ <=? _); [right; reflexivity|by left].
  - revert Hl. unfold cv2.convertScaleAbs. intros [= <-].
    apply (px_tabulate_all (λ v, 0 ≤ v ≤ 255)); [lia|].
    intros; apply saturate_u8_range.
  - revert Hb. unfold cv2.GaussianBlur.
    destruct (is_empty g); [discriminate|]. intros [= <-].
    apply (px_tabulate_all (λ v, 0 ≤ v ≤ 255)); [lia|].
    intros; apply saturate_u8_range.
Qed.

Lemma thresh_is_binary_witness :
  ∃ d s' thresh lap blur,
    process_frame sample_numerics 0%nat default_target_size (state_of [colour_2x2])
    = (inr d, s') ∧
    entry d s' "thresh" = Some thresh ∧
    entry d s' "laplacian" = Some lap ∧
    entry d s' "blur" = Some blur ∧
    ∀ y x c,
      (px thresh y x c = 0 ∨ px thresh y x c = 255) ∧
      0 ≤ px lap y x c ≤ 255 ∧
      0 ≤ px blur y x c ≤ 255.
Proof.
  apply (thresh_is_binary sample_numerics (state_of [colour_2x2]) 0%nat colour_2x2).
  - reflexivity.
  - exact colour_2x2_bgr.
Defined.

(** ** The quit key *)

(** X7.  The key test of line 199 looks at the low byte of the code
    only: the loop is left exactly on the codes that are 113 ('q')
    modulo 256.  The code -1 of a wait that timed out does not stop it,
    and neither does 'Q'. *)
Theorem quit_key_low_byte code :
  is_quit code = true ↔ code `mod` 256 = 113.
Proof.
  unfold is_quit. change 255 with (Z.ones 8).
  rewrite Z.land_ones by lia. change (2 ^ 8) with 256.
  apply Z.eqb_eq.
Qed.

(** ** The writer of [main] *)

Lemma write_frames_fields imgs : ∀ w,
  out_path (write_frames imgs w) = out_path w ∧
  out_fourcc (write_frames imgs w) = out_fourcc w ∧
  out_fps (write_frames imgs w) = out_fps w ∧
  out_size (write_frames imgs w) = out_size w.
Proof.
  induction imgs as [|a imgs IH]; intros w; [done|].
  rewrite write_frames_cons.
  destruct (IH (write_frame a w)) as (-> & -> & -> & ->).
  unfold write_frame. by destruct (out_released w).
Qed.

(** X4.  A run that passed input validation has exactly one writer, from
    [initialize_video_writer] to the end of the run and whether or not
    the run raises: it writes to the output path with the codec 'mp4v',
    at the frame rate of the source and at 540x380, whatever the size of
    the source. *)
Theorem writer_of_run video_path output_path E N v :
  path_exists E video_path = true → video_at E video_path = Some v →
  ∃ r s' w,
    main_with video_path output_path E N initial_state = (r, s') ∧
    writers s' = [w] ∧
    out_path w = output_path ∧ out_fourcc w = "mp4v" ∧
    out_fps w = v_fps v ∧ out_size w = (540%nat, 380%nat).
Proof.
  intros Hex Hv.
  pose proof (main_outcome video_path output_path E N v Hex Hv) as Hm.
  unfold outcome in Hm.
  destruct (main_with video_path output_path E N initial_state) as [[e|[]] s1].
  - destruct Hm as [(_ & k & imgs & seen & rest & _ & _ & Hw & _)
                    |(s2 & (k & imgs & ending & _ & _ & _ & Hw & _) & _ & ->)];
      cbn [ready writers alter list_alter] in Hw.
    + eexists (inl e), s1, _. split; [reflexivity|]. split; [exact Hw|].
      apply write_frames_fields.
    + eexists (inl e), _, _. split; [reflexivity|].
      unfold released. cbn [writers]. rewrite Hw. cbn [alter list_alter].
      split; [reflexivity|]. cbn [out_path out_fourcc out_fps out_size].
      apply write_frames_fields.
  - destruct Hm as (s2 & (k & imgs & ending & _ & _ & _ & Hw & _) & _ & ->).
    cbn [ready writers alter list_alter] in Hw.
    eexists (inr ()), _, _. split; [reflexivity|].
    unfold closed. cbn [writers]. rewrite Hw. cbn [alter list_alter].
    split; [reflexivity|]. cbn [out_path out_fourcc out_fps out_size].
    apply write_frames_fields.
Qed.

Lemma writer_of_run_witness :
  ∃ r s' w,
    main_with "Demo.mp4" "processed_video.mp4" env_two_frames sample_numerics initial_state
    = (r, s') ∧
    writers s' = [w] ∧
    out_path w = "processed_video.mp4" ∧ out_fourcc w = "mp4v" ∧
    out_fps w = v_fps two_frames ∧ out_size w = (540%nat, 380%nat).
Proof.
  apply (writer_of_run "Demo.mp4" "processed_video.mp4" env_two_frames sample_numerics
           two_frames); reflexivity.
Defined.

(** ** The log of the frames *)

(** s.startswith(p) *)
Fixpoint starts_with (p s : string) : bool :=
  match p with
  | EmptyString => true
  | String a p' =>
      match s with
      | EmptyString => false
      | String b s' => (Ascii.eqb a b && starts_with p' s')%bool
      end
  end.

(** The entries of line 196 in a trace. *)
Definition frame_logs (t : list event) : list string :=
  omap (λ ev, match ev with
              | Log INFO msg =>
                  if starts_with "Processed frame " msg then Some msg else None
              | _ => None
              end) t.

Lemma frame_logs_app t1 t2 : frame_logs (t1 ++ t2) = frame_logs t1 ++ frame_logs t2.
Proof. apply omap_app. Qed.

Lemma frame_logs_iteration E N cap out total start org n h :
  frame_logs (iteration_events E N cap out total start org n h)
  = ["Processed frame " +:+ pretty n].
Proof. reflexivity. Qed.

Lemma frame_logs_iterations E N cap out total start org k : ∀ n h,
  frame_logs (iterations E N cap out total start org k n h)
  = (λ i, "Processed frame " +:+ pretty i) <$> seq (S n) k.
Proof.
  induction k as [|k IH]; intros n h; cbn [iterations]; [reflexivity|].
  rewrite frame_logs_app, frame_logs_iteration, IH. reflexivity.
Qed.

Lemma frame_logs_ready video_path output_path E N v :
  frame_logs (ready_events video_path output_path E N v) = [].
Proof. reflexivity. Qed.

Lemma frame_logs_closing cap out output_path :
  frame_logs (closing_events cap out output_path) = [].
Proof. reflexivity. Qed.

(** X6.  Every run that passed input validation logs the frames by
    their numbers, in order and without gaps or repetitions: its
    'Processed frame n' entries are those of n = 1, ..., j.  When the
    run ends with the end of the stream or the quit key, j is the number
    of frames written; when the run raises, j is at most the frame
    counter. *)
Theorem frames_logged_in_order video_path output_path E N v :
  path_exists E video_path = true → video_at E video_path = Some v →
  ∃ r s' j,
    main_with video_path output_path E N initial_state = (r, s') ∧
    frame_logs (trace s') = (λ i, "Processed frame " +:+ pretty i) <$> seq 1 j ∧
    match r with
    | inr _ => j = written 0 s'
    | inl _ => (j ≤ frame_count s')%nat
    end.
Proof.
  intros Hex Hv.
  pose proof (main_outcome video_path output_path E N v Hex Hv) as Hm.
  unfold outcome in Hm.
  destruct (main_with video_path output_path E N initial_state) as [[e|[]] s1].
  - destruct Hm as [(_ & k & imgs & seen & rest & _ & _ & _ & _ & Ht & Hev & _ & Hcnt)
                    |(s2 & (k & imgs & ending & _ & _ & _ & _ & Hn & Ht & Hend) & _ & ->)].
    2:{ cbn [ready trace heap frame_count length] in Ht, Hn.
        exists (inl e), (released 1 0 s2), k. split; [reflexivity|].
        split; [|cbn [released frame_count]; lia].
        unfold released. cbn [trace].
        rewrite Ht, !frame_logs_app, frame_logs_ready, frame_logs_iterations.
        assert (frame_logs ending = []) as ->
          by (by destruct Hend as [(_ & _ & ->)|(k' & _ & _ & _ & ->)]).
        cbn [app]. by rewrite !app_nil_r. }
    cbn [ready trace heap frame_count length Nat.add] in Ht, Hev, Hcnt.
    apply (f_equal frame_logs) in Hev.
    rewrite frame_logs_iteration, frame_logs_app in Hev.
    assert (frame_logs (trace s1)
            = ((λ i, "Processed frame " +:+ pretty i) <$> seq 1 k) ++ frame_logs seen) as Hlog.
    { rewrite Ht, !frame_logs_app, frame_logs_ready, frame_logs_iterations. reflexivity. }
    destruct (frame_logs seen) as [|m [|m' ms]] eqn:Hseen.
    + exists (inl e), s1, k. split; [reflexivity|].
      split; [by rewrite Hlog, app_nil_r|].
      destruct Hcnt as [(_ & -> & _)|(-> & _)]; lia.
    + injection Hev as Hm _.
      exists (inl e), s1, (S k). split; [reflexivity|]. split.
      * rewrite Hlog, seq_S, fmap_app, <- Hm. reflexivity.
      * destruct Hcnt as [(-> & _)|(-> & _)]; [discriminate Hseen|lia].
    + discriminate Hev.
  - destruct Hm as
      (s2 & (k & imgs & ending & _ & Hlen & _ & Hw & _ & Ht & Hend) & _ & ->).
    cbn [ready trace heap frame_count length] in Ht.
    destruct (ready_writer video_path output_path E N v imgs s2 Hw) as (_ & _ & Hwr & _).
    exists (inr ()), (closed 1 0 output_path s2), k. split; [reflexivity|].
    split; [|by rewrite Hwr].
    unfold closed. cbn [trace].
    rewrite Ht, !frame_logs_app, frame_logs_ready, frame_logs_iterations, frame_logs_closing.
    assert (frame_logs ending = []) as ->
      by (by destruct Hend as [(_ & _ & ->)|(k' & _ & _ & _ & ->)]).
    cbn [app]. by rewrite !app_nil_r.
Qed.

Lemma frames_logged_in_order_witness :
  ∃ r s' j,
    main_with "Demo.mp4" "processed_video.mp4" env_headless sample_numerics initial_state
    = (r, s') ∧
    frame_logs (trace s') = (λ i, "Processed frame " +:+ pretty i) <$> seq 1 j ∧
    match r with
    | inr _ => j = written 0 s'
    | inl _ => (j ≤ frame_count s')%nat
    end.
Proof.
  apply (frames_logged_in_order "Demo.mp4" "processed_video.mp4" env_headless
           sample_numerics two_frames); reflexivity.
Defined.

(** ** A run without exceptions *)

(** X8.  With fewer than 2^53 frames of the decoder and no exception
    from the environment, the script ends normally and its trace is: the
    preamble of lines 109-136, k full iterations, the ending, and the
    three releases with the closing log entry and message.  Either no
    quit key was seen, k is the number of frames of the source and the
    ending is the failed read with 'End of video reached'; or the first
    quit key came at frame k and the ending is 'User interrupted video
    processing'.  No error is logged, and k frames were counted and
    written. *)
Theorem run_without_exceptions video_path output_path E N v :
  path_exists E video_path = true → video_at E video_path = Some v →
  (∀ n site, fault E n site = None) → Forall bgr_frame (v_frames v) →
  Z.of_nat (length (v_frames v)) < 2 ^ 53 →
  ∃ s' k ending,
    script_with video_path output_path E N initial_state = (inr tt, s') ∧
    trace s' = ready_events video_path output_path E N v
               ++ iterations E N 1 0 (v_total_frames v) (clock E 0) (50%nat, 50%nat) k 0 0
               ++ ending ++ closing_events 1 0 output_path ∧
    frame_count s' = k ∧ written 0 s' = k ∧
    ((k = length (v_frames v) ∧ no_quit E 0 k ∧
      ending = [CaptureRead 1 false; Log INFO "End of video reached"]) ∨
     ((0 < k ≤ length (v_frames v))%nat ∧ no_quit E 0 (k - 1) ∧
      is_quit (key E k) = true ∧
      ending = [Log INFO "User interrupted video processing"])).
Proof.
  intros Hex Hv Hnone Hbgr Hsmall.
  pose proof (main_outcome video_path output_path E N v Hex Hv) as Hm.
  unfold outcome in Hm. unfold script_with, try_except.
  destruct (main_with video_path output_path E N initial_state) as [[e|[]] s1].
  - exfalso. destruct Hm as [Hm|(s2 & _ & Hf & _)].
    + by eapply loop_raises_cause.
    + by rewrite Hnone in Hf.
  - destruct Hm as
      (s2 & (k & imgs & ending & Hk & Hlen & _ & Hw & Hn & Ht & Hend) & _ & ->).
    cbn [ready trace heap frame_count length Nat.add] in Ht, Hn, Hend.
    destruct (ready_writer video_path output_path E N v imgs s2 Hw) as (_ & _ & Hwr & _).
    exists (closed 1 0 output_path s2), k, ending. split; [reflexivity|].
    split; [unfold closed; cbn [trace]; by rewrite Ht, <- !app_assoc|].
    split; [exact Hn|]. split; [by rewrite Hwr|].
    destruct Hend as [(-> & Hq & ->)|(k' & -> & Hq & Hquit & ->)].
    + left. done.
    + right. split; [lia|]. split; [by rewrite Nat.sub_succ, Nat.sub_0_r|done].
Qed.

Lemma run_without_exceptions_witness :
  ∃ s' k ending,
    script_with "Demo.mp4" "processed_video.mp4" env_two_frames sample_numerics initial_state
    = (inr tt, s') ∧
    trace s' = ready_events "Demo.mp4" "processed_video.mp4" env_two_frames sample_numerics
                 two_frames
               ++ iterations env_two_frames sample_numerics 1 0 (v_total_frames two_frames)
                    (clock env_two_frames 0) (50%nat, 50%nat) k 0 0
               ++ ending ++ closing_events 1 0 "processed_video.mp4" ∧
    frame_count s' = k ∧ written 0 s' = k ∧
    ((k = length (v_frames two_frames) ∧ no_quit env_two_frames 0 k ∧
      ending = [CaptureRead 1 false; Log INFO "End of video reached"]) ∨
     ((0 < k ≤ length (v_frames two_frames))%nat ∧ no_quit env_two_frames 0 (k - 1) ∧
      is_quit (key env_two_frames k) = true ∧
      ending = [Log INFO "User interrupted video processing"])).
Proof.
  apply (run_without_exceptions "Demo.mp4" "processed_video.mp4" env_two_frames
           sample_numerics two_frames).
  - reflexivity.
  - reflexivity.
  - intros n site. reflexivity.
  - constructor; [apply colour_2x2_bgr|].
    constructor; [apply black_2x2_bgr|constructor].
  - reflexivity.
Defined.

(** ** What the encoder receives *)

(** The two overlays of lines 163-180 on the array [img], for the frame
    number [n]. *)
Definition overlays (E : Env) (N : Numerics) (total_frames : Z) (start_time : float)
    (org : nat * nat) (font_scale : Z) (color : list Z) (thickness : Z)
    (n : nat) (img : ndarray) : ndarray :=
  cv2.putText N
    (cv2.putText N img ("Frame: " +:+ pretty n +:+ "/" +:+ pretty total_frames)
       org font_scale color thickness)
    ("FPS: " +:+ format_2f N (fps_value (Z.of_nat n) (clock E n - start_time)%float))
    (50%nat, 100%nat) font_scale color thickness.

(** The frame [a] of number [n] as lines 156-193 hand it to the writer:
    resized, then annotated. *)
Definition encoded (E : Env) (N : Numerics) (total_frames : Z) (start_time : float)
    (org : nat * nat) (font_scale : Z) (color : list Z) (thickness : Z)
    (n : nat) (a : ndarray) : option ndarray :=
  match cv2.resize N a default_target_size with
  | inr resized =>
      Some (overlays E N total_frames start_time org font_scale color thickness n resized)
  | inl _ => None
  end.

(** The same for the frames that follow frame [n]. *)
Fixpoint encoded_from (E : Env) (N : Numerics) (total_frames : Z) (start_time : float)
    (org : nat * nat) (font_scale : Z) (color : list Z) (thickness : Z)
    (n : nat) (frames : list ndarray) : list (option ndarray) :=
  match frames with
  | [] => []
  | a :: rest =>
      encoded E N total_frames start_time org font_scale color thickness (S n) a
      :: encoded_from E N total_frames start_time org font_scale color thickness (S n) rest
  end.

(** What holds of the state while the body of the loop runs on [s0],
    from the return of [process_frame] on: the 'original' entry holds
    [x] and the writers are [ws]. *)
Definition tracking (s0 : State) (x : ndarray) (ws : list Writer) (s : State) : Prop :=
  frame_count s = S (frame_count s0) ∧ captures s = captures s0 ∧
  heap s !! (length (heap s0) + 0)%nat = Some x ∧
  (length (heap s0) + 9 ≤ length (heap s))%nat ∧
  writers s = ws.

(** The frames the loop wrote are the first of those it was to write. *)
Definition wrote (E : Env) (N : Numerics) (out : ref) (total_frames : Z)
    (start_time : float) (org : nat * nat) (font_scale : Z) (color : list Z)
    (thickness : Z) (frames : list ndarray) (s s' : State) : Prop :=
  ∃ imgs,
    writers s' = alter (write_frames imgs) out (writers s) ∧
    Some <$> imgs `prefix_of`
      encoded_from E N total_frames start_time org font_scale color thickness
        (frame_count s) frames.

Section Tracking.
Context (E : Env) (N : Numerics) (s0 : State) (ws : list Writer).

Lemma track_emit ev x s :
  tracking s0 x ws s →
  outcome (emit ev) s (λ _ s', tracking s0 x ws s') (λ _ s', tracking s0 x ws s').
Proof. intros H. exact H. Qed.

Lemma track_time_time x s :
  tracking s0 x ws s →
  outcome (time_time E) s
    (λ now s', now = clock E (S (frame_count s0)) ∧ tracking s0 x ws s')
    (λ _ s', tracking s0 x ws s').
Proof.
  intros (Hn & Hc & Hx & Hl & Hw).
  unfold outcome, time_time, emit, modify, gets, mbind, M_bind, bind, ret.
  state_simpl. rewrite Hn. by repeat split.
Qed.

Lemma track_putText text org fs col th x s :
  tracking s0 x ws s →
  outcome (cv2_putText E N (length (heap s0) + 0) text org fs col th) s
    (λ _ s', tracking s0 (cv2.putText N x text org fs col th) ws s')
    (λ _ s', tracking s0 x ws s').
Proof.
  intros (Hn & Hc & Hx & Hl & Hw).
  unfold outcome, cv2_putText, may_raise, load, store, emit, modify, gets,
    mbind, M_bind, bind, ret, raise. state_simpl.
  destruct (fault E (frame_count s) (AtPutText org)); [by repeat split|].
  rewrite Hx. cbv beta iota. unfold tracking. state_simpl.
  split; [exact Hn|]. split; [exact Hc|].
  split; [apply list_lookup_insert_eq; lia|].
  split; [by rewrite length_insert|exact Hw].
Qed.

Lemma track_imshow winname img x s :
  tracking s0 x ws s → (img < length (heap s0) + 9)%nat →
  outcome (cv2_imshow E winname img) s
    (λ _ s', tracking s0 x ws s') (λ _ s', tracking s0 x ws s').
Proof.
  intros (Hn & Hc & Hx & Hl & Hw) Himg.
  unfold outcome, cv2_imshow, may_raise, load, emit, modify, gets,
    mbind, M_bind, bind, ret, raise. state_simpl.
  destruct (fault E (frame_count s) (AtImshow winname)); [by repeat split|].
  destruct (heap s !! img) as [a|] eqn:Ha.
  2:{ apply lookup_ge_None in Ha. lia. }
  state_simpl. by repeat split.
Qed.

Lemma track_write out x s :
  tracking s0 x ws s →
  outcome (out_write E out (length (heap s0) + 0)) s
    (λ _ s', tracking s0 x (alter (write_frame x) out ws) s')
    (λ _ s', tracking s0 x ws s').
Proof.
  intros (Hn & Hc & Hx & Hl & Hw).
  unfold outcome, out_write, may_raise, load, emit, modify, gets,
    mbind, M_bind, bind, ret, raise. state_simpl.
  destruct (fault E (frame_count s) AtWrite); [by repeat split|].
  rewrite Hx. state_simpl. rewrite Hw. by repeat split.
Qed.

Lemma track_waitKey delay x s :
  tracking s0 x ws s →
  outcome (cv2_waitKey E delay) s
    (λ _ s', tracking s0 x ws s') (λ _ s', tracking s0 x ws s').
Proof.
  intros (Hn & Hc & Hx & Hl & Hw).
  unfold outcome, cv2_waitKey, may_raise, emit, modify, gets,
    mbind, M_bind, bind, ret, raise. state_simpl.
  destruct (fault E (frame_count s) AtWaitKey); by repeat split.
Qed.
End Tracking.

(** [process_frame] in the body leaves the resized frame in the
    'original' entry. *)
Lemma track_process_frame N frame s0 a :
  heap s0 !! frame = Some a →
  outcome (process_frame N frame default_target_size) (counted s0)
    (λ d s', d = dict_at (length (heap s0)) ∧
             ∃ resized, cv2.resize N a default_target_size = inr resized ∧
                        tracking s0 resized (writers s0) s')
    (λ _ s', captures s' = captures s0 ∧ writers s' = writers s0).
Proof.
  intros Ha. unfold outcome.
  pose proof (process_frame_run N frame default_target_size (counted s0)) as Hrun.
  destruct (process_frame N frame default_target_size (counted s0)) as [[e|d] s'].
  - destruct Hrun as (out & evs & rest & -> & _). done.
  - destruct Hrun as (a' & out & Ha' & Hder & -> & ->).
    change (heap (counted s0)) with (heap s0) in *.
    rewrite Ha in Ha'. injection Ha' as <-.
    split; [reflexivity|].
    destruct Hder as [r g hl hv t l64 l b e Hr Hg Hhl Hhv Ht Hl64 Hl Hb He].
    exists r. split; [exact Hr|].
    repeat split.
    + rewrite heap_grow. change (heap (counted s0)) with (heap s0).
      by rewrite lookup_grown.
    + rewrite heap_grow, length_app. change (heap (counted s0)) with (heap s0).
      simpl. lia.
Qed.

Ltac track_show Ht lem :=
  apply outcome_assoc; eapply outcome_getitem_bind; [apply lem|];
  apply outcome_assoc;
  eapply outcome_bind;
    [eapply track_imshow; [exact Ht|lia]
    |intros ? ? (_ & ? & _ & _ & ?); split; [assumption|left; assumption]|].

(** One turn of the loop on the frame [a]: when the writer received a
    frame, it received [a] resized and annotated. *)
Lemma loop_body_frame E N out total start org fs col th frame s0 a :
  heap s0 !! frame = Some a →
  outcome (loop_body E N out total start org fs col th frame) s0
    (λ _ s', ∃ x,
       encoded E N total start org fs col th (S (frame_count s0)) a = Some x ∧
       frame_count s' = S (frame_count s0) ∧ captures s' = captures s0 ∧
       writers s' = alter (write_frame x) out (writers s0))
    (λ _ s',
       captures s' = captures s0 ∧
       (writers s' = writers s0 ∨
        ∃ x, encoded E N total start org fs col th (S (frame_count s0)) a = Some x ∧
             writers s' = alter (write_frame x) out (writers s0))).
Proof.
  intros Ha. unfold loop_body.
  apply outcome_modify_bind, outcome_gets_bind.
  change (frame_count (with_frame_count S s0)) with (S (frame_count s0)).
  apply outcome_emit_bind. fold (counted s0).
  eapply outcome_bind; [apply (track_process_frame N frame s0 a Ha)| |].
  { intros e s' [Hc Hw]. split; [exact Hc|by left]. }
  intros d s2 (-> & r & Hr & Ht2).
  eapply outcome_bind; [apply (track_time_time E s0 (writers s0)), Ht2| |].
  { intros e s' (_ & Hc & _ & _ & Hw). split; [exact Hc|by left]. }
  intros now s3 [-> Ht3]. clear Ht2. cbv zeta.
  destruct (current_fps_run (Z.of_nat (S (frame_count s0)))
              (clock E (S (frame_count s0)) - start)%float) as [Hfps|[Hfps _]].
  2:{ eapply outcome_lift_raise; [exact Hfps|].
      destruct Ht3 as (_ & Hc & _ & _ & Hw). split; [exact Hc|by left]. }
  eapply outcome_lift_bind; [exact Hfps|].
  unfold annotate.
  apply outcome_assoc. eapply outcome_getitem_bind; [apply dict_at_original|].
  apply outcome_assoc.
  eapply outcome_bind; [apply (track_putText E N s0 (writers s0)), Ht3| |].
  { intros e s' (_ & Hc & _ & _ & Hw). split; [exact Hc|by left]. }
  intros [] s4 Ht4. clear Ht3.
  apply outcome_assoc. eapply outcome_getitem_bind; [apply dict_at_original|].
  eapply outcome_bind; [apply (track_putText E N s0 (writers s0)), Ht4| |].
  { intros e s' (_ & Hc & _ & _ & Hw). split; [exact Hc|by left]. }
  intros [] s5 Ht5. clear Ht4.
  fold (overlays E N total start org fs col th (S (frame_count s0)) r) in Ht5.
  unfold views. cbn [show_all].
  track_show Ht5 dict_at_original. intros [] s6 Ht6. clear Ht5.
  track_show Ht6 dict_at_gray. intros [] s7 Ht7. clear Ht6.
  track_show Ht7 dict_at_hls. intros [] s8 Ht8. clear Ht7.
  track_show Ht8 dict_at_hsv. intros [] s9 Ht9. clear Ht8.
  track_show Ht9 dict_at_thresh. intros [] s10 Ht10. clear Ht9.
  track_show Ht10 dict_at_laplacian. intros [] s11 Ht11. clear Ht10.
  track_show Ht11 dict_at_blur. intros [] s12 Ht12. clear Ht11.
  track_show Ht12 dict_at_equalized. intros [] s13 Ht13. clear Ht12.
  apply outcome_ret_bind.
  eapply outcome_getitem_bind; [apply dict_at_original|].
  assert (encoded E N total start org fs col th (S (frame_count s0)) a
          = Some (overlays E N total start org fs col th (S (frame_count s0)) r)) as Henc.
  { unfold encoded. by rewrite Hr. }
  eapply outcome_bind; [eapply track_write, Ht13| |].
  { intros e s' (_ & Hc & _ & _ & Hw). split; [exact Hc|by left]. }
  intros [] s14 Ht14. clear Ht13.
  eapply outcome_bind; [eapply track_emit, Ht14| |].
  { intros e s' (_ & Hc & _ & _ & Hw). split; [exact Hc|]. right. by eexists. }
  intros [] s15 Ht15. clear Ht14.
  eapply outcome_bind; [eapply track_waitKey, Ht15| |].
  { intros e s' (_ & Hc & _ & _ & Hw). split; [exact Hc|]. right. by eexists. }
  intros code s16 Ht16. clear Ht15.
  destruct (Z.land code 255 =? 113).
  - eapply outcome_bind; [eapply track_emit, Ht16| |].
    { intros e s' (_ & Hc & _ & _ & Hw). split; [exact Hc|]. right. by eexists. }
    intros [] s17 (Hn & Hc & _ & _ & Hw). apply outcome_ret. by eexists.
  - destruct Ht16 as (Hn & Hc & _ & _ & Hw). apply outcome_ret. by eexists.
Qed.

(** Every run of the loop, with or without exceptions: the frames the
    writer received are, in order, the first frames of the source,
    resized and annotated with their numbers. *)
Lemma loop_frames E N cap out total start org fs col th frames : ∀ s,
  outcome (loop E N cap out total start org fs col th frames) s
    (λ _ s', wrote E N out total start org fs col th frames s s')
    (λ _ s', wrote E N out total start org fs col th frames s s').
Proof.
  assert (∀ fr s, wrote E N out total start org fs col th fr s s) as Hnone.
  { intros fr s. exists []. split; [by rewrite list_alter_id|apply prefix_nil]. }
  induction frames as [|next rest IH]; intros s; cbn [loop].
  - eapply outcome_run_bind; [apply cap_isOpened_run|].
    destruct (from_option opened false (captures s !! cap)); cbn [negb];
      [|apply outcome_ret, Hnone].
    eapply outcome_run_bind; [apply cap_read_run|].
    destruct (fault E (frame_count s) AtRead) as [e|]; cbn iota; [apply Hnone|].
    unfold outcome, logger_info, emit, modify. apply (Hnone [] s).
  - eapply outcome_run_bind; [apply cap_isOpened_run|].
    destruct (from_option opened false (captures s !! cap)); cbn [negb];
      [|apply outcome_ret, Hnone].
    eapply outcome_run_bind; [apply cap_read_run|].
    destruct (fault E (frame_count s) AtRead) as [e|]; cbn iota; [apply Hnone|].
    fold (after_read cap next s).
    eapply outcome_bind;
      [apply (loop_body_frame E N out total start org fs col th (length (heap s))
                (after_read cap next s) next), lookup_at_length| |].
    + intros e s' (_ & [Hw|(x & Hx & Hw)]).
      * exists []. split; [by rewrite Hw, list_alter_id|apply prefix_nil].
      * exists [x]. split; [exact Hw|].
        cbn [encoded_from fmap list_fmap].
        change (frame_count (after_read cap next s)) with (frame_count s) in Hx.
        rewrite Hx. apply prefix_cons, prefix_nil.
    + intros stop s' (x & Hx & Hn & Hc & Hw).
      change (frame_count (after_read cap next s)) with (frame_count s) in Hx, Hn.
      change (writers (after_read cap next s)) with (writers s) in Hw.
      destruct stop.
      * apply outcome_ret. exists [x]. split; [exact Hw|].
        cbn [encoded_from fmap list_fmap]. rewrite Hx. apply prefix_cons, prefix_nil.
      * eapply outcome_weaken; [apply (IH s')|intros [] s''|intros e s''].
        all: intros (imgs & Hw' & Hpre); exists (x :: imgs);
          (split; [by rewrite Hw', Hw, alter_write_frames|]);
          cbn [encoded_from]; rewrite fmap_cons, Hx; rewrite Hn in Hpre;
          by apply prefix_cons.
Qed.

(** A frame that was resized and annotated has the target size and the
    channels and depth of the source frame. *)
Lemma encoded_shape E N total start org fs col th n a img :
  encoded E N total start org fs col th n a = Some img →
  cols img = 540%nat ∧ rows img = 380%nat ∧
  channels img = channels a ∧ depth img = depth a ∧ well_formed img.
Proof.
  unfold encoded, overlays, default_target_size, cv2.resize.
  destruct (is_empty a); [discriminate|].
  change (Nat.eqb 540 0 || Nat.eqb 380 0)%bool with false. cbv iota.
  destruct (_ && _)%bool; intros [= <-]; unfold cv2.putText;
    rewrite !rows_tabulate, !cols_tabulate, !channels_tabulate, !depth_tabulate;
    repeat split; apply tabulate_well_formed.
Qed.

Lemma encoded_from_sizes E N total start org fs col th imgs : ∀ n frames,
  Some <$> imgs `prefix_of` encoded_from E N total start org fs col th n frames →
  Forall (λ img, (cols img, rows img) = (540%nat, 380%nat)) imgs.
Proof.
  induction imgs as [|x imgs IH]; intros n frames Hpre; [constructor|].
  destruct frames as [|a rest]; cbn [encoded_from] in Hpre; rewrite fmap_cons in Hpre.
  { by apply prefix_nil_not in Hpre. }
  constructor.
  - apply prefix_cons_inv_1 in Hpre. symmetry in Hpre.
    apply encoded_shape in Hpre as (-> & -> & _). reflexivity.
  - apply prefix_cons_inv_2 in Hpre. by eapply IH.
Qed.

(** X5.  In every run that passed input validation, whether it ends
    normally or raises, the frames the writer received are, in order, the
    first frames of the source, each resized to 540x380 and then
    annotated with its own number and the frame rate at that moment:
    never a raw, a half-annotated or a repeated frame, and none is
    skipped.  Each of them has the frame size the writer was opened
    with. *)
Theorem written_frames_are_annotated video_path output_path E N v :
  path_exists E video_path = true → video_at E video_path = Some v →
  ∃ r s' w,
    main_with video_path output_path E N initial_state = (r, s') ∧
    writers s' = [w] ∧
    Some <$> out_frames w `prefix_of`
      encoded_from E N (v_total_frames v) (clock E 0) (50%nat, 50%nat) 1 [0; 255; 0] 2
        0 (v_frames v) ∧
    Forall (λ img, (cols img, rows img) = out_size w) (out_frames w).
Proof.
  intros Hex Hv.
  rewrite (main_with_loop _ _ _ _ v Hex Hv).
  pose proof (loop_frames E N 1 0 (v_total_frames v) (clock E 0) (50%nat, 50%nat) 1
                [0; 255; 0] 2 (v_frames v) (ready video_path output_path E N v)) as Hl.
  unfold outcome in Hl.
  pose proof (write_frames_open) as Hopen.
  pose proof (write_frames_fields) as Hfields.
  destruct (loop _ _ _ _ _ _ _ _ _ _ _ _) as [[e|[]] s2];
    destruct Hl as (imgs & Hw & Hpre);
    cbn [ready writers alter list_alter frame_count] in Hw, Hpre;
    match type of Hw with
    | _ = [write_frames _ ?w0] =>
        destruct (Hopen imgs w0 eq_refl) as [Hf _];
        destruct (Hfields imgs w0) as (_ & _ & _ & Hsz)
    end;
    cbn [out_frames out_size app] in Hf, Hsz.
  - eexists (inl e), s2, _. split; [reflexivity|]. split; [exact Hw|].
    rewrite Hf, Hsz. split; [exact Hpre|by eapply encoded_from_sizes].
  - rewrite closing_run.
    destruct (fault E (frame_count s2) AtDestroyAllWindows) as [e|];
      eexists _, _, _; (split; [reflexivity|]);
      unfold released, closed; cbn [writers]; rewrite Hw; cbn [alter list_alter];
      (split; [reflexivity|]); cbn [out_frames out_size];
      rewrite Hf, Hsz; (split; [exact Hpre|by eapply encoded_from_sizes]).
Qed.

Lemma written_frames_are_annotated_witness :
  ∃ r s' w,
    main_with "Demo.mp4" "processed_video.mp4" env_headless sample_numerics initial_state
    = (r, s') ∧
    writers s' = [w] ∧
    Some <$> out_frames w `prefix_of`
      encoded_from env_headless sample_numerics (v_total_frames two_frames)
        (clock env_headless 0) (50%nat, 50%nat) 1 [0; 255; 0] 2 0 (v_frames two_frames) ∧
    Forall (λ img, (cols img, rows img) = out_size w) (out_frames w).
Proof.
  apply (written_frames_are_annotated "Demo.mp4" "processed_video.mp4" env_headless
           sample_numerics two_frames); reflexivity.
Defined.
